(** * VM Helper (vision-maker translation helper): a shallow embedding

    The browser extension's letter-template generator, its auto-rating retry
    controller, its tab-close watcher and the background open-in-new-tab
    handler, embedded as Rocq functions, with the properties of the written
    specification stated and settled against them.

    JavaScript strings are embedded as [string], a sequence of bytes holding
    the UTF-8 encoding of the text.  UTF-8 is self-synchronising, so for
    well-formed text [String.prototype.includes], concatenation and splitting
    on an ASCII separator agree with their byte-level counterparts. *)

From Stdlib Require Import String Ascii List Bool Arith Lia.
From stdpp Require Import base option gmap strings list.

Local Open Scope string_scope.
Local Open Scope nat_scope.

(** ** JavaScript values and string primitives *)

Module Js.

(** The line feed ['\n']. *)
Definition LF : string := String "010"%char "".

(** [s.startsWith(p)] *)
Fixpoint startsWith (s p : string) {struct p} : bool :=
  match p with
  | EmptyString => true
  | String a p' =>
      match s with
      | EmptyString => false
      | String b s' => if Ascii.eqb a b then startsWith s' p' else false
      end
  end.

(** Number of positions of [s] at which [p] starts. *)
Fixpoint occurrences (s p : string) {struct s} : nat :=
  match s with
  | EmptyString => if startsWith "" p then 1 else 0
  | String _ s' => (if startsWith s p then 1 else 0) + occurrences s' p
  end.

(** [s.includes(p)] *)
Fixpoint includes (s p : string) {struct s} : bool :=
  startsWith s p ||
  match s with
  | EmptyString => false
  | String _ s' => includes s' p
  end.

(** [parts.join(sep)] *)
Fixpoint join (sep : string) (parts : list string) : string :=
  match parts with
  | [] => ""
  | [x] => x
  | x :: rest => x +:+ sep +:+ join sep rest
  end.

(** [s.split(c)] for a one-character separator [c]. *)
Fixpoint split (c : ascii) (s : string) : list string :=
  match s with
  | EmptyString => [""]
  | String a s' =>
      if Ascii.eqb a c then "" :: split c s'
      else match split c s' with
           | [] => [String a ""]
           | h :: t => String a h :: t
           end
  end.

(** Number of characters of [s] equal to [c]. *)
Fixpoint count_char (c : ascii) (s : string) : nat :=
  match s with
  | EmptyString => 0
  | String a s' => (if Ascii.eqb a c then 1 else 0) + count_char c s'
  end.

(** The non-empty proper suffixes of [p]. *)
Fixpoint tails (p : string) : list string :=
  match p with
  | EmptyString => []
  | String _ p' =>
      match p' with
      | EmptyString => []
      | String _ _ => p' :: tails p'
      end
  end.

(** [a] and [p] differ at a position both have. *)
Fixpoint clash (a p : string) {struct a} : bool :=
  match a, p with
  | String x a', String y p' => if Ascii.eqb y x then clash a' p' else true
  | _, _ => false
  end.

(** [p] starts at no position of [f], whatever follows [f]. *)
Fixpoint skippable (f p : string) {struct f} : bool :=
  match f with
  | EmptyString => true
  | String _ f' => clash f p && skippable f' p
  end.

(** [array.push(x1, ..., xn)] *)
Definition push {A : Type} (l items : list A) : list A := (l ++ items)%list.

(** [array.includes(x)] on an array of strings. *)
Definition array_includes (l : list string) (x : string) : bool :=
  existsb (String.eqb x) l.

(** The values an argument can take.  An object is its own properties; the
    code reads string-valued properties only (the JSDoc types the three
    data fields as strings), and an absent property reads as [undefined]. *)
Inductive Value : Type :=
| Undefined
| Null
| Boolean (b : bool)
| Str (s : string)
| Object (props : gmap string string).

(** ToBoolean *)
Definition truthy (v : Value) : bool :=
  match v with
  | Undefined | Null => false
  | Boolean b => b
  | Str s => negb (String.eqb s "")
  | Object _ => true
  end.

(** [typeof v] *)
Definition typeof (v : Value) : string :=
  match v with
  | Undefined => "undefined"
  | Null => "object"
  | Boolean _ => "boolean"
  | Str _ => "string"
  | Object _ => "object"
  end.

(** ToString, as a template literal applies it. *)
Definition toString (v : Value) : string :=
  match v with
  | Undefined => "undefined"
  | Null => "null"
  | Boolean true => "true"
  | Boolean false => "false"
  | Str s => s
  | Object _ => "[object Object]"
  end.

(** Completion of a call: a returned value or a thrown error message. *)
Inductive Completion (A : Type) : Type :=
| Return (a : A)
| Throw (message : string).
Arguments Return {A} a.
Arguments Throw {A} message.

Definition bind {A B} (c : Completion A) (k : A → Completion B) : Completion B :=
  match c with
  | Return a => k a
  | Throw m => Throw m
  end.

(** [v[key]] for the keys the code reads: a property of [undefined] or
    [null] throws, a boolean or a string has none of them. *)
Definition property (v : Value) (key : string) : Completion Value :=
  match v with
  | Undefined =>
      Throw ("TypeError: Cannot read properties of undefined (reading '" +:+ key +:+ "')")
  | Null =>
      Throw ("TypeError: Cannot read properties of null (reading '" +:+ key +:+ "')")
  | Boolean _ | Str _ => Return Undefined
  | Object props =>
      Return (match props !! key with Some s => Str s | None => Undefined end)
  end.

End Js.

Notation "x ←! c ; k" := (Js.bind c (fun x => k))
  (at level 20, c at level 100, k at level 200, only parsing).

(** ** config.js *)

Module VM_CONFIG.

Module LETTER_TYPES.
Definition HANDPRINT : string := "HANDPRINT".
Definition PORTRAIT : string := "PORTRAIT".
Definition OTHER : string := "OTHER".
(** [Object.values(VM_CONFIG.LETTER_TYPES)] *)
Definition values : list string := [HANDPRINT; PORTRAIT; OTHER].
End LETTER_TYPES.

Module AUTHOR_TYPES.
Definition CHILD : string := "CHILD".
Definition ANONYMOUS_HELPER : string := "ANONYMOUS_HELPER".
Definition NAMED_HELPER : string := "NAMED_HELPER".
(** [Object.values(VM_CONFIG.AUTHOR_TYPES)] *)
Definition values : list string := [CHILD; ANONYMOUS_HELPER; NAMED_HELPER].
End AUTHOR_TYPES.

Module TIMING.
Definition AUTO_RATING_DELAY : nat := 1000.
Definition AUTO_RATING_RETRY_DELAY : nat := 2000.
End TIMING.

Module URLS.
Definition TARGET_DOMAIN : string := "https://letter.worldvision.or.kr".
End URLS.

End VM_CONFIG.

(** ** letter-templates.js *)

Module LetterTemplates.
Import Js VM_CONFIG.

(** An entry of [templateConfigs]; a property the entry does not have is
    [None]. *)
Record TemplateConfig : Type := {
  artElement : option string;
  includeVillageQuestion : option bool;
  isSimpleTemplate : option bool
}.

(** The instance: the two tables the constructor fills. *)
Record LetterTemplateGenerator : Type := {
  templateConfigs : gmap string TemplateConfig;
  helperStatements : gmap string string
}.

Definition NAMED_HELPER_STATEMENT : string :=
  "*이 편지를 작성하는데 (자원봉사자/엄마/아빠/할머니/고모 등)인 한글독음(영문병기)가 도와주셨어요.".
Definition ANONYMOUS_HELPER_STATEMENT : string :=
  "*이 편지는 현지사업장 자원봉사자 혹은 가족의 도움으로 작성되었어요.".
Definition VILLAGE_QUESTION : string :=
  "- 우리 마을에서 가장 좋아하는 것과 그 이유 :".

(** [new LetterTemplateGenerator()] *)
Definition constructor : LetterTemplateGenerator := {|
  templateConfigs :=
    <[LETTER_TYPES.HANDPRINT :=
        {| artElement := Some "손도장";
           includeVillageQuestion := Some false;
           isSimpleTemplate := None |}]>
    (<[LETTER_TYPES.PORTRAIT :=
        {| artElement := Some "자화상";
           includeVillageQuestion := Some true;
           isSimpleTemplate := None |}]>
    (<[LETTER_TYPES.OTHER :=
        {| artElement := None;
           includeVillageQuestion := None;
           isSimpleTemplate := Some true |}]> ∅));
  helperStatements :=
    <[AUTHOR_TYPES.NAMED_HELPER := NAMED_HELPER_STATEMENT]>
    (<[AUTHOR_TYPES.ANONYMOUS_HELPER := ANONYMOUS_HELPER_STATEMENT]>
    (<[AUTHOR_TYPES.CHILD := ""]> ∅))
|}.

Record ValidationResult : Type := {
  isValid : bool;
  errors : list string
}.

Definition requiredFields : list string :=
  ["sponsorName"; "childKoreanName"; "childEnglishName"].

(** [requiredFields.filter(field => !letterData[field])]; it runs only in
    the branch where [letterData] is an object, so the read cannot throw. *)
Definition missingFields (letterData : Value) : list string :=
  List.filter
    (fun field =>
       match property letterData field with
       | Return v => negb (truthy v)
       | Throw _ => false
       end)
    requiredFields.

Definition validateInputs (letterType authorType : string) (letterData : Value)
  : ValidationResult :=
  let errors0 : list string := [] in
  let errors1 :=
    if negb (array_includes LETTER_TYPES.values letterType)
    then push errors0 ["Invalid letter type: " +:+ letterType]
    else errors0 in
  let errors2 :=
    if negb (array_includes AUTHOR_TYPES.values authorType)
    then push errors1 ["Invalid author type: " +:+ authorType]
    else errors1 in
  let errors3 :=
    if negb (truthy letterData) || negb (String.eqb (typeof letterData) "object")
    then push errors2 ["Letter data is required and must be an object"]
    else
      if negb (String.eqb letterType LETTER_TYPES.OTHER)
      then
        let missing := missingFields letterData in
        if (0 <? length missing)%nat
        then push errors2 ["Missing required fields: " +:+ join ", " missing]
        else errors2
      else errors2 in
  {| isValid := (length errors3 =? 0)%nat; errors := errors3 |}.

(** The signature line, the last element pushed by both templates. *)
Definition signatureLine (childKoreanName childEnglishName : Value) : string :=
  "후원자님의 후원아동, " +:+ toString childKoreanName +:+ "("
    +:+ toString childEnglishName +:+ ") 올림".

(** [if (helperStatement) parts.push(helperStatement, '')] *)
Definition pushHelper (parts : list string) (helperStatement : option string)
  : list string :=
  match helperStatement with
  | Some s => if negb (String.eqb s "") then push parts [s; ""] else parts
  | None => parts
  end.

Definition generateSimpleTemplate (this : LetterTemplateGenerator)
    (authorType : string) (data : Value) : Completion string :=
  let helperStatement := helperStatements this !! authorType in
  sponsorName ←! property data "sponsorName";
  let parts := ["사랑하는 " +:+ toString sponsorName +:+ " 후원자님께,"; ""] in
  let parts := pushHelper parts helperStatement in
  childKoreanName ←! property data "childKoreanName";
  childEnglishName ←! property data "childEnglishName";
  let parts := push parts [signatureLine childKoreanName childEnglishName] in
  Return (join LF parts).

(** [config.artElement] inside the template literal; [config] undefined
    throws. *)
Definition artElementOf (config : option TemplateConfig) : Completion string :=
  match config with
  | None =>
      Throw "TypeError: Cannot read properties of undefined (reading 'artElement')"
  | Some c =>
      Return (match artElement c with Some s => s | None => "undefined" end)
  end.

Definition generateFullTemplate (this : LetterTemplateGenerator)
    (letterType authorType : string) (data : Value) : Completion string :=
  let config := templateConfigs this !! letterType in
  let helperStatement := helperStatements this !! authorType in
  sponsorName ←! property data "sponsorName";
  childKoreanName ←! property data "childKoreanName";
  childEnglishName ←! property data "childEnglishName";
  art ←! artElementOf config;
  let parts :=
    [ "사랑하는 " +:+ toString sponsorName +:+ " 후원자님께,";
      "";
      "안녕하세요!";
      "";
      "제 이름은 " +:+ toString childKoreanName +:+ "("
        +:+ toString childEnglishName +:+ ")이에요. 우리 서로 알아가요!";
      "";
      "- 저의 " +:+ art +:+ "을 그려 보았어요.";
      "";
      "- 제게 특별한 사람 :";
      "";
      "- 이 사람이 제게 특별한 이유 :";
      "";
      "";
      "- 저를 행복하게 해주는 것 :";
      "" ] in
  let parts :=
    match config with
    | Some {| includeVillageQuestion := Some true |} =>
        push parts [VILLAGE_QUESTION; ""]
    | _ => parts
    end in
  let parts :=
    push parts
    [ "- 후원자님께 궁금한 것 :";
      "";
      "저를 후원해 주셔서 감사해요.";
      "후원자님의 소식을 빨리 듣고 싶어요!";
      "" ] in
  let parts := pushHelper parts helperStatement in
  childKoreanName' ←! property data "childKoreanName";
  childEnglishName' ←! property data "childEnglishName";
  let parts := push parts [signatureLine childKoreanName' childEnglishName'] in
  Return (join LF parts).

Definition generatePersonalizedLetter (this : LetterTemplateGenerator)
    (letterType authorType : string) (letterData : Value) : Completion string :=
  let validation := validateInputs letterType authorType letterData in
  if negb (isValid validation)
  then Throw ("Template generation failed: " +:+ join ", " (errors validation))
  else
    let data := letterData in
    if String.eqb letterType LETTER_TYPES.OTHER
    then generateSimpleTemplate this authorType data
    else generateFullTemplate this letterType authorType data.

End LetterTemplates.

(** ** auto-rating.js *)

Module AutoRating.
Import VM_CONFIG.

(** What [window.getComputedStyle(element)] reports of the rating element. *)
Record ComputedStyle : Type := {
  display : string;
  visibility : string;
  opacity : string
}.

(** The host page: what [document.querySelector(RATING_ELEMENT)] yields at
    a time (in ms) once the element has been clicked a number of times;
    [None] is [null]. *)
Definition Dom : Type := nat → nat → option ComputedStyle.

(** What the controller does, in order: the start of an attempt, a click
    and a timer, each with the time it happens at or takes. *)
Inductive Event : Type :=
| Attempt (attemptNumber time : nat)
| Click (time : nat)
| Delay (ms : nat).

Record World : Type := {
  now : nat;
  clicked : nat;
  trace : list Event
}.

(** An [async] function: awaiting is sequencing on the single thread, and
    a timer of [ms] milliseconds advances the clock by [ms]. *)
Definition Async (A : Type) : Type := World → A * World.

Definition ret {A : Type} (a : A) : Async A := fun w => (a, w).

Definition bind {A B : Type} (m : Async A) (k : A → Async B) : Async B :=
  fun w => let (a, w') := m w in k a w'.

Definition emit (e : Event) : Async unit :=
  fun w => (tt, {| now := now w; clicked := clicked w;
                   trace := (trace w ++ [e])%list |}).

(** [await this.delay(ms)] *)
Definition delay (ms : nat) : Async unit :=
  fun w => (tt, {| now := now w + ms; clicked := clicked w;
                   trace := (trace w ++ [Delay ms])%list |}).

(** [DOMUtils.safeQuerySelector(VM_CONFIG.SELECTORS.RATING_ELEMENT)] *)
Definition safeQuerySelector (dom : Dom) : Async (option ComputedStyle) :=
  fun w => (dom (now w) (clicked w), w).

(** [ratingElement.click()] *)
Definition click : Async unit :=
  fun w => (tt, {| now := now w; clicked := S (clicked w);
                   trace := (trace w ++ [Click (now w)])%list |}).

(** [DOMUtils.isVisible(element)] *)
Definition isVisible (element : option ComputedStyle) : bool :=
  match element with
  | None => false
  | Some style =>
      negb (String.eqb (display style) "none")
      && negb (String.eqb (visibility style) "hidden")
      && negb (String.eqb (opacity style) "0")
  end.

Record AutoRatingManager : Type := {
  maxRetries : nat;
  retryDelay : nat;
  initialDelay : nat
}.

(** [new AutoRatingManager()] *)
Definition constructor : AutoRatingManager := {|
  maxRetries := 2;
  retryDelay := TIMING.AUTO_RATING_RETRY_DELAY;
  initialDelay := TIMING.AUTO_RATING_DELAY
|}.

(** The lookups and the click do not throw, so the [try] blocks of
    [clickRating] and [handleAutoRating] never reach their [catch]. *)
Definition validateRatingClick (dom : Dom) : Async bool :=
  bind (safeQuerySelector dom) (fun ratingElement =>
  ret (match ratingElement with Some _ => true | None => false end)).

Definition clickRating (dom : Dom) (attemptNumber : nat) : Async bool :=
  bind (fun w => emit (Attempt attemptNumber (now w)) w) (fun _ =>
  bind (safeQuerySelector dom) (fun ratingElement =>
  match ratingElement with
  | None => ret false
  | Some _ =>
      if negb (isVisible ratingElement) then ret false
      else
        bind click (fun _ =>
        bind (delay 500) (fun _ =>
        validateRatingClick dom))
  end)).

(** The [for] loop of [clickRatingWithRetry] from [attempt] on;
    [remaining] counts the iterations left, [maxRetries + 1 - attempt]. *)
Fixpoint retryLoop (this : AutoRatingManager) (dom : Dom)
    (remaining attempt : nat) : Async bool :=
  match remaining with
  | 0 => ret false
  | S remaining' =>
      bind (clickRating dom attempt) (fun success =>
      if success then ret true
      else
        bind (if (attempt <? maxRetries this)%nat
              then delay (retryDelay this) else ret tt) (fun _ =>
        retryLoop this dom remaining' (S attempt)))
  end.

Definition clickRatingWithRetry (this : AutoRatingManager) (dom : Dom)
  : Async bool :=
  retryLoop this dom (S (maxRetries this)) 0.

Definition handleAutoRating (this : AutoRatingManager) (dom : Dom)
  : Async bool :=
  bind (delay (initialDelay this)) (fun _ =>
  clickRatingWithRetry this dom).

(** The attempts of a trace. *)
Definition attempts (tr : list Event) : list Event :=
  List.filter (fun e => match e with Attempt _ _ => true | _ => false end) tr.

Definition retryDelays (tr : list Event) : list Event :=
  List.filter (fun e => match e with Delay _ => true | _ => false end) tr.

(** The trace of a run in which every attempt fails at its first lookup:
    attempt [k] at [start + k * retryDelay], a retry delay between
    consecutive attempts and none after the last. *)
Fixpoint failedTrace (retryDelay : nat) (remaining attempt time : nat)
  : list Event :=
  match remaining with
  | 0 => []
  | 1 => [Attempt attempt time]
  | S remaining' =>
      Attempt attempt time :: Delay retryDelay
        :: failedTrace retryDelay remaining' (S attempt) (time + retryDelay)
  end.

End AutoRating.

(** ** content.js: the tab-close watcher *)

Module Content.
Import Js.

Definition TARGET_URL : string :=
  "https://letter.worldvision.or.kr/mypage/letterlist/letterviewok.do".

Definition SUCCESS_TEXT : string := "번역완료 되었습니다.".

(** The text the [alert] wrapper of [VMHelper.initialize] looks for. *)
Definition ALERT_TEXT : string := "번역완료".

(** [window.opener], as far as [checkUrlAndCloseIfNeeded] reads it. *)
Record Opener : Type := {
  hasChromeTabs : bool;
  tabId : option nat
}.

(** [{ action: 'closeTab', openerTabId }] *)
Inductive Message : Type :=
| closeTab (openerTabId : option nat).

(** The detector that sent a message. *)
Inductive Trigger : Type :=
| UrlTrigger
| UnloadTrigger
| ObserverTrigger
| AlertTrigger.

(** One page load.  [alertWrapped] tells whether [VMHelper.initialize] has
    got as far as replacing [window.alert] by its wrapper; it does so at
    most once, since it sets [isInitialized] in the same turn. *)
Record Page : Type := {
  href : string;
  lastUrl : string;
  opener : option Opener;
  bodyText : option string;
  observing : bool;
  alertWrapped : bool;
  outbox : list (Trigger * Message)
}.

(** What happens during a page load: what the browser delivers, the
    moment [VMHelper.initialize] replaces [window.alert] by its wrapper, and
    a call of [alert] with its argument. *)
Inductive Event : Type :=
| Navigate (url : string)
| Popstate
| Hashchange
| PollTick
| SubmitTimer
| BeforeUnload
| Mutation (text : option string)
| InstallAlertWrapper
| AlertCalled (message : Value).

(** The page when the content script has run to its end; [initialize] is
    then still waiting for the floating button. *)
Definition load (url : string) (op : option Opener) (body : option string)
  : Page :=
  {| href := url; lastUrl := url; opener := op; bodyText := body;
     observing := true; alertWrapped := false; outbox := [] |}.

Definition sendCloseTab (by_ : Trigger) (openerTabId : option nat) (p : Page)
  : Page :=
  {| href := href p; lastUrl := lastUrl p; opener := opener p;
     bodyText := bodyText p; observing := observing p;
     alertWrapped := alertWrapped p;
     outbox := (outbox p ++ [(by_, closeTab openerTabId)])%list |}.

(** [window.opener.tabId || null] guarded by the opener checks *)
Definition openerTabIdOf (op : option Opener) : option nat :=
  match op with
  | Some o =>
      if hasChromeTabs o
      then match tabId o with
           | Some (S n) => Some (S n)
           | _ => None
           end
      else None
  | None => None
  end.

Definition checkUrlAndCloseIfNeeded (p : Page) : Page :=
  if String.eqb (href p) TARGET_URL
  then sendCloseTab UrlTrigger (openerTabIdOf (opener p)) p
  else p.

(** The polling callback of [setInterval]. *)
Definition pollTick (p : Page) : Page :=
  if negb (String.eqb (href p) (lastUrl p))
  then
    checkUrlAndCloseIfNeeded
      {| href := href p; lastUrl := href p; opener := opener p;
         bodyText := bodyText p; observing := observing p;
         alertWrapped := alertWrapped p;
         outbox := outbox p |}
  else p.

(** The [MutationObserver] callback. *)
Definition observerCallback (p : Page) : Page :=
  match bodyText p with
  | Some innerText =>
      if includes innerText SUCCESS_TEXT
      then
        let p' := sendCloseTab ObserverTrigger None p in
        {| href := href p'; lastUrl := lastUrl p'; opener := opener p';
           bodyText := bodyText p'; observing := false;
           alertWrapped := alertWrapped p';
           outbox := outbox p' |}
      else p
  | None => p
  end.

Definition step (p : Page) (e : Event) : Page :=
  match e with
  | Navigate url =>
      {| href := url; lastUrl := lastUrl p; opener := opener p;
         bodyText := bodyText p; observing := observing p;
         alertWrapped := alertWrapped p;
         outbox := outbox p |}
  | Popstate | Hashchange | SubmitTimer => checkUrlAndCloseIfNeeded p
  | PollTick => pollTick p
  | BeforeUnload => sendCloseTab UnloadTrigger None p
  | Mutation text =>
      let p' :=
        {| href := href p; lastUrl := lastUrl p; opener := opener p;
           bodyText := text; observing := observing p;
           alertWrapped := alertWrapped p;
           outbox := outbox p |} in
      if observing p then observerCallback p' else p'
  | InstallAlertWrapper =>
      {| href := href p; lastUrl := lastUrl p; opener := opener p;
         bodyText := bodyText p; observing := observing p;
         alertWrapped := true; outbox := outbox p |}
  | AlertCalled message =>
      if alertWrapped p
      then match message with
           | Str text =>
               if includes text ALERT_TEXT
               then sendCloseTab AlertTrigger None p
               else p
           | _ => p
           end
      else p
  end.

Definition run (p : Page) (events : list Event) : Page :=
  fold_left step events p.

Definition sentBy (by_ : Trigger) (p : Page) : list (Trigger * Message) :=
  List.filter
    (fun m => match fst m, by_ with
              | UrlTrigger, UrlTrigger
              | UnloadTrigger, UnloadTrigger
              | ObserverTrigger, ObserverTrigger
              | AlertTrigger, AlertTrigger => true
              | _, _ => false
              end)
    (outbox p).

(** The observer has sent nothing while it is connected, and never more
    than one message. *)
Definition observer_once (p : Page) : Prop :=
  (observing p = true → sentBy ObserverTrigger p = [])
  ∧ length (sentBy ObserverTrigger p) ≤ 1.

End Content.

(** ** background.js *)

Module Background.
Import Js.

(** A property of a runtime message as the worker receives it: a value, or
    an array of such. *)
#[warnings="-register-all"] Inductive Json : Type :=
| Plain (v : Value)
| Array (items : list Json).

(** ToBoolean: every array is truthy. *)
Definition truthyJson (j : Json) : bool :=
  match j with
  | Plain v => truthy v
  | Array _ => true
  end.

(** [items.includes(x)] for a string [x]: an element is the same string. *)
Definition arrayIncludes (items : list Json) (x : string) : bool :=
  existsb
    (fun item =>
       match item with
       | Plain (Str s) => String.eqb s x
       | _ => false
       end)
    items.

(** A tab, with the [url] it was created for. *)
Record Tab : Type := {
  id : nat;
  url : Json;
  active : bool
}.

(** The browser as the service worker sees it: the open tabs, the id the
    next tab gets, and for which [url] [chrome.tabs.create] rejects (with
    which message). *)
Record Browser : Type := {
  tabs : list Tab;
  nextTabId : nat;
  createRejects : Json → option string
}.

(** The object handed to [sendResponse]. *)
Inductive Response : Type :=
| Created (tabId : nat) (message : string)
| Failed (error : string).

Definition success (r : Response) : bool :=
  match r with
  | Created _ _ => true
  | Failed _ => false
  end.

(** [BackgroundManager.isTargetDomain]: [url.includes] is the substring
    test on a string and the element test on an array; no other value has
    it. *)
Definition isTargetDomain (url : Json) : Completion bool :=
  if negb (truthyJson url) then Return false
  else
    match url with
    | Plain (Str u) =>
        Return (includes u "letter.worldvision.or.kr"
                && includes u "letterview.do")
    | Array items =>
        Return (arrayIncludes items "letter.worldvision.or.kr"
                && arrayIncludes items "letterview.do")
    | Plain _ => Throw "url.includes is not a function"
    end.

(** [chrome.tabs.create({ url, active: true })] *)
Definition tabs_create (b : Browser) (u : Json) : Completion (Tab * Browser) :=
  match createRejects b u with
  | Some m => Throw m
  | None =>
      let tab := {| id := nextTabId b; url := u; active := true |} in
      Return (tab, {| tabs := (tabs b ++ [tab])%list;
                      nextTabId := S (nextTabId b);
                      createRejects := createRejects b |})
  end.

(** The body of the [try] of [handleOpenInNewTab]. *)
Definition openInNewTab (messageUrl : Json) (b : Browser)
  : Completion (Tab * Browser) :=
  if negb (truthyJson messageUrl)
  then Throw "URL is required for openInNewTab action"
  else
    ok ←! isTargetDomain messageUrl;
    if negb ok then Throw "URL is not from allowed domain"
    else tabs_create b messageUrl.

(** [handleOpenInNewTab]: the browser afterwards and the response sent. *)
Definition handleOpenInNewTab (messageUrl : Json) (b : Browser)
  : Browser * Response :=
  match openInNewTab messageUrl b with
  | Return (tab, b') => (b', Created (id tab) "Tab created successfully")
  | Throw m => (b, Failed m)
  end.

End Background.

(** ** The vocabulary of the specification *)

Module Spec.
Import Js VM_CONFIG LetterTemplates.

Definition known_letter_type (letterType : string) : Prop :=
  letterType = LETTER_TYPES.HANDPRINT ∨ letterType = LETTER_TYPES.PORTRAIT
  ∨ letterType = LETTER_TYPES.OTHER.

Definition known_author_type (authorType : string) : Prop :=
  authorType = AUTHOR_TYPES.CHILD ∨ authorType = AUTHOR_TYPES.ANONYMOUS_HELPER
  ∨ authorType = AUTHOR_TYPES.NAMED_HELPER.

Definition is_object (v : Value) : Prop := ∃ props, v = Object props.

(** A field of the data that is absent or the empty string. *)
Definition empty_field (v : Value) (field : string) : Prop :=
  match v with
  | Object props => props !! field = None ∨ props !! field = Some ""
  | _ => False
  end.

Definition fails {A : Type} (c : Completion A) : Prop := ∃ m, c = Throw m.

(** The three fields of a [LetterData] record with non-empty strings. *)
Definition letter_data (props : gmap string string)
    (sponsorName childKoreanName childEnglishName : string) : Prop :=
  props !! "sponsorName" = Some sponsorName
  ∧ props !! "childKoreanName" = Some childKoreanName
  ∧ props !! "childEnglishName" = Some childEnglishName
  ∧ sponsorName ≠ "" ∧ childKoreanName ≠ "" ∧ childEnglishName ≠ "".

(** A property read for interpolation: its text. *)
Definition field_text (props : gmap string string) (field : string) : string :=
  match props !! field with
  | Some s => s
  | None => "undefined"
  end.

(** The lines of the short template. *)
Definition simple_lines (helperStatement : option string)
    (sponsorName childKoreanName childEnglishName : string) : list string :=
  push
    (pushHelper ["사랑하는 " +:+ sponsorName +:+ " 후원자님께,"; ""]
                helperStatement)
    [signatureLine (Str childKoreanName) (Str childEnglishName)].

(** The lines of the long template. *)
Definition full_lines (art : string) (village : bool)
    (helperStatement : option string)
    (sponsorName childKoreanName childEnglishName : string) : list string :=
  push
    (pushHelper
      (push
        ((if village then fun parts => push parts [VILLAGE_QUESTION; ""]
          else fun parts => parts)
          [ "사랑하는 " +:+ sponsorName +:+ " 후원자님께,";
            "";
            "안녕하세요!";
            "";
            "제 이름은 " +:+ childKoreanName +:+ "("
              +:+ childEnglishName +:+ ")이에요. 우리 서로 알아가요!";
            "";
            "- 저의 " +:+ art +:+ "을 그려 보았어요.";
            "";
            "- 제게 특별한 사람 :";
            "";
            "- 이 사람이 제게 특별한 이유 :";
            "";
            "";
            "- 저를 행복하게 해주는 것 :";
            "" ])
        [ "- 후원자님께 궁금한 것 :";
          "";
          "저를 후원해 주셔서 감사해요.";
          "후원자님의 소식을 빨리 듣고 싶어요!";
          "" ])
      helperStatement)
    [signatureLine (Str childKoreanName) (Str childEnglishName)].

(** The complaints [validateInputs] collects, one block per check. *)
Definition complaints_of (letterType authorType : string) (letterData : Value)
  : list string :=
  ((if array_includes LETTER_TYPES.values letterType then []
    else ["Invalid letter type: " +:+ letterType])
   ++ (if array_includes AUTHOR_TYPES.values authorType then []
       else ["Invalid author type: " +:+ authorType])
   ++ (match letterData with
       | Object _ =>
           if String.eqb letterType LETTER_TYPES.OTHER then []
           else match missingFields letterData with
                | [] => []
                | missing =>
                    ["Missing required fields: " +:+ join ", " missing]
                end
       | _ => ["Letter data is required and must be an object"]
       end))%list.

(** The lines of the letter for known types: the short template for
    [OTHER], the long one with the art element of the type otherwise. *)
Definition letter_lines (letterType authorType : string)
    (props : gmap string string) : list string :=
  let helperStatement := helperStatements constructor !! authorType in
  let sponsorName := field_text props "sponsorName" in
  let childKoreanName := field_text props "childKoreanName" in
  let childEnglishName := field_text props "childEnglishName" in
  if String.eqb letterType LETTER_TYPES.OTHER
  then simple_lines helperStatement sponsorName childKoreanName childEnglishName
  else if String.eqb letterType LETTER_TYPES.HANDPRINT
  then full_lines "손도장" false helperStatement
         sponsorName childKoreanName childEnglishName
  else full_lines "자화상" true helperStatement
         sponsorName childKoreanName childEnglishName.

(** The lines of a letter that carry data: the greeting, the introduction
    (in the long template) and the signature. *)
Definition data_lines (letterType : string) (props : gmap string string)
  : list string :=
  let sponsorName := field_text props "sponsorName" in
  let childKoreanName := field_text props "childKoreanName" in
  let childEnglishName := field_text props "childEnglishName" in
  if String.eqb letterType LETTER_TYPES.OTHER
  then [ "사랑하는 " +:+ sponsorName +:+ " 후원자님께,";
         signatureLine (Str childKoreanName) (Str childEnglishName) ]
  else [ "사랑하는 " +:+ sponsorName +:+ " 후원자님께,";
         "제 이름은 " +:+ childKoreanName +:+ "("
           +:+ childEnglishName +:+ ")이에요. 우리 서로 알아가요!";
         signatureLine (Str childKoreanName) (Str childEnglishName) ].

(** How often the lines that carry data hold a text. *)
Definition from_data (letterType : string) (props : gmap string string)
    (text : string) : nat :=
  list_sum (map (fun line => occurrences line text) (data_lines letterType props)).

(** No required field of the data holds an asterisk. *)
Definition star_free (props : gmap string string) : Prop :=
  ∀ field v, In field requiredFields → props !! field = Some v →
    count_char "*" v = 0.

(** The text after the first ["://"]. *)
Fixpoint authority_of (s : string) : option string :=
  match s with
  | EmptyString => None
  | String c s' =>
      if startsWith s "://"
      then match s' with
           | String _ (String _ rest) => Some rest
           | _ => None
           end
      else authority_of s'
  end.

(** The text before the first ['/'], ['?'] or ['#']. *)
Fixpoint until_path (s : string) : string :=
  match s with
  | EmptyString => ""
  | String c s' =>
      if Ascii.eqb c "/" || Ascii.eqb c "?" || Ascii.eqb c "#" then ""
      else String c (until_path s')
  end.

(** The text after the last ['@']. *)
Fixpoint after_userinfo (s : string) : string :=
  match s with
  | EmptyString => ""
  | String c s' =>
      if includes s' "@" then after_userinfo s'
      else if Ascii.eqb c "@" then s' else s
  end.

(** The text before the first [':']. *)
Fixpoint before_port (s : string) : string :=
  match s with
  | EmptyString => ""
  | String c s' =>
      if Ascii.eqb c ":" then "" else String c (before_port s')
  end.

(** The host a URL names: where the browser goes when it opens the URL. *)
Definition host_of (u : string) : option string :=
  match authority_of u with
  | Some rest => Some (before_port (after_userinfo (until_path rest)))
  | None => None
  end.

(** The URL belongs to the allow-listed domain. *)
Definition on_allowed_domain (u : string) : Prop :=
  host_of u = Some "letter.worldvision.or.kr".

End Spec.

(** ** Measures of a controller trace *)

Module AutoRatingTrace.
Import AutoRating.

(** The attempt numbers of a trace, in order. *)
Definition attemptNumbers (tr : list Event) : list nat :=
  flat_map (fun e => match e with Attempt k _ => [k] | _ => [] end) tr.

(** The number of clicks of a trace. *)
Definition clickCount (tr : list Event) : nat :=
  length (List.filter (fun e => match e with Click _ => true | _ => false end) tr).

(** No attempt of the trace clicks twice, and nothing clicks outside an
    attempt; [allowed] tells whether the attempt under way may still
    click. *)
Fixpoint oneClickPerAttempt (allowed : bool) (tr : list Event) : bool :=
  match tr with
  | [] => true
  | Attempt _ _ :: rest => oneClickPerAttempt true rest
  | Click _ :: rest => allowed && oneClickPerAttempt false rest
  | Delay _ :: rest => oneClickPerAttempt allowed rest
  end.

(** The time the timers of a trace take. *)
Definition elapsed (tr : list Event) : nat :=
  list_sum (map (fun e => match e with Delay ms => ms | _ => 0 end) tr).

(** Every click of the trace hits a control that the page shows at that
    time, [c] clicks having been made before the trace. *)
Fixpoint clicksVisible (dom : Dom) (c : nat) (tr : list Event) : bool :=
  match tr with
  | [] => true
  | Click time :: rest => isVisible (dom time c) && clicksVisible dom (S c) rest
  | _ :: rest => clicksVisible dom c rest
  end.

(** The trace of [k] attempts that find nothing to click, each followed by
    a retry delay, from attempt [attempt] at [time]. *)
Fixpoint waitingTrace (retryDelay : nat) (k attempt time : nat) : list Event :=
  match k with
  | 0 => []
  | S k' =>
      Attempt attempt time :: Delay retryDelay
        :: waitingTrace retryDelay k' (S attempt) (time + retryDelay)
  end.

(** The world after an attempt that finds nothing to click. *)
Definition skipped (attempt : nat) (w : World) : World :=
  {| now := now w; clicked := clicked w;
     trace := (trace w ++ [Attempt attempt (now w)])%list |}.

(** The world after an attempt that clicks and waits for the page. *)
Definition settled (attempt : nat) (w : World) : World :=
  {| now := now w + 500; clicked := S (clicked w);
     trace := (trace w ++ [Attempt attempt (now w); Click (now w); Delay 500])%list |}.

(** The wait before the next attempt, if one is left. *)
Definition paused (this : AutoRatingManager) (attempt : nat) (w : World) : World :=
  if attempt <? maxRetries this
  then {| now := now w + retryDelay this; clicked := clicked w;
          trace := (trace w ++ [Delay (retryDelay this)])%list |}
  else w.

(** What a run of the loop keeps, whatever the page does. *)
Record LoopFacts (this : AutoRatingManager) (dom : Dom)
    (remaining attempt : nat) (w : World) (result : bool) (w' : World)
    (events : list Event) (n : nat) : Prop := {
  facts_trace : trace w' = (trace w ++ events)%list;
  facts_numbers : attemptNumbers events = seq attempt n;
  facts_upper : n ≤ remaining;
  facts_lower : 0 < remaining → 0 < n;
  facts_exhausted : result = false → n = remaining;
  facts_visible : clicksVisible dom (clicked w) events = true;
  facts_clicked : clicked w' = clicked w + clickCount events;
  facts_clicks : clickCount events ≤ n;
  facts_now : now w' = now w + elapsed events;
  facts_elapsed : elapsed events ≤ n * 500 + (n - 1) * retryDelay this;
  facts_present : result = true → dom (now w') (clicked w') ≠ None
}.

End AutoRatingTrace.

(** ** background.js: message routing and the toolbar button *)

Module BackgroundManager.
Import Js Background.

(** A message as [handleMessage] reads it. *)
Record RuntimeMessage : Type := {
  action : string;
  messageUrl : Json;
  level : Value;
  text : Value
}.

(** The service worker: the browser, the lines written through [console]
    by [handleLogMessage] (method and first argument), and which properties
    of [console] are functions. *)
Record Worker : Type := {
  browser : Browser;
  consoleLines : list (string * string);
  consoleMethod : string → bool
}.

(** What [sendResponse] is called with. *)
Inductive Answer : Type :=
| Opened (r : Response)
| Logged
| Refused (error : string).

(** [handleLogMessage]: [level] defaults to ['log'] when it is undefined;
    calling a property of [console] that is not a function throws. *)
Definition handleLogMessage (m : RuntimeMessage) (w : Worker) : Completion Worker :=
  let key := match level m with Undefined => "log" | v => toString v end in
  if consoleMethod w key
  then Return {| browser := browser w;
                 consoleLines :=
                   (consoleLines w
                    ++ [(key, "VM Helper Content: " +:+ toString (text m))])%list;
                 consoleMethod := consoleMethod w |}
  else Throw ("console[level] is not a function").

(** [handleMessage]: the worker afterwards and the response sent. *)
Definition handleMessage (m : RuntimeMessage) (w : Worker) : Worker * Answer :=
  if String.eqb (action m) "openInNewTab"
  then
    let (b', r) := handleOpenInNewTab (messageUrl m) (browser w) in
    ({| browser := b'; consoleLines := consoleLines w;
        consoleMethod := consoleMethod w |}, Opened r)
  else if String.eqb (action m) "log"
  then
    match handleLogMessage m w with
    | Return w' => (w', Logged)
    | Throw e => (w, Refused e)
    end
  else (w, Refused "Unknown action").

Definition handleMessages (w : Worker) (ms : list RuntimeMessage) : Worker :=
  fold_left (fun w m => fst (handleMessage m w)) ms w.

(** The message [sendCloseTab] of the content script sends. *)
Definition closeTabMessage (m : Content.Message) : RuntimeMessage :=
  match m with
  | Content.closeTab _ =>
      {| action := "closeTab"; messageUrl := Plain Undefined; level := Undefined;
         text := Undefined |}
  end.

(** The tab handed to the toolbar-button listener: [tab.id] (absent is
    [None]) and [tab.url]. *)
Record ClickedTab : Type := {
  clickedId : option nat;
  clickedUrl : Value
}.

(** A call of [chrome.scripting.executeScript]: with the function that
    shows the helper, or with the content-script files. *)
Inductive ScriptCall : Type :=
| ShowHelper (tabId : nat)
| InjectFiles (tabId : nat) (files : list string).

Definition contentScriptFiles : list string :=
  ["config.js"; "utils.js"; "letter-templates.js"; "ui-components.js";
   "auto-rating.js"; "content.js"].

(** [executeContentScript]: the calls made, in order; [rejects] tells which
    calls the browser rejects. *)
Definition executeContentScript (rejects : ScriptCall → bool) (tabId : nat)
  : list ScriptCall :=
  if rejects (ShowHelper tabId)
  then [ShowHelper tabId; InjectFiles tabId contentScriptFiles]
  else [ShowHelper tabId].

(** [handleActionClick]: the scripting calls made for a click on the
    toolbar button.  A null tab makes the first statement throw, which the
    [catch] absorbs like every later error. *)
Definition handleActionClick (rejects : ScriptCall → bool)
    (tab : option ClickedTab) : list ScriptCall :=
  match tab with
  | None => []
  | Some t =>
      match clickedId t with
      | None | Some 0 => []
      | Some (S n) =>
          match isTargetDomain (Plain (clickedUrl t)) with
          | Return true => executeContentScript rejects (S n)
          | Return false => []
          | Throw _ => []
          end
      end
  end.

End BackgroundManager.

(** ** Regular expressions and white space *)

Module RegExp.
Import Js.

(** One WhiteSpace or LineTerminator character at the head of [s], as
    [\s] and [trim] understand it, in its UTF-8 bytes: TAB, LF, VT, FF, CR,
    SP, U+00A0, U+1680, U+2000 to U+200A, U+2028, U+2029, U+202F, U+205F,
    U+3000 and U+FEFF.  The result is the text after it. *)
Definition whiteSpace (s : string) : option string :=
  match s with
  | EmptyString => None
  | String a s1 =>
      let x := nat_of_ascii a in
      if (x =? 9) || (x =? 10) || (x =? 11) || (x =? 12) || (x =? 13) || (x =? 32)
      then Some s1
      else
        match s1 with
        | EmptyString => None
        | String b s2 =>
            let y := nat_of_ascii b in
            if (x =? 194) && (y =? 160) then Some s2
            else
              match s2 with
              | EmptyString => None
              | String c s3 =>
                  let z := nat_of_ascii c in
                  if ((x =? 225) && (y =? 154) && (z =? 128))
                     || ((x =? 226) && (y =? 128)
                         && (((128 <=? z) && (z <=? 138))
                             || (z =? 168) || (z =? 169) || (z =? 175)))
                     || ((x =? 226) && (y =? 129) && (z =? 159))
                     || ((x =? 227) && (y =? 128) && (z =? 128))
                     || ((x =? 239) && (y =? 187) && (z =? 191))
                  then Some s3
                  else None
              end
        end
  end.

Fixpoint trimStartLoop (fuel : nat) (s : string) : string :=
  match fuel with
  | 0 => s
  | S fuel' =>
      match whiteSpace s with
      | Some s' => trimStartLoop fuel' s'
      | None => s
      end
  end.

(** [s.trimStart()] *)
Definition trimStart (s : string) : string := trimStartLoop (String.length s) s.

Fixpoint blankLoop (fuel : nat) (s : string) : bool :=
  match s with
  | EmptyString => true
  | String _ _ =>
      match fuel with
      | 0 => false
      | S fuel' =>
          match whiteSpace s with
          | Some s' => blankLoop fuel' s'
          | None => false
          end
      end
  end.

(** [s] is made of white space only. *)
Definition blank (s : string) : bool := blankLoop (String.length s) s.

(** [s.trimEnd()]: the text before its longest blank end. *)
Fixpoint trimEnd (s : string) : string :=
  if blank s then ""
  else match s with
       | EmptyString => ""
       | String a s' => String a (trimEnd s')
       end.

(** [s.trim()] *)
Definition trim (s : string) : string := trimEnd (trimStart s).

(** The captures of a match, the latest first. *)
Definition Captures : Type := list (nat * string).

Definition Cont : Type := string → Captures → option Captures.

(** The patterns the code uses.  An atom matches one character (or
    character class member) at the head of the text and gives the rest;
    alternatives and repetitions are tried in the order of a backtracking
    matcher: the left alternative first, the longest repetition first. *)
Inductive Regex : Type :=
| Empty
| Atom (strip : string → option string)
| Seq (r1 r2 : Regex)
| Alt (r1 r2 : Regex)
| Star (r : Regex)
| Group (i : nat) (r : Regex)
| End.

Definition one (accept : ascii → bool) (s : string) : option string :=
  match s with
  | EmptyString => None
  | String a s' => if accept a then Some s' else None
  end.

Definition Char (c : ascii) : Regex := Atom (one (Ascii.eqb c)).
Definition Class (accept : ascii → bool) : Regex := Atom (one accept).
Definition Space : Regex := Atom whiteSpace.
Definition Plus (r : Regex) : Regex := Seq r (Star r).
Definition Opt (r : Regex) : Regex := Alt r Empty.

Fixpoint Literal (s : string) : Regex :=
  match s with
  | EmptyString => Empty
  | String c s' => Seq (Char c) (Literal s')
  end.

(** The text [s] has lost on the way to its rest [s']. *)
Definition consumed (s s' : string) : string :=
  substring 0 (String.length s - String.length s') s.

(** A greedy repetition of [body]: one more round if it consumes something,
    else, or when what follows fails after it, go on with [k]. *)
Fixpoint starLoop (body : string → Captures → Cont → option Captures)
    (k : Cont) (fuel : nat) (s : string) (caps : Captures) : option Captures :=
  match fuel with
  | 0 => k s caps
  | S fuel' =>
      match body s caps
              (fun s' caps' =>
                 if String.length s' <? String.length s
                 then starLoop body k fuel' s' caps'
                 else None) with
      | Some result => Some result
      | None => k s caps
      end
  end.

(** Match [r] at the head of [s] and go on with [k]; [None] when every
    way fails. *)
Fixpoint exec (r : Regex) (s : string) (caps : Captures) (k : Cont)
  : option Captures :=
  match r with
  | Empty => k s caps
  | Atom strip =>
      match strip s with
      | Some s' => k s' caps
      | None => None
      end
  | Seq r1 r2 => exec r1 s caps (fun s' caps' => exec r2 s' caps' k)
  | Alt r1 r2 =>
      match exec r1 s caps k with
      | Some result => Some result
      | None => exec r2 s caps k
      end
  | Star r' => starLoop (exec r') k (String.length s) s caps
  | Group i r' =>
      exec r' s caps (fun s' caps' => k s' ((i, consumed s s') :: caps'))
  | End =>
      match s with
      | EmptyString => k s caps
      | String _ _ => None
      end
  end.

(** [s.match(r)] for a pattern without flags: the captures of the leftmost
    match, or [None]. *)
Fixpoint search (r : Regex) (s : string) : option Captures :=
  match exec r s [] (fun _ caps => Some caps) with
  | Some caps => Some caps
  | None =>
      match s with
      | EmptyString => None
      | String _ s' => search r s'
      end
  end.

(** [match[i]] for a group that took part in the match. *)
Fixpoint group (i : nat) (caps : Captures) : string :=
  match caps with
  | [] => ""
  | (j, m) :: rest => if i =? j then m else group i rest
  end.

Definition isDigit (a : ascii) : bool :=
  (48 <=? nat_of_ascii a) && (nat_of_ascii a <=? 57).

End RegExp.

(** ** utils.js: StringUtils *)

Module StringUtils.
Import Js RegExp.

Definition notParenthesis (a : ascii) : bool :=
  negb (Ascii.eqb a "(") && negb (Ascii.eqb a ")").

Definition notClosing (a : ascii) : bool := negb (Ascii.eqb a ")").

(** [/,\s*([^()]+)(?:\s*\([^)]*\))?$/] *)
Definition nameRegex : Regex :=
  Seq (Char ",")
  (Seq (Star Space)
  (Seq (Group 1 (Plus (Class notParenthesis)))
  (Seq (Opt (Seq (Star Space)
            (Seq (Char "(")
            (Seq (Star (Class notClosing))
                 (Char ")")))))
       End))).

(** [extractName(text)]; [None] is [null]. *)
Definition extractName (text : Value) : option string :=
  if negb (truthy text) || negb (String.eqb (typeof text) "string") then None
  else
    match text with
    | Str t =>
        match search nameRegex t with
        | Some caps => Some (trim (group 1 caps))
        | None => None
        end
    | _ => None
    end.

(** [getTextContent(element)]; the element is its [textContent], [None]
    when there is no element. *)
Definition getTextContent (element : option string) : string :=
  match element with
  | Some textContent => trim textContent
  | None => ""
  end.

Record RequiredFields : Type := {
  fieldsValid : bool;
  missing : list string
}.

(** [validateRequiredFields(fields)] on the entries of [fields] in their
    order; a value is a string or [null]. *)
Definition validateRequiredFields (fields : list (string * option string))
  : RequiredFields :=
  let missing :=
    flat_map
      (fun entry =>
         match snd entry with
         | None => [fst entry]
         | Some value =>
             if negb (truthy (Str value)) || String.eqb (trim value) ""
             then [fst entry] else []
         end)
      fields in
  {| fieldsValid := (length missing =? 0)%nat; missing := missing |}.

End StringUtils.

(** ** ui-components.js: from the page to the textarea *)

Module UIManager.
Import Js RegExp StringUtils LetterTemplates.

(** The host page as the panel reads and writes it: the [textContent] of
    the three name cells and the value of the translation textarea, each
    [None] when its selector finds nothing. *)
Record HostPage : Type := {
  koreanNameCell : option string;
  englishNameCell : option string;
  sponsorNameCell : option string;
  textarea : option string
}.

(** The checked radio inputs of the panel, [None] when none is checked. *)
Record Panel : Type := {
  letterTypeChecked : option string;
  authorTypeChecked : option string
}.

Inductive UiEffect : Type :=
| Alert (message : string)
| SetTextarea (value : string)
| Toast (message : string)
| Hide.

(** A property of the extracted data.  When the data is built the value is
    a string: [null] has made the validation throw before. *)
Definition setField (key : string) (value : option string)
    (props : gmap string string) : gmap string string :=
  match value with
  | Some v => <[key := v]> props
  | None => props
  end.

(** The object literal [{ sponsorName, childKoreanName, childEnglishName }]
    with three strings. *)
Definition letterDataOf (sponsorName childKoreanName childEnglishName : string)
  : gmap string string :=
  <["childEnglishName" := childEnglishName]>
    (<["childKoreanName" := childKoreanName]>
      (<["sponsorName" := sponsorName]> ∅)).

Definition extractLetterData (page : HostPage) : Completion Value :=
  let koreanNameRaw := getTextContent (koreanNameCell page) in
  let englishNameRaw := getTextContent (englishNameCell page) in
  let sponsorNameRaw := getTextContent (sponsorNameCell page) in
  let koreanName := extractName (Str koreanNameRaw) in
  let englishName := extractName (Str englishNameRaw) in
  let validation :=
    validateRequiredFields [("한글 이름", koreanName); ("영문 이름", englishName)] in
  if negb (fieldsValid validation)
  then Throw ("필수 정보를 찾을 수 없습니다: " +:+ join ", " (missing validation)
              +:+ LF +:+ "(페이지 선택자를 확인해주세요)")
  else Return (Object (setField "childEnglishName" englishName
                      (setField "childKoreanName" koreanName
                      (<["sponsorName" := sponsorNameRaw]> ∅)))).

(** [ErrorUtils.showUserError(message, includeContactInfo)]: what is
    handed to [alert]. *)
Definition showUserError (message : string) (includeContactInfo : bool)
  : UiEffect :=
  Alert (if includeContactInfo
         then message +:+ LF +:+ LF +:+ "문제가 지속되면 개발자에게 문의해주세요."
         else message).

(** [insertTemplate(template)]: whether it wrote, and what it did. *)
Definition insertTemplate (page : HostPage) (template : string)
  : bool * list UiEffect :=
  match textarea page with
  | None =>
      (false, [showUserError
                 ("번역 입력창을 찾을 수 없습니다." +:+ LF
                  +:+ "(페이지 선택자를 확인해주세요)") false])
  | Some _ => (true, [SetTextarea template])
  end.

Definition handleTemplateGeneration (panel : Panel) (page : HostPage)
  : list UiEffect :=
  match letterTypeChecked panel, authorTypeChecked panel with
  | Some letterType, Some authorType =>
      match (letterData ←! extractLetterData page;
             generatePersonalizedLetter constructor letterType authorType
               letterData) with
      | Return template =>
          let (written, effects) := insertTemplate page template in
          if written
          then (effects ++ [Toast "✨ 템플릿이 성공적으로 생성되었습니다!"; Hide])%list
          else effects
      | Throw message =>
          [showUserError ("템플릿 생성 중 오류가 발생했습니다: " +:+ message) true]
      end
  | _, _ => [showUserError "편지 유형과 작성자 유형을 선택해주세요." false]
  end.

(** [getLetterTypes().map(type => type.value)], the values of the letter
    type radio inputs. *)
Definition letterTypeOptions : list string :=
  [VM_CONFIG.LETTER_TYPES.HANDPRINT; VM_CONFIG.LETTER_TYPES.PORTRAIT;
   VM_CONFIG.LETTER_TYPES.OTHER].

(** [getAuthorTypes().map(type => type.value)], the values of the author
    type radio inputs. *)
Definition authorTypeOptions : list string :=
  [VM_CONFIG.AUTHOR_TYPES.CHILD; VM_CONFIG.AUTHOR_TYPES.ANONYMOUS_HELPER;
   VM_CONFIG.AUTHOR_TYPES.NAMED_HELPER].

End UIManager.

(** ** The query of a location *)

Module UrlSearch.
Import Js.

Definition hexValue (a : ascii) : option nat :=
  let x := nat_of_ascii a in
  if (48 <=? x) && (x <=? 57) then Some (x - 48)
  else if (65 <=? x) && (x <=? 70) then Some (x - 55)
  else if (97 <=? x) && (x <=? 102) then Some (x - 87)
  else None.

(** Percent-decoding: ["%"] and two hexadecimal digits give a byte, every
    other byte stands for itself. *)
Fixpoint percentDecode (s : string) : string :=
  match s with
  | EmptyString => ""
  | String a s' =>
      if Ascii.eqb a "%"
      then match s' with
           | String h (String l rest) =>
               match hexValue h, hexValue l with
               | Some x, Some y =>
                   String (ascii_of_nat (16 * x + y)) (percentDecode rest)
               | _, _ => String a (percentDecode s')
               end
           | _ => String a (percentDecode s')
           end
      else String a (percentDecode s')
  end.

Fixpoint plusToSpace (s : string) : string :=
  match s with
  | EmptyString => ""
  | String a s' => String (if Ascii.eqb a "+" then " "%char else a) (plusToSpace s')
  end.

(** The text before the first ["="]. *)
Fixpoint beforeEquals (s : string) : string :=
  match s with
  | EmptyString => ""
  | String a s' => if Ascii.eqb a "=" then "" else String a (beforeEquals s')
  end.

(** The name of one [name=value] sequence of a query. *)
Definition parameterName (sequence : string) : string :=
  percentDecode (plusToSpace (beforeEquals sequence)).

(** [new URLSearchParams(search).has(name)] for an ASCII [name]: a leading
    ["?"] is dropped, the rest is split at ["&"], empty sequences are
    skipped. *)
Definition has (search name : string) : bool :=
  let query :=
    match search with
    | String a rest => if Ascii.eqb a "?" then rest else search
    | EmptyString => search
    end in
  existsb
    (fun sequence =>
       negb (String.eqb sequence "") && String.eqb (parameterName sequence) name)
    (split "&" query).

(** [shouldPerformAutoRating()] on [window.location.search]. *)
Definition shouldPerformAutoRating (search : string) : bool :=
  has search "auto_helper".

(** The text from the first ["?"] on. *)
Fixpoint fromQuestionMark (s : string) : string :=
  match s with
  | EmptyString => ""
  | String a s' => if Ascii.eqb a "?" then s else fromQuestionMark s'
  end.

(** The text before the first ["#"]. *)
Fixpoint beforeHash (s : string) : string :=
  match s with
  | EmptyString => ""
  | String a s' => if Ascii.eqb a "#" then "" else String a (beforeHash s')
  end.

(** [location.search] of a page opened on [url], for a URL that the
    browser takes as it is: the query with its ["?"], empty when the query
    is empty. *)
Definition locationSearch (url : string) : string :=
  let q := fromQuestionMark (beforeHash url) in
  if String.eqb q "?" then "" else q.

End UrlSearch.

(** ** popup-to-tab.js *)

Module PopupToTab.
Import Js RegExp.

(** [/goWindowOpen\('(\d+)',\s*'(\d+)'\)/] *)
Definition openRegex : Regex :=
  Seq (Literal "goWindowOpen('")
  (Seq (Group 1 (Plus (Class isDigit)))
  (Seq (Literal "',")
  (Seq (Star Space)
  (Seq (Char "'")
  (Seq (Group 2 (Plus (Class isDigit)))
       (Literal "')")))))).

(** What [window.open] does. *)
Inductive WindowOpen : Type :=
| NewWindow
| Blocked
| OpenThrows.

(** The letter list page and its browser, as the script meets them. *)
Record ListPage : Type := {
  origin : string;
  timesValue : option string;
  canMessage : bool;
  sendThrows : bool;
  windowOpen : WindowOpen;
  confirmAnswer : bool
}.

Inductive Effect : Type :=
| AlertExpired
| SendOpenInNewTab (url : string)
| OpenWindow (url : string)
| AskConfirm
| SetLocation (url : string).

Definition fallbackOpenTab (page : ListPage) (url : string) : list Effect :=
  match windowOpen page with
  | NewWindow => [OpenWindow url]
  | Blocked =>
      if confirmAnswer page
      then [OpenWindow url; AskConfirm; SetLocation url]
      else [OpenWindow url; AskConfirm]
  | OpenThrows => [OpenWindow url; SetLocation url]
  end.

Definition letterViewUrl (origin seq mseq : string) : string :=
  origin +:+ "/mypage/letterlist/letterview.do?letter_seq=" +:+ seq
    +:+ "&letter_mseq=" +:+ mseq +:+ "&isfinished=0&auto_helper=1".

Definition processLink (page : ListPage) (href : string) : list Effect :=
  match timesValue page with
  | Some "0" => [AlertExpired]
  | _ =>
      match search openRegex href with
      | None => []
      | Some caps =>
          let url := letterViewUrl (origin page) (group 1 caps) (group 2 caps) in
          if canMessage page
          then if sendThrows page then fallbackOpenTab page url
               else [SendOpenInNewTab url]
          else fallbackOpenTab page url
      end
  end.

(** The callback of [sendMessage]: the fallback runs on
    [chrome.runtime.lastError] only. *)
Definition onResponse (page : ListPage) (url : string) (lastError : bool)
  : list Effect :=
  if lastError then fallbackOpenTab page url else [].

(** [handleLinkClick]: whether the click is taken over (default prevented,
    propagation stopped), and what is done.  [link] is the [href] attribute
    of the closest anchor: [None] without anchor, [Some None] without
    attribute. *)
Definition handleLinkClick (page : ListPage) (link : option (option string))
  : bool * list Effect :=
  match link with
  | Some (Some href) =>
      if negb (String.eqb href "") && includes href "goWindowOpen"
      then (true, processLink page href)
      else (false, [])
  | _ => (false, [])
  end.

End PopupToTab.

(** ** What a pattern matches *)

Module RegExpSem.
Import Js RegExp.

(** Every character of [s] is accepted. *)
Fixpoint allChars (accept : ascii → bool) (s : string) : bool :=
  match s with
  | EmptyString => true
  | String a s' => accept a && allChars accept s'
  end.

(** [Matches r s caps s' caps']: the pattern [r] matches a head of [s],
    leaves [s'] and turns the captures [caps] into [caps']. *)
Inductive Matches : Regex → string → Captures → string → Captures → Prop :=
| Matches_Empty s caps : Matches Empty s caps s caps
| Matches_Atom strip s s' caps :
    strip s = Some s' → Matches (Atom strip) s caps s' caps
| Matches_Seq r1 r2 s caps s1 caps1 s2 caps2 :
    Matches r1 s caps s1 caps1 → Matches r2 s1 caps1 s2 caps2 →
    Matches (Seq r1 r2) s caps s2 caps2
| Matches_AltL r1 r2 s caps s' caps' :
    Matches r1 s caps s' caps' → Matches (Alt r1 r2) s caps s' caps'
| Matches_AltR r1 r2 s caps s' caps' :
    Matches r2 s caps s' caps' → Matches (Alt r1 r2) s caps s' caps'
| Matches_StarNil r s caps : Matches (Star r) s caps s caps
| Matches_StarCons r s caps s1 caps1 s2 caps2 :
    Matches r s caps s1 caps1 → String.length s1 < String.length s →
    Matches (Star r) s1 caps1 s2 caps2 →
    Matches (Star r) s caps s2 caps2
| Matches_Group i r s caps s' caps' :
    Matches r s caps s' caps' →
    Matches (Group i r) s caps s' ((i, consumed s s') :: caps')
| Matches_End caps : Matches End "" caps "" caps.

(** [s] becomes [rest] by taking atoms off its head, each a real step. *)
Inductive Repeats (strip : string → option string) : string → string → Prop :=
| Repeats_done rest : Repeats strip rest rest
| Repeats_step s s1 rest :
    strip s = Some s1 → String.length s1 < String.length s →
    Repeats strip s1 rest → Repeats strip s rest.

End RegExpSem.

(** * Properties *)

(** ** Strings *)

Module JsFacts.
Import Js.

Lemma append_cons a s t : String a s +:+ t = String a (s +:+ t).
Proof. reflexivity. Qed.

Lemma append_nil_l s : "" +:+ s = s.
Proof. reflexivity. Qed.

Lemma append_nil_r s : s +:+ "" = s.
Proof. induction s as [|a s IH]; [reflexivity|]. rewrite append_cons, IH. reflexivity. Qed.

Lemma append_assoc a b c : (a +:+ b) +:+ c = a +:+ (b +:+ c).
Proof.
  induction a as [|x a IH]; [reflexivity|].
  rewrite !append_cons, IH. reflexivity.
Qed.

Lemma startsWith_nil s : startsWith s "" = true.
Proof. destruct s; reflexivity. Qed.

Lemma startsWith_cons a s b p :
  startsWith (String a s) (String b p)
  = if Ascii.eqb b a then startsWith s p else false.
Proof. reflexivity. Qed.

Lemma startsWith_app p s : startsWith (p +:+ s) p = true.
Proof.
  induction p as [|a p IH]; [apply startsWith_nil|].
  rewrite append_cons, startsWith_cons, Ascii.eqb_refl. exact IH.
Qed.

Lemma startsWith_app_l s t p :
  startsWith s p = true → startsWith (s +:+ t) p = true.
Proof.
  revert s. induction p as [|a p IH]; intros s H; [apply startsWith_nil|].
  destruct s as [|b s]; [discriminate|].
  rewrite append_cons, startsWith_cons. rewrite startsWith_cons in H.
  destruct (Ascii.eqb a b); [auto|discriminate].
Qed.

Lemma startsWith_inv s p :
  startsWith s p = true → ∃ t, s = p +:+ t.
Proof.
  revert s. induction p as [|a p IH]; intros s H.
  - exists s. reflexivity.
  - destruct s as [|b s]; [discriminate|].
    rewrite startsWith_cons in H.
    destruct (Ascii.eqb_spec a b) as [->|]; [|discriminate].
    destruct (IH _ H) as [t ->]. exists t. reflexivity.
Qed.

Lemma includes_unfold s p :
  includes s p
  = startsWith s p
    || match s with EmptyString => false | String _ s' => includes s' p end.
Proof. destruct s; reflexivity. Qed.

Lemma includes_app_r a s p :
  includes s p = true → includes (a +:+ s) p = true.
Proof.
  intros H. induction a as [|x a IH]; [exact H|].
  rewrite append_cons, includes_unfold, IH. apply orb_true_r.
Qed.

Lemma includes_app_l s t p :
  includes s p = true → includes (s +:+ t) p = true.
Proof.
  induction s as [|x s IH]; intros H.
  - rewrite includes_unfold, orb_false_r in H.
    destruct p; [|discriminate].
    rewrite includes_unfold, startsWith_nil. reflexivity.
  - rewrite includes_unfold in H. apply orb_true_iff in H as [H|H].
    + rewrite includes_unfold, (startsWith_app_l _ _ _ H). reflexivity.
    + rewrite append_cons, includes_unfold, (IH H). apply orb_true_r.
Qed.

Lemma includes_self s : includes s s = true.
Proof.
  rewrite includes_unfold.
  rewrite <- (append_nil_r s) at 1. rewrite startsWith_app. reflexivity.
Qed.

(** [includes] is the substring relation. *)
Lemma includes_iff s p :
  includes s p = true ↔ ∃ a b, s = a +:+ p +:+ b.
Proof.
  split.
  - induction s as [|x s IH]; intros H; rewrite includes_unfold in H.
    + rewrite orb_false_r in H. apply startsWith_inv in H as [t ->].
      exists "", t. reflexivity.
    + apply orb_true_iff in H as [H|H].
      * apply startsWith_inv in H as [t ->]. exists "", t. reflexivity.
      * destruct (IH H) as (a & b & ->). exists (String x a), b. reflexivity.
  - intros (a & b & ->). apply includes_app_r, includes_app_l, includes_self.
Qed.

Lemma occurrences_unfold s p :
  occurrences s p
  = match s with
    | EmptyString => if startsWith "" p then 1 else 0
    | String _ s' => (if startsWith s p then 1 else 0) + occurrences s' p
    end.
Proof. destruct s; reflexivity. Qed.

Lemma includes_occurrences s p :
  includes s p = negb (occurrences s p =? 0)%nat.
Proof.
  induction s as [|x s IH].
  - rewrite includes_unfold, occurrences_unfold, orb_false_r.
    destruct (startsWith "" p); reflexivity.
  - rewrite includes_unfold, occurrences_unfold, IH.
    destruct (startsWith (String x s) p); [reflexivity|].
    reflexivity.
Qed.

Lemma includes_false_iff s p :
  includes s p = false ↔ occurrences s p = 0.
Proof.
  rewrite includes_occurrences, negb_false_iff, Nat.eqb_eq. reflexivity.
Qed.

Lemma includes_true_iff s p :
  includes s p = true ↔ 0 < occurrences s p.
Proof.
  rewrite includes_occurrences, negb_true_iff, Nat.eqb_neq. lia.
Qed.

Lemma count_char_app c a b :
  count_char c (a +:+ b) = count_char c a + count_char c b.
Proof.
  induction a as [|x a IH]; [reflexivity|].
  rewrite append_cons. cbn [count_char]. rewrite IH. lia.
Qed.

(** An occurrence of a pattern starts with the pattern's first character. *)
Lemma occurrences_le_count_char c p s :
  occurrences s (String c p) ≤ count_char c s.
Proof.
  induction s as [|x s IH]; [cbn; lia|].
  rewrite occurrences_unfold, startsWith_cons. cbn [count_char].
  rewrite (Ascii.eqb_sym x c).
  destruct (Ascii.eqb c x); [destruct (startsWith s p)|]; lia.
Qed.

Lemma count_char_join c sep parts :
  count_char c sep = 0 →
  count_char c (join sep parts) = list_sum (map (count_char c) parts).
Proof.
  intros Hsep. induction parts as [|x [|y rest] IH].
  - reflexivity.
  - cbn. lia.
  - change (join sep (x :: y :: rest)) with (x +:+ sep +:+ join sep (y :: rest)).
    rewrite !count_char_app, Hsep, IH. cbn [map list_sum fold_right]. lia.
Qed.

Lemma join_cons sep x y rest :
  join sep (x :: y :: rest) = x +:+ sep +:+ join sep (y :: rest).
Proof. reflexivity. Qed.

Lemma includes_join sep parts x p :
  In x parts → includes x p = true → includes (join sep parts) p = true.
Proof.
  induction parts as [|y [|z rest] IH]; intros Hin Hx.
  - destruct Hin.
  - destruct Hin as [->|[]]. exact Hx.
  - rewrite join_cons. destruct Hin as [->|Hin].
    + apply includes_app_l, Hx.
    + apply includes_app_r, includes_app_r, IH; assumption.
Qed.

(** A pattern without the separator character cannot start before the
    separator and end after it. *)
Lemma startsWith_sep c x rest p :
  count_char c p = 0 →
  startsWith (x +:+ String c rest) p = startsWith x p.
Proof.
  revert x. induction p as [|a p IH]; intros x Hp.
  - rewrite !startsWith_nil. reflexivity.
  - cbn [count_char] in Hp.
    destruct (Ascii.eqb a c) eqn:Hac; [discriminate|].
    destruct x as [|b x].
    + rewrite append_nil_l, startsWith_cons, Hac. reflexivity.
    + rewrite append_cons, !startsWith_cons.
      destruct (Ascii.eqb a b); [apply IH; exact Hp|reflexivity].
Qed.

Lemma occurrences_sep c x rest p :
  p ≠ "" → count_char c p = 0 →
  occurrences (x +:+ String c rest) p = occurrences x p + occurrences rest p.
Proof.
  intros Hne Hp. induction x as [|b x IH].
  - rewrite append_nil_l, occurrences_unfold.
    destruct p as [|a p]; [congruence|].
    rewrite startsWith_cons. cbn [count_char] in Hp.
    destruct (Ascii.eqb a c); [discriminate|]. reflexivity.
  - rewrite append_cons, (occurrences_unfold (String b x)),
      (occurrences_unfold (String b _)), <- append_cons,
      startsWith_sep, IH by exact Hp.
    lia.
Qed.

(** The occurrences in a text are those in its lines. *)
Lemma occurrences_join_lines c parts p :
  p ≠ "" → count_char c p = 0 →
  occurrences (join (String c "") parts) p
  = list_sum (map (fun x => occurrences x p) parts).
Proof.
  intros Hne Hp. induction parts as [|x [|y rest] IH].
  - destruct p; [congruence|reflexivity].
  - cbn. lia.
  - rewrite join_cons, append_cons, append_nil_l, occurrences_sep, IH by assumption.
    reflexivity.
Qed.

Lemma clash_startsWith a p rest :
  clash a p = true → startsWith (a +:+ rest) p = false.
Proof.
  revert p. induction a as [|x a IH]; intros p H; [discriminate|].
  destruct p as [|y p]; [discriminate|].
  cbn [clash] in H. rewrite append_cons, startsWith_cons.
  destruct (Ascii.eqb y x); [apply IH; exact H|reflexivity].
Qed.

(** Fixed text in which the pattern cannot start is skipped. *)
Lemma occurrences_skip f rest p :
  skippable f p = true →
  occurrences (f +:+ rest) p = occurrences rest p.
Proof.
  induction f as [|x f IH]; intros H; [reflexivity|].
  cbn [skippable] in H. apply andb_true_iff in H as [Hc Hs].
  rewrite append_cons, occurrences_unfold, <- append_cons.
  rewrite (clash_startsWith _ _ _ Hc), IH by exact Hs. reflexivity.
Qed.

(** A pattern starting in [x] and running into [rest] leaves one of its
    proper suffixes at the head of [rest]. *)
Lemma startsWith_app_inv x rest p :
  x ≠ "" → startsWith (x +:+ rest) p = true →
  startsWith x p = true ∨ ∃ q, In q (tails p) ∧ startsWith rest q = true.
Proof.
  revert x. induction p as [|a p IH]; intros x Hx H.
  - left. apply startsWith_nil.
  - destruct x as [|b x]; [congruence|].
    rewrite append_cons, startsWith_cons in H. rewrite startsWith_cons.
    destruct (Ascii.eqb a b); [|discriminate].
    destruct x as [|b' x].
    + rewrite append_nil_l in H. destruct p as [|a' p].
      * left. reflexivity.
      * right. exists (String a' p). split; [left; reflexivity|exact H].
    + destruct (IH (String b' x) ltac:(discriminate) H) as [Hl|(q & Hq & Hr)].
      * left. exact Hl.
      * right. exists q. split; [|exact Hr].
        destruct p as [|a' p]; [destruct Hq|]. right. exact Hq.
Qed.

(** Unknown text that does not contain the pattern, before text at whose
    head no proper suffix of the pattern fits, contributes no occurrence. *)
Lemma occurrences_hole d rest p :
  includes d p = false →
  (∀ q, In q (tails p) → startsWith rest q = false) →
  occurrences (d +:+ rest) p = occurrences rest p.
Proof.
  intros Hd Hrest. induction d as [|x d IH]; [reflexivity|].
  rewrite includes_unfold in Hd. apply orb_false_iff in Hd as [Hs Hd].
  rewrite append_cons, occurrences_unfold, <- append_cons, IH by exact Hd.
  destruct (startsWith (String x d +:+ rest) p) eqn:E; [|reflexivity].
  apply startsWith_app_inv in E as [E|(q & Hq & E)]; [congruence| |discriminate].
  rewrite (Hrest q Hq) in E. discriminate.
Qed.

Lemma occurrences_hole_fixed d f rest p :
  includes d p = false →
  forallb (clash f) (tails p) = true →
  occurrences (d +:+ f +:+ rest) p = occurrences (f +:+ rest) p.
Proof.
  intros Hd Hf. apply occurrences_hole; [exact Hd|].
  intros q Hq. apply clash_startsWith.
  rewrite forallb_forall in Hf. apply Hf, Hq.
Qed.

Lemma occurrences_hole_end d f p :
  includes d p = false →
  forallb (fun q => negb (startsWith f q)) (tails p) = true →
  occurrences (d +:+ f) p = occurrences f p.
Proof.
  intros Hd Hf. apply occurrences_hole; [exact Hd|].
  intros q Hq. rewrite forallb_forall in Hf.
  apply negb_true_iff, Hf, Hq.
Qed.

End JsFacts.

(** ** The template generator *)

Module LetterFacts.
Import Js VM_CONFIG LetterTemplates Spec JsFacts.

Lemma known_letter_type_iff letterType :
  array_includes LETTER_TYPES.values letterType = true
  ↔ known_letter_type letterType.
Proof.
  unfold array_includes, LETTER_TYPES.values, known_letter_type.
  cbn [existsb]. rewrite !orb_true_iff, !String.eqb_eq. intuition discriminate.
Qed.

Lemma known_author_type_iff authorType :
  array_includes AUTHOR_TYPES.values authorType = true
  ↔ known_author_type authorType.
Proof.
  unfold array_includes, AUTHOR_TYPES.values, known_author_type.
  cbn [existsb]. rewrite !orb_true_iff, !String.eqb_eq. intuition discriminate.
Qed.

Lemma unknown_letter_type_iff letterType :
  array_includes LETTER_TYPES.values letterType = false
  ↔ ¬ known_letter_type letterType.
Proof.
  rewrite <- known_letter_type_iff.
  destruct (array_includes _ _); intuition congruence.
Qed.

Lemma unknown_author_type_iff authorType :
  array_includes AUTHOR_TYPES.values authorType = false
  ↔ ¬ known_author_type authorType.
Proof.
  rewrite <- known_author_type_iff.
  destruct (array_includes _ _); intuition congruence.
Qed.

(** The guard on the data argument lets objects through and nothing
    else. *)
Lemma data_guard_iff letterData :
  negb (truthy letterData) || negb (String.eqb (typeof letterData) "object") = false
  ↔ is_object letterData.
Proof.
  unfold is_object. destruct letterData as [| |[]|s|props]; cbn;
    try (split; [discriminate|intros [? [=]]]).
  - destruct (negb (String.eqb s "")); cbn; split;
      first [discriminate|intros [? [=]]].
  - split; eauto.
Qed.

Lemma toString_field props key :
  toString (match props !! key with Some s => Str s | None => Undefined end)
  = field_text props key.
Proof. unfold field_text. destruct (props !! key); reflexivity. Qed.

(** A required field is reported missing exactly when it is absent or the
    empty string. *)
Lemma missingFields_iff props field :
  In field (missingFields (Object props))
  ↔ In field requiredFields ∧ empty_field (Object props) field.
Proof.
  unfold missingFields. rewrite filter_In. cbn [property empty_field].
  apply and_iff_compat_l.
  destruct (props !! field) as [s|]; cbn [truthy].
  - rewrite negb_involutive, String.eqb_eq. split.
    + intros ->. right. reflexivity.
    + intros [[=]|[= ->]]. reflexivity.
  - split; auto.
Qed.

Lemma missingFields_nil_iff props :
  missingFields (Object props) = []
  ↔ ∀ field, In field requiredFields → ¬ empty_field (Object props) field.
Proof.
  split.
  - intros H field Hin He.
    assert (Hm : In field (missingFields (Object props)))
      by (apply missingFields_iff; auto).
    rewrite H in Hm. destruct Hm.
  - intros H. destruct (missingFields (Object props)) as [|f l] eqn:E; [reflexivity|].
    assert (Hm : In f (missingFields (Object props))) by (rewrite E; left; reflexivity).
    apply missingFields_iff in Hm as [Hin He]. destruct (H f Hin He).
Qed.

Lemma letter_data_complete props s k e :
  letter_data props s k e → missingFields (Object props) = [].
Proof.
  intros (Hs & Hk & He & Hs' & Hk' & He'). apply missingFields_nil_iff.
  intros field [<-|[<-|[<-|[]]]] [H|H]; congruence.
Qed.

Lemma letter_data_text props s k e :
  letter_data props s k e →
  field_text props "sponsorName" = s
  ∧ field_text props "childKoreanName" = k
  ∧ field_text props "childEnglishName" = e.
Proof.
  intros (Hs & Hk & He & _). unfold field_text. rewrite Hs, Hk, He. auto.
Qed.

Lemma validateInputs_errors letterType authorType letterData :
  errors (validateInputs letterType authorType letterData)
  = complaints_of letterType authorType letterData.
Proof.
  unfold validateInputs, complaints_of, push. cbn [errors].
  destruct (array_includes LETTER_TYPES.values letterType),
    (array_includes AUTHOR_TYPES.values authorType); cbn [negb app];
    (destruct letterData as [| |[]|s|props]; cbn [truthy typeof negb orb];
     [reflexivity..| |];
     [ destruct (negb (String.eqb s "")); reflexivity
     | change (String.eqb "object" "object") with true; cbn [negb];
       destruct (String.eqb letterType LETTER_TYPES.OTHER); cbn [negb];
       [reflexivity|];
       destruct (missingFields (Object props)); reflexivity ]).
Qed.

Lemma validateInputs_isValid letterType authorType letterData :
  isValid (validateInputs letterType authorType letterData) = true
  ↔ complaints_of letterType authorType letterData = [].
Proof.
  rewrite <- validateInputs_errors. unfold validateInputs. cbn [isValid errors].
  rewrite Nat.eqb_eq. apply length_zero_iff_nil.
Qed.

End LetterFacts.

Module GeneratorFacts.
Import Js VM_CONFIG LetterTemplates Spec JsFacts LetterFacts.

Lemma generateSimpleTemplate_object this authorType props :
  generateSimpleTemplate this authorType (Object props)
  = Return (join LF (simple_lines (helperStatements this !! authorType)
              (field_text props "sponsorName")
              (field_text props "childKoreanName")
              (field_text props "childEnglishName"))).
Proof.
  unfold generateSimpleTemplate, simple_lines, signatureLine.
  cbn [property Js.bind]. rewrite !toString_field. reflexivity.
Qed.

Lemma config_HANDPRINT :
  templateConfigs constructor !! LETTER_TYPES.HANDPRINT
  = Some {| artElement := Some "손도장"; includeVillageQuestion := Some false;
            isSimpleTemplate := None |}.
Proof. vm_compute. reflexivity. Qed.

Lemma config_PORTRAIT :
  templateConfigs constructor !! LETTER_TYPES.PORTRAIT
  = Some {| artElement := Some "자화상"; includeVillageQuestion := Some true;
            isSimpleTemplate := None |}.
Proof. vm_compute. reflexivity. Qed.

Lemma helper_CHILD :
  helperStatements constructor !! AUTHOR_TYPES.CHILD = Some "".
Proof. vm_compute. reflexivity. Qed.

Lemma helper_ANONYMOUS_HELPER :
  helperStatements constructor !! AUTHOR_TYPES.ANONYMOUS_HELPER
  = Some ANONYMOUS_HELPER_STATEMENT.
Proof. vm_compute. reflexivity. Qed.

Lemma helper_NAMED_HELPER :
  helperStatements constructor !! AUTHOR_TYPES.NAMED_HELPER
  = Some NAMED_HELPER_STATEMENT.
Proof. vm_compute. reflexivity. Qed.

Lemma generateFullTemplate_HANDPRINT authorType props :
  generateFullTemplate constructor LETTER_TYPES.HANDPRINT authorType (Object props)
  = Return (join LF (full_lines "손도장" false
              (helperStatements constructor !! authorType)
              (field_text props "sponsorName")
              (field_text props "childKoreanName")
              (field_text props "childEnglishName"))).
Proof.
  unfold generateFullTemplate, full_lines, signatureLine.
  rewrite config_HANDPRINT.
  cbn [property Js.bind artElementOf artElement includeVillageQuestion].
  rewrite !toString_field. reflexivity.
Qed.

Lemma generateFullTemplate_PORTRAIT authorType props :
  generateFullTemplate constructor LETTER_TYPES.PORTRAIT authorType (Object props)
  = Return (join LF (full_lines "자화상" true
              (helperStatements constructor !! authorType)
              (field_text props "sponsorName")
              (field_text props "childKoreanName")
              (field_text props "childEnglishName"))).
Proof.
  unfold generateFullTemplate, full_lines, signatureLine.
  rewrite config_PORTRAIT.
  cbn [property Js.bind artElementOf artElement includeVillageQuestion].
  rewrite !toString_field. reflexivity.
Qed.

(** Decides the comparisons between the type constants. *)
Ltac type_tests :=
  repeat match goal with
  | |- context [String.eqb ?a ?b] =>
      first
        [ is_var a; fail 1
        | is_var b; fail 1
        | let r := eval vm_compute in (String.eqb a b) in
          change (String.eqb a b) with r ]
  end;
  cbv iota.

(** No complaint: the letter of the type is returned. *)
Lemma generate_valid letterType authorType props :
  known_letter_type letterType →
  complaints_of letterType authorType (Object props) = [] →
  generatePersonalizedLetter constructor letterType authorType (Object props)
  = Return (join LF (letter_lines letterType authorType props)).
Proof.
  intros Hlt Hc. unfold generatePersonalizedLetter.
  apply validateInputs_isValid in Hc. rewrite Hc. cbn [negb].
  unfold letter_lines.
  destruct Hlt as [->|[->| ->]].
  - change (String.eqb LETTER_TYPES.HANDPRINT LETTER_TYPES.OTHER) with false.
    change (String.eqb LETTER_TYPES.HANDPRINT LETTER_TYPES.HANDPRINT) with true.
    cbv iota. apply generateFullTemplate_HANDPRINT.
  - change (String.eqb LETTER_TYPES.PORTRAIT LETTER_TYPES.OTHER) with false.
    change (String.eqb LETTER_TYPES.PORTRAIT LETTER_TYPES.HANDPRINT) with false.
    cbv iota. apply generateFullTemplate_PORTRAIT.
  - change (String.eqb LETTER_TYPES.OTHER LETTER_TYPES.OTHER) with true.
    cbv iota. apply generateSimpleTemplate_object.
Qed.

(** A complaint: the call throws, with every complaint in the message. *)
Lemma generate_invalid letterType authorType letterData :
  complaints_of letterType authorType letterData ≠ [] →
  generatePersonalizedLetter constructor letterType authorType letterData
  = Throw ("Template generation failed: "
           +:+ join ", " (complaints_of letterType authorType letterData)).
Proof.
  intros Hc. unfold generatePersonalizedLetter.
  destruct (isValid _) eqn:E.
  - apply validateInputs_isValid in E. contradiction.
  - cbn [negb]. rewrite validateInputs_errors. reflexivity.
Qed.

Lemma complaints_nil_iff letterType authorType letterData :
  complaints_of letterType authorType letterData = []
  ↔ known_letter_type letterType ∧ known_author_type authorType
    ∧ is_object letterData
    ∧ (letterType ≠ LETTER_TYPES.OTHER →
       ∀ field, In field requiredFields → ¬ empty_field letterData field).
Proof.
  unfold complaints_of.
  rewrite <- known_letter_type_iff, <- known_author_type_iff.
  destruct (array_includes LETTER_TYPES.values letterType);
    [|split; [discriminate|intros ([=] & _)]].
  destruct (array_includes AUTHOR_TYPES.values authorType);
    [|split; [discriminate|intros (_ & [=] & _)]].
  cbn [app]. unfold is_object.
  destruct letterData as [| |b|s|props];
    try (split; [discriminate|intros (_ & _ & [? [=]] & _)]).
  destruct (String.eqb_spec letterType LETTER_TYPES.OTHER) as [->|Hne].
  - split; [|reflexivity]. intros _. repeat split; eauto; congruence.
  - rewrite <- missingFields_nil_iff.
    destruct (missingFields (Object props)) eqn:E.
    + split; [|reflexivity]. intros _. repeat split; eauto.
    + split; [discriminate|]. intros (_ & _ & _ & H). discriminate (H Hne).
Qed.

End GeneratorFacts.

Module GeneratorClaims.
Import Js VM_CONFIG LetterTemplates Spec JsFacts LetterFacts GeneratorFacts.

Lemma complaints_cons_iff letterType authorType letterData :
  complaints_of letterType authorType letterData ≠ []
  ↔ ¬ known_letter_type letterType ∨ ¬ known_author_type authorType
    ∨ ¬ is_object letterData
    ∨ (letterType ≠ LETTER_TYPES.OTHER
       ∧ ∃ field, In field requiredFields ∧ empty_field letterData field).
Proof.
  split.
  - intros Hc.
    destruct (array_includes LETTER_TYPES.values letterType) eqn:Elt;
      [|left; apply unknown_letter_type_iff, Elt].
    destruct (array_includes AUTHOR_TYPES.values authorType) eqn:Eat;
      [|right; left; apply unknown_author_type_iff, Eat].
    destruct letterData as [| |b|s|props];
      [right; right; left; intros [? [=]]..|].
    right; right; right.
    unfold complaints_of in Hc. rewrite Elt, Eat in Hc. cbn [app] in Hc.
    destruct (String.eqb_spec letterType LETTER_TYPES.OTHER) as [->|Hne];
      [congruence|].
    split; [exact Hne|].
    destruct (missingFields (Object props)) as [|f l] eqn:E; [congruence|].
    exists f. apply missingFields_iff. rewrite E. left. reflexivity.
  - intros H Hc. apply complaints_nil_iff in Hc as (Hlt & Hat & Hobj & Hreq).
    destruct H as [H|[H|[H|(Hne & f & Hin & He)]]]; try contradiction.
    exact (Hreq Hne f Hin He).
Qed.

Lemma fails_iff_complaints letterType authorType letterData :
  fails (generatePersonalizedLetter constructor letterType authorType letterData)
  ↔ complaints_of letterType authorType letterData ≠ [].
Proof.
  split.
  - intros [m Hm] Hc.
    pose proof Hc as Hc'.
    apply complaints_nil_iff in Hc' as (Hlt & _ & [props ->] & _).
    rewrite (generate_valid _ _ _ Hlt Hc) in Hm. discriminate.
  - intros Hc. eexists. apply generate_invalid, Hc.
Qed.

Lemma includes_join_elem sep parts c :
  In c parts → includes (join sep parts) c = true.
Proof. intros H. eapply includes_join; [exact H|apply includes_self]. Qed.

(** C5: [generate] fails exactly when the letter type is unknown, or the
    author type is unknown, or the data is missing or not an object, or,
    for a type other than [OTHER], a required field is empty or absent;
    the thrown message joins every complaint, and the complaint about
    required fields names each empty one.  With [PORTRAIT] and
    [{sponsorName: ""}] the message names all three required fields. *)
Theorem generate_fails_exactly_and_lists_all :
  ∀ (letterType authorType : string) (letterData : Value),
    let result :=
      generatePersonalizedLetter constructor letterType authorType letterData in
    let complaints := errors (validateInputs letterType authorType letterData) in
    (fails result
     ↔ ¬ known_letter_type letterType ∨ ¬ known_author_type authorType
       ∨ ¬ is_object letterData
       ∨ (letterType ≠ LETTER_TYPES.OTHER
          ∧ ∃ field, In field requiredFields ∧ empty_field letterData field))
    ∧ (fails result →
       result = Throw ("Template generation failed: " +:+ join ", " complaints)
       ∧ ∀ c, In c complaints →
           includes ("Template generation failed: " +:+ join ", " complaints) c
           = true)
    ∧ (¬ known_letter_type letterType →
       In ("Invalid letter type: " +:+ letterType) complaints)
    ∧ (¬ known_author_type authorType →
       In ("Invalid author type: " +:+ authorType) complaints)
    ∧ (¬ is_object letterData →
       In "Letter data is required and must be an object" complaints)
    ∧ (is_object letterData → letterType ≠ LETTER_TYPES.OTHER →
       ∀ field, In field requiredFields → empty_field letterData field →
         In ("Missing required fields: " +:+ join ", " (missingFields letterData))
            complaints
         ∧ In field (missingFields letterData))
    ∧ (∃ m,
         generatePersonalizedLetter constructor LETTER_TYPES.PORTRAIT authorType
           (Object {[ "sponsorName" := "" ]}) = Throw m
         ∧ includes m
             "Missing required fields: sponsorName, childKoreanName, childEnglishName"
           = true).
Proof.
  intros letterType authorType letterData result complaints.
  subst result complaints. rewrite validateInputs_errors.
  split; [rewrite fails_iff_complaints; apply complaints_cons_iff|].
  split.
  { intros Hf. apply fails_iff_complaints in Hf. split.
    - apply generate_invalid, Hf.
    - intros c Hc. apply includes_app_r, includes_join_elem, Hc. }
  unfold complaints_of.
  split.
  { intros H. apply unknown_letter_type_iff in H. rewrite H.
    apply in_app_iff. left. left. reflexivity. }
  split.
  { intros H. apply unknown_author_type_iff in H. rewrite H.
    apply in_app_iff. right. apply in_app_iff. left. left. reflexivity. }
  split.
  { intros H. apply in_app_iff. right. apply in_app_iff. right.
    destruct letterData; try (left; reflexivity).
    destruct H. eexists. reflexivity. }
  split.
  { intros [props ->] Hne field Hin He.
    assert (Hm : In field (missingFields (Object props)))
      by (apply missingFields_iff; auto).
    split; [|exact Hm].
    apply in_app_iff. right. apply in_app_iff. right.
    apply String.eqb_neq in Hne. rewrite Hne.
    destruct (missingFields (Object props)); [destruct Hm|]. left. reflexivity. }
  eexists. split.
  { apply generate_invalid. apply complaints_cons_iff.
    right; right; right. split; [discriminate|].
    exists "childKoreanName". split; [right; left; reflexivity|].
    left. reflexivity. }
  apply includes_app_r. apply includes_join_elem.
  unfold complaints_of. apply in_app_iff. right. apply in_app_iff. right.
  left. vm_compute. reflexivity.
Qed.

(** C2, as stated, fails: with [OTHER] an empty [sponsorName], and even
    three empty fields, give a letter, not a failure. *)
Lemma other_with_empty_fields_returns :
  generatePersonalizedLetter constructor LETTER_TYPES.OTHER AUTHOR_TYPES.CHILD
    (Object (<["sponsorName" := ""]> (<["childKoreanName" := "김민수"]>
            (<["childEnglishName" := "Minsu Kim"]> ∅))))
  = Return (join LF ["사랑하는  후원자님께,"; "";
                     "후원자님의 후원아동, 김민수(Minsu Kim) 올림"])
  ∧ generatePersonalizedLetter constructor LETTER_TYPES.OTHER AUTHOR_TYPES.CHILD
      (Object (<["sponsorName" := ""]> (<["childKoreanName" := ""]>
              (<["childEnglishName" := ""]> ∅))))
    = Return (join LF ["사랑하는  후원자님께,"; "";
                       "후원자님의 후원아동, () 올림"])
  ∧ ¬ fails (generatePersonalizedLetter constructor LETTER_TYPES.OTHER
               AUTHOR_TYPES.CHILD
               (Object (<["sponsorName" := ""]> (<["childKoreanName" := ""]>
                       (<["childEnglishName" := ""]> ∅))))).
Proof.
  split; [vm_compute; reflexivity|].
  split; [vm_compute; reflexivity|].
  intros [m Hm]. vm_compute in Hm. discriminate.
Qed.

(** C2 (amended): for [OTHER] no field is required.  With a known author
    type and an object as data, [generate] returns the short letter
    whatever the three fields hold; an empty field is interpolated as the
    empty text and an absent one as "undefined". *)
Theorem other_requires_no_field :
  ∀ (authorType : string) (props : gmap string string),
    known_author_type authorType →
    generatePersonalizedLetter constructor LETTER_TYPES.OTHER authorType
      (Object props)
    = Return (join LF
        (simple_lines (helperStatements constructor !! authorType)
           (field_text props "sponsorName")
           (field_text props "childKoreanName")
           (field_text props "childEnglishName"))).
Proof.
  intros authorType props Hat.
  rewrite generate_valid.
  - reflexivity.
  - right; right; reflexivity.
  - apply complaints_nil_iff. repeat split.
    + right; right; reflexivity.
    + exact Hat.
    + eexists; reflexivity.
    + intros H. congruence.
Qed.

Lemma other_requires_no_field_witness :
  known_author_type AUTHOR_TYPES.NAMED_HELPER
  ∧ generatePersonalizedLetter constructor LETTER_TYPES.OTHER
      AUTHOR_TYPES.NAMED_HELPER (Object (<["sponsorName" := ""]> ∅))
    = Return (join LF
        (simple_lines (helperStatements constructor !! AUTHOR_TYPES.NAMED_HELPER)
           (field_text (<["sponsorName" := ""]> ∅) "sponsorName")
           (field_text (<["sponsorName" := ""]> ∅) "childKoreanName")
           (field_text (<["sponsorName" := ""]> ∅) "childEnglishName"))).
Proof.
  split.
  - right; right; reflexivity.
  - apply (other_requires_no_field AUTHOR_TYPES.NAMED_HELPER
             (<["sponsorName" := ""]> ∅)).
    right; right; reflexivity.
Defined.

(** C8: for [OTHER], [CHILD] and the data of 홍길동, 김민수 and Minsu Kim
    the call returns a letter that holds neither attribution sentence (nor
    any asterisk) and whose last line is the signature line. *)
Theorem other_child_example :
  let out :=
    join LF ["사랑하는 홍길동 후원자님께,"; "";
             "후원자님의 후원아동, 김민수(Minsu Kim) 올림"] in
  generatePersonalizedLetter constructor LETTER_TYPES.OTHER AUTHOR_TYPES.CHILD
    (Object (<["sponsorName" := "홍길동"]> (<["childKoreanName" := "김민수"]>
            (<["childEnglishName" := "Minsu Kim"]> ∅))))
  = Return out
  ∧ includes out ANONYMOUS_HELPER_STATEMENT = false
  ∧ includes out NAMED_HELPER_STATEMENT = false
  ∧ count_char "*" out = 0
  ∧ last (split "010" out) = Some "후원자님의 후원아동, 김민수(Minsu Kim) 올림".
Proof. vm_compute. repeat split; reflexivity. Qed.

Lemma letter_lines_ext letterType authorType (props1 props2 : gmap string string) :
  (∀ field, In field requiredFields → props1 !! field = props2 !! field) →
  letter_lines letterType authorType props1
  = letter_lines letterType authorType props2.
Proof.
  intros H. unfold letter_lines, field_text.
  rewrite (H "sponsorName"), (H "childKoreanName"), (H "childEnglishName");
    [reflexivity|unfold requiredFields; auto with datatypes..].
Qed.

Lemma empty_field_ext (props1 props2 : gmap string string) field :
  props1 !! field = props2 !! field →
  empty_field (Object props1) field → empty_field (Object props2) field.
Proof. unfold empty_field. intros <-. auto. Qed.

(** C9: [generate] is a function of the letter type, the author type and
    the three fields of the data alone: on a valid input it returns, and a
    second call with the same types and the same three field values (the
    same object or another one) returns the identical text. *)
Theorem generate_deterministic :
  ∀ (letterType authorType : string) (props1 props2 : gmap string string),
    known_letter_type letterType →
    known_author_type authorType →
    (letterType ≠ LETTER_TYPES.OTHER →
     ∀ field, In field requiredFields → ¬ empty_field (Object props1) field) →
    (∀ field, In field requiredFields → props1 !! field = props2 !! field) →
    ∃ out,
      generatePersonalizedLetter constructor letterType authorType (Object props1)
      = Return out
      ∧ generatePersonalizedLetter constructor letterType authorType (Object props2)
        = Return out
      ∧ out = join LF (letter_lines letterType authorType props1).
Proof.
  intros letterType authorType props1 props2 Hlt Hat Hreq Hsame.
  exists (join LF (letter_lines letterType authorType props1)).
  split; [|split; [|reflexivity]].
  - apply generate_valid; [exact Hlt|].
    apply complaints_nil_iff.
    split; [exact Hlt|split; [exact Hat|split; [eexists; reflexivity|exact Hreq]]].
  - rewrite (letter_lines_ext _ _ _ _ Hsame).
    apply generate_valid; [exact Hlt|].
    apply complaints_nil_iff.
    split; [exact Hlt|split; [exact Hat|split; [eexists; reflexivity|]]].
    intros Hne field Hin He. apply (Hreq Hne field Hin).
    apply (empty_field_ext props2 props1); [symmetry; auto|exact He].
Qed.

Lemma generate_deterministic_witness :
  ∃ out,
    generatePersonalizedLetter constructor LETTER_TYPES.PORTRAIT
      AUTHOR_TYPES.ANONYMOUS_HELPER
      (Object (<["sponsorName" := "홍길동"]> (<["childKoreanName" := "김민수"]>
              (<["childEnglishName" := "Minsu Kim"]> ∅))))
    = Return out
    ∧ generatePersonalizedLetter constructor LETTER_TYPES.PORTRAIT
        AUTHOR_TYPES.ANONYMOUS_HELPER
        (Object (<["childEnglishName" := "Minsu Kim"]> (<["note" := "x"]>
                (<["childKoreanName" := "김민수"]>
                (<["sponsorName" := "홍길동"]> ∅)))))
      = Return out
    ∧ out = join LF (letter_lines LETTER_TYPES.PORTRAIT
                       AUTHOR_TYPES.ANONYMOUS_HELPER
                       (<["sponsorName" := "홍길동"]> (<["childKoreanName" := "김민수"]>
                       (<["childEnglishName" := "Minsu Kim"]> ∅)))).
Proof.
  apply (generate_deterministic LETTER_TYPES.PORTRAIT AUTHOR_TYPES.ANONYMOUS_HELPER).
  - right; left; reflexivity.
  - right; left; reflexivity.
  - intros _ field [<-|[<-|[<-|[]]]] [H|H]; vm_compute in H; discriminate.
  - intros field [<-|[<-|[<-|[]]]]; vm_compute; reflexivity.
Defined.

(** C10: required fields are checked for truthiness, not for trimmed
    emptiness.  For [HANDPRINT] and [PORTRAIT] a required field counts as
    missing exactly when it is absent or the empty string, and validation
    passes exactly when the three fields are present and non-empty; with
    such fields, be they white space only, [generate] returns the long
    letter with the values embedded as they are, the greeting line first. *)
Theorem whitespace_only_field_is_accepted :
  ∀ (letterType authorType : string) (props : gmap string string),
    letterType = LETTER_TYPES.HANDPRINT ∨ letterType = LETTER_TYPES.PORTRAIT →
    known_author_type authorType →
    (∀ field, In field requiredFields →
       (In field (missingFields (Object props))
        ↔ props !! field = None ∨ props !! field = Some ""))
    ∧ (isValid (validateInputs letterType authorType (Object props)) = true
       ↔ ∀ field, In field requiredFields →
           ∃ v, props !! field = Some v ∧ v ≠ "")
    ∧ ∀ s k e : string,
        letter_data props s k e →
        ∃ out,
          generatePersonalizedLetter constructor letterType authorType (Object props)
          = Return out
          ∧ out = join LF
              (full_lines
                 (if String.eqb letterType LETTER_TYPES.HANDPRINT
                  then "손도장" else "자화상")
                 (String.eqb letterType LETTER_TYPES.PORTRAIT)
                 (helperStatements constructor !! authorType) s k e)
          ∧ startsWith out ("사랑하는 " +:+ s +:+ " 후원자님께," +:+ LF) = true.
Proof.
  intros letterType authorType props Hlt Hat.
  assert (Hknown : known_letter_type letterType).
  { destruct Hlt as [->| ->]; [left|right; left]; reflexivity. }
  assert (Hne : letterType ≠ LETTER_TYPES.OTHER).
  { destruct Hlt as [->| ->]; discriminate. }
  split.
  { intros field Hin. rewrite missingFields_iff. cbn [empty_field]. tauto. }
  split.
  { rewrite validateInputs_isValid, complaints_nil_iff. split.
    - intros (_ & _ & _ & Hreq) field Hin. specialize (Hreq Hne field Hin).
      cbn [empty_field] in Hreq.
      destruct (props !! field) as [v|]; [|destruct Hreq; left; reflexivity].
      exists v. split; [reflexivity|]. intros ->. apply Hreq. right. reflexivity.
    - intros Hall.
      split; [exact Hknown|split; [exact Hat|split; [eexists; reflexivity|]]].
      intros _ field Hin [He|He]; destruct (Hall field Hin) as (v & Hv & Hv');
        congruence. }
  intros s k e Hdata.
  assert (Hc : complaints_of letterType authorType (Object props) = []).
  { apply complaints_nil_iff.
    split; [exact Hknown|split; [exact Hat|split; [eexists; reflexivity|]]].
    intros _. apply missingFields_nil_iff, (letter_data_complete _ _ _ _ Hdata). }
  eexists. split; [apply generate_valid; [exact Hknown|exact Hc]|].
  destruct (letter_data_text _ _ _ _ Hdata) as (Hs & Hk & He).
  unfold letter_lines. rewrite Hs, Hk, He.
  destruct Hlt as [->| ->]; type_tests; (split; [reflexivity|]);
    (destruct (helperStatements constructor !! authorType) as [h|];
       [destruct (String.eqb h "") eqn:Eh|]);
    unfold full_lines, pushHelper, push; cbn [app negb];
    try rewrite Eh; cbn [app negb];
    rewrite join_cons, <- !append_assoc; apply startsWith_app.
Qed.

Lemma whitespace_only_field_is_accepted_witness :
  let props : gmap string string :=
    <["sponsorName" := " "]> (<["childKoreanName" := "김민수"]>
    (<["childEnglishName" := "Minsu Kim"]> ∅)) in
  isValid (validateInputs LETTER_TYPES.HANDPRINT AUTHOR_TYPES.CHILD
             (Object props)) = true
  ∧ ∃ out,
      generatePersonalizedLetter constructor LETTER_TYPES.HANDPRINT
        AUTHOR_TYPES.CHILD (Object props)
      = Return out
      ∧ out = join LF
          (full_lines
             (if String.eqb LETTER_TYPES.HANDPRINT LETTER_TYPES.HANDPRINT
              then "손도장" else "자화상")
             (String.eqb LETTER_TYPES.HANDPRINT LETTER_TYPES.PORTRAIT)
             (helperStatements constructor !! AUTHOR_TYPES.CHILD)
             " " "김민수" "Minsu Kim")
      ∧ startsWith out ("사랑하는 " +:+ " " +:+ " 후원자님께," +:+ LF) = true.
Proof.
  intros props.
  destruct (whitespace_only_field_is_accepted LETTER_TYPES.HANDPRINT
              AUTHOR_TYPES.CHILD props (or_introl eq_refl) (or_introl eq_refl))
    as (_ & Hvalid & Hletter).
  split.
  - apply Hvalid. intros field [<-|[<-|[<-|[]]]]; eexists;
      (split; [vm_compute; reflexivity|discriminate]).
  - apply (Hletter " " "김민수" "Minsu Kim").
    repeat split; try (vm_compute; reflexivity); discriminate.
Defined.

(** *** Attribution sentences and the village question *)

Ltac lines_norm :=
  unfold letter_lines, full_lines, simple_lines, pushHelper, push, signatureLine;
  type_tests; cbn [app negb toString].

Ltac in_list := repeat first [left; reflexivity | right].

Lemma star_free_text props field :
  star_free props → In field requiredFields →
  count_char "*" (field_text props field) = 0.
Proof.
  intros H Hin. unfold field_text.
  destruct (props !! field) as [v|] eqn:E; [exact (H field v Hin E)|reflexivity].
Qed.

(** Data without an asterisk brings no attribution sentence: both start
    with one. *)
Lemma star_free_from_data letterType props sentence :
  star_free props → from_data letterType props (String "*" sentence) = 0.
Proof.
  intros Hfree.
  pose proof (star_free_text props "sponsorName" Hfree ltac:(in_list)) as Hs.
  pose proof (star_free_text props "childKoreanName" Hfree ltac:(in_list)) as Hk.
  pose proof (star_free_text props "childEnglishName" Hfree ltac:(in_list)) as He.
  assert (Hzero : ∀ line, count_char "*" line = 0 →
                    occurrences line (String "*" sentence) = 0).
  { intros line H. pose proof (occurrences_le_count_char "*" sentence line). lia. }
  unfold from_data, data_lines, signatureLine.
  destruct (String.eqb letterType LETTER_TYPES.OTHER);
    cbn [map list_sum fold_right toString];
    rewrite !Hzero; try reflexivity;
    rewrite !count_char_app, ?Hs, ?Hk, ?He; reflexivity.
Qed.

(** Evaluates the occurrences of a sentence in the lines that are fixed. *)
Ltac fixed_lines :=
  repeat match goal with
  | |- context [occurrences ?line ?p] =>
      lazymatch line with
      | context [field_text] => fail
      | _ => let r := eval vm_compute in (occurrences line p) in
             change (occurrences line p) with r
      end
  end.

(** The occurrences of an attribution sentence in a letter: the one of the
    helper line, if the author type puts it, and those of the lines that
    carry data. *)
Lemma sentence_count letterType authorType props sentence :
  known_letter_type letterType → known_author_type authorType →
  sentence = ANONYMOUS_HELPER_STATEMENT ∨ sentence = NAMED_HELPER_STATEMENT →
  occurrences (join LF (letter_lines letterType authorType props)) sentence
  = (if match helperStatements constructor !! authorType with
        | Some s => String.eqb s sentence
        | None => false
        end then 1 else 0)
    + from_data letterType props sentence.
Proof.
  intros Hlt Hat Hs. unfold LF.
  rewrite occurrences_join_lines;
    [|destruct Hs as [-> | ->]; discriminate
     |destruct Hs as [-> | ->]; reflexivity].
  unfold from_data, data_lines.
  destruct Hlt as [->|[->| ->]]; destruct Hat as [->|[->| ->]];
    destruct Hs as [-> | ->];
    unfold letter_lines;
    rewrite ?helper_CHILD, ?helper_ANONYMOUS_HELPER, ?helper_NAMED_HELPER;
    lines_norm; cbn [map list_sum fold_right];
    fixed_lines; lia.
Qed.

(** C6, as stated, fails: a data field can itself carry an attribution
    sentence.  With [CHILD] the letter then holds the sentence, and with
    [ANONYMOUS_HELPER] it holds the sentence twice. *)
Lemma attribution_sentence_from_data :
  let props : gmap string string :=
    <["sponsorName" := ANONYMOUS_HELPER_STATEMENT]>
    (<["childKoreanName" := "김민수"]> (<["childEnglishName" := "Minsu Kim"]> ∅)) in
  (∃ out,
     generatePersonalizedLetter constructor LETTER_TYPES.HANDPRINT
       AUTHOR_TYPES.CHILD (Object props) = Return out
     ∧ includes out ANONYMOUS_HELPER_STATEMENT = true)
  ∧ (∃ out,
       generatePersonalizedLetter constructor LETTER_TYPES.HANDPRINT
         AUTHOR_TYPES.ANONYMOUS_HELPER (Object props) = Return out
       ∧ occurrences out ANONYMOUS_HELPER_STATEMENT = 2).
Proof.
  intros props. split; eexists; (split; [vm_compute; reflexivity|]);
    vm_compute; reflexivity.
Qed.

(** Keeping the sentences out of each field is not enough: two fields can
    build the named-helper sentence around the bracket that the template
    puts between them. *)
Lemma named_sentence_across_fields :
  let k := "*이 편지를 작성하는데 " in
  let e := "자원봉사자/엄마/아빠/할머니/고모 등)인 한글독음(영문병기)가 도와주셨어요." in
  let props : gmap string string :=
    <["sponsorName" := "홍길동"]> (<["childKoreanName" := k]>
    (<["childEnglishName" := e]> ∅)) in
  includes k NAMED_HELPER_STATEMENT = false
  ∧ includes e NAMED_HELPER_STATEMENT = false
  ∧ ∃ out,
      generatePersonalizedLetter constructor LETTER_TYPES.OTHER
        AUTHOR_TYPES.CHILD (Object props) = Return out
      ∧ includes out NAMED_HELPER_STATEMENT = true.
Proof.
  intros k e props. split; [vm_compute; reflexivity|].
  split; [vm_compute; reflexivity|].
  eexists. split; vm_compute; reflexivity.
Qed.

(** C6 (amended): for every valid input the letter holds the
    anonymous-helper sentence once more than the lines that carry data
    (greeting, introduction, signature) hold it when the author type is
    [ANONYMOUS_HELPER], and exactly as often as these lines otherwise;
    likewise the named-helper sentence with [NAMED_HELPER].  So when these
    lines hold neither sentence, the letter holds the anonymous-helper
    sentence exactly once for [ANONYMOUS_HELPER], the named-helper sentence
    exactly once for [NAMED_HELPER], and neither sentence for [CHILD]. *)
Theorem attribution_sentence_once :
  ∀ (letterType authorType : string) (props : gmap string string),
    known_letter_type letterType →
    known_author_type authorType →
    (letterType ≠ LETTER_TYPES.OTHER →
     ∀ field, In field requiredFields → ¬ empty_field (Object props) field) →
    ∃ out,
      generatePersonalizedLetter constructor letterType authorType (Object props)
      = Return out
      ∧ occurrences out ANONYMOUS_HELPER_STATEMENT
        = (if String.eqb authorType AUTHOR_TYPES.ANONYMOUS_HELPER then 1 else 0)
          + from_data letterType props ANONYMOUS_HELPER_STATEMENT
      ∧ occurrences out NAMED_HELPER_STATEMENT
        = (if String.eqb authorType AUTHOR_TYPES.NAMED_HELPER then 1 else 0)
          + from_data letterType props NAMED_HELPER_STATEMENT
      ∧ (from_data letterType props ANONYMOUS_HELPER_STATEMENT = 0 →
         from_data letterType props NAMED_HELPER_STATEMENT = 0 →
         (authorType = AUTHOR_TYPES.ANONYMOUS_HELPER →
          occurrences out ANONYMOUS_HELPER_STATEMENT = 1
          ∧ includes out NAMED_HELPER_STATEMENT = false)
         ∧ (authorType = AUTHOR_TYPES.NAMED_HELPER →
            occurrences out NAMED_HELPER_STATEMENT = 1
            ∧ includes out ANONYMOUS_HELPER_STATEMENT = false)
         ∧ (authorType = AUTHOR_TYPES.CHILD →
            includes out ANONYMOUS_HELPER_STATEMENT = false
            ∧ includes out NAMED_HELPER_STATEMENT = false)).
Proof.
  intros letterType authorType props Hlt Hat Hreq.
  exists (join LF (letter_lines letterType authorType props)).
  split.
  { apply generate_valid; [exact Hlt|]. apply complaints_nil_iff.
    split; [exact Hlt|split; [exact Hat|split; [eexists; reflexivity|exact Hreq]]]. }
  assert (Ha : occurrences (join LF (letter_lines letterType authorType props))
                 ANONYMOUS_HELPER_STATEMENT
               = (if String.eqb authorType AUTHOR_TYPES.ANONYMOUS_HELPER
                  then 1 else 0)
                 + from_data letterType props ANONYMOUS_HELPER_STATEMENT).
  { rewrite (sentence_count letterType authorType props _ Hlt Hat (or_introl eq_refl)).
    destruct Hat as [->|[->| ->]];
      rewrite ?helper_CHILD, ?helper_ANONYMOUS_HELPER, ?helper_NAMED_HELPER;
      reflexivity. }
  assert (Hn : occurrences (join LF (letter_lines letterType authorType props))
                 NAMED_HELPER_STATEMENT
               = (if String.eqb authorType AUTHOR_TYPES.NAMED_HELPER
                  then 1 else 0)
                 + from_data letterType props NAMED_HELPER_STATEMENT).
  { rewrite (sentence_count letterType authorType props _ Hlt Hat (or_intror eq_refl)).
    destruct Hat as [->|[->| ->]];
      rewrite ?helper_CHILD, ?helper_ANONYMOUS_HELPER, ?helper_NAMED_HELPER;
      reflexivity. }
  split; [exact Ha|]. split; [exact Hn|].
  intros Da Dn. rewrite !includes_false_iff, Ha, Hn, Da, Dn.
  split; [|split]; intros ->; split; reflexivity.
Qed.

Lemma attribution_sentence_once_witness :
  ∃ out,
    generatePersonalizedLetter constructor LETTER_TYPES.PORTRAIT
      AUTHOR_TYPES.NAMED_HELPER
      (Object (<["sponsorName" := "홍*동"]> (<["childKoreanName" := "김*수"]>
              (<["childEnglishName" := "M* Kim"]> ∅))))
    = Return out
    ∧ occurrences out ANONYMOUS_HELPER_STATEMENT = 0
    ∧ occurrences out NAMED_HELPER_STATEMENT = 1.
Proof.
  destruct (attribution_sentence_once LETTER_TYPES.PORTRAIT
              AUTHOR_TYPES.NAMED_HELPER
              (<["sponsorName" := "홍*동"]> (<["childKoreanName" := "김*수"]>
              (<["childEnglishName" := "M* Kim"]> ∅))))
    as (out & Hout & Ha & Hn & _).
  - right; left; reflexivity.
  - right; right; reflexivity.
  - intros _ field [<-|[<-|[<-|[]]]] [H|H]; vm_compute in H; discriminate.
  - exists out. split; [exact Hout|]. split.
    + rewrite Ha. vm_compute. reflexivity.
    + rewrite Hn. vm_compute. reflexivity.
Defined.

Lemma greeting_without_question s :
  includes s VILLAGE_QUESTION = false →
  occurrences ("사랑하는 " +:+ s +:+ " 후원자님께,") VILLAGE_QUESTION = 0.
Proof.
  intros Hs.
  rewrite occurrences_skip by reflexivity.
  rewrite occurrences_hole_end by (assumption || reflexivity).
  reflexivity.
Qed.

Lemma introduction_without_question k e :
  includes k VILLAGE_QUESTION = false →
  includes e VILLAGE_QUESTION = false →
  occurrences ("제 이름은 " +:+ k +:+ "(" +:+ e +:+ ")이에요. 우리 서로 알아가요!")
    VILLAGE_QUESTION = 0.
Proof.
  intros Hk He.
  rewrite occurrences_skip by reflexivity.
  rewrite occurrences_hole_fixed by (assumption || reflexivity).
  rewrite occurrences_skip by reflexivity.
  rewrite occurrences_hole_end by (assumption || reflexivity).
  reflexivity.
Qed.

Lemma signature_without_question k e :
  includes k VILLAGE_QUESTION = false →
  includes e VILLAGE_QUESTION = false →
  occurrences ("후원자님의 후원아동, " +:+ k +:+ "(" +:+ e +:+ ") 올림")
    VILLAGE_QUESTION = 0.
Proof.
  intros Hk He.
  rewrite occurrences_skip by reflexivity.
  rewrite occurrences_hole_fixed by (assumption || reflexivity).
  rewrite occurrences_skip by reflexivity.
  rewrite occurrences_hole_end by (assumption || reflexivity).
  reflexivity.
Qed.

(** A [HANDPRINT] letter has the village question only where the data
    brings it. *)
Lemma handprint_without_question authorType props s k e :
  known_author_type authorType →
  letter_data props s k e →
  includes s VILLAGE_QUESTION = false →
  includes k VILLAGE_QUESTION = false →
  includes e VILLAGE_QUESTION = false →
  occurrences
    (join LF (letter_lines LETTER_TYPES.HANDPRINT authorType props))
    VILLAGE_QUESTION = 0.
Proof.
  intros Hat Hdata Hs Hk He.
  destruct (letter_data_text _ _ _ _ Hdata) as (Ts & Tk & Te).
  unfold LF. rewrite occurrences_join_lines by (discriminate || reflexivity).
  unfold letter_lines. rewrite Ts, Tk, Te.
  destruct Hat as [->|[->| ->]];
    rewrite ?helper_CHILD, ?helper_ANONYMOUS_HELPER, ?helper_NAMED_HELPER;
    lines_norm; cbn [map list_sum fold_right];
    rewrite (greeting_without_question s Hs),
      (introduction_without_question k e Hk He),
      (signature_without_question k e Hk He);
    reflexivity.
Qed.

Lemma handprint_question_from_data authorType props s k e :
  letter_data props s k e →
  includes s VILLAGE_QUESTION = true ∨ includes k VILLAGE_QUESTION = true
  ∨ includes e VILLAGE_QUESTION = true →
  includes
    (join LF (letter_lines LETTER_TYPES.HANDPRINT authorType props))
    VILLAGE_QUESTION = true.
Proof.
  intros Hdata H.
  destruct (letter_data_text _ _ _ _ Hdata) as (Ts & Tk & Te).
  unfold letter_lines. rewrite Ts, Tk, Te. type_tests.
  destruct H as [H|[H|H]].
  - apply (includes_join _ _ ("사랑하는 " +:+ s +:+ " 후원자님께,")).
    + unfold full_lines, pushHelper, push.
      destruct (helperStatements constructor !! authorType) as [h|];
        [destruct (negb (String.eqb h ""))|]; cbn [app]; in_list.
    + apply includes_app_r, includes_app_l, H.
  - apply (includes_join _ _
             ("제 이름은 " +:+ k +:+ "(" +:+ e +:+ ")이에요. 우리 서로 알아가요!")).
    + unfold full_lines, pushHelper, push.
      destruct (helperStatements constructor !! authorType) as [h|];
        [destruct (negb (String.eqb h ""))|]; cbn [app]; in_list.
    + apply includes_app_r, includes_app_l, H.
  - apply (includes_join _ _
             ("제 이름은 " +:+ k +:+ "(" +:+ e +:+ ")이에요. 우리 서로 알아가요!")).
    + unfold full_lines, pushHelper, push.
      destruct (helperStatements constructor !! authorType) as [h|];
        [destruct (negb (String.eqb h ""))|]; cbn [app]; in_list.
    + apply includes_app_r, includes_app_r, includes_app_r, includes_app_l, H.
Qed.

Lemma portrait_with_question authorType props :
  includes
    (join LF (letter_lines LETTER_TYPES.PORTRAIT authorType props))
    VILLAGE_QUESTION = true.
Proof.
  apply (includes_join _ _ VILLAGE_QUESTION); [|apply includes_self].
  unfold letter_lines. type_tests. unfold full_lines, pushHelper, push.
  destruct (helperStatements constructor !! authorType) as [h|];
    [destruct (negb (String.eqb h ""))|]; cbn [app]; in_list.
Qed.

(** C7, as stated, fails for [HANDPRINT]: a data field can bring the
    village question, as a line of its own, into the letter. *)
Lemma handprint_question_counterexample :
  ∃ out,
    generatePersonalizedLetter constructor LETTER_TYPES.HANDPRINT
      AUTHOR_TYPES.CHILD
      (Object (<["sponsorName" := "홍길동" +:+ LF +:+ VILLAGE_QUESTION +:+ LF +:+ "님"]>
              (<["childKoreanName" := "김민수"]>
              (<["childEnglishName" := "Minsu Kim"]> ∅))))
    = Return out
    ∧ includes out VILLAGE_QUESTION = true
    ∧ In VILLAGE_QUESTION (split "010" out).
Proof.
  eexists. split; [vm_compute; reflexivity|].
  split; [vm_compute; reflexivity|].
  vm_compute. in_list.
Qed.

(** C7 (amended): for every valid input with [PORTRAIT] the letter holds
    the village question.  For every valid input with [HANDPRINT] the
    letter holds it exactly when one of the three data fields does; so it
    never does when no field holds it. *)
Theorem village_question_by_type :
  ∀ (authorType : string) (props : gmap string string) (s k e : string),
    known_author_type authorType →
    letter_data props s k e →
    (∃ out,
       generatePersonalizedLetter constructor LETTER_TYPES.PORTRAIT authorType
         (Object props) = Return out
       ∧ includes out VILLAGE_QUESTION = true)
    ∧ (∃ out,
         generatePersonalizedLetter constructor LETTER_TYPES.HANDPRINT authorType
           (Object props) = Return out
         ∧ (includes out VILLAGE_QUESTION = true
            ↔ includes s VILLAGE_QUESTION = true
              ∨ includes k VILLAGE_QUESTION = true
              ∨ includes e VILLAGE_QUESTION = true)).
Proof.
  intros authorType props s k e Hat Hdata.
  assert (Hc : ∀ letterType,
             letterType = LETTER_TYPES.HANDPRINT ∨ letterType = LETTER_TYPES.PORTRAIT →
             complaints_of letterType authorType (Object props) = []).
  { intros letterType Hlt. apply complaints_nil_iff.
    split; [destruct Hlt as [->| ->]; [left|right; left]; reflexivity|].
    split; [exact Hat|]. split; [eexists; reflexivity|].
    intros _. apply missingFields_nil_iff, (letter_data_complete _ _ _ _ Hdata). }
  split.
  - eexists. split.
    + apply generate_valid; [right; left; reflexivity|apply Hc; right; reflexivity].
    + apply portrait_with_question.
  - eexists. split.
    + apply generate_valid; [left; reflexivity|apply Hc; left; reflexivity].
    + split.
      * intros Hin.
        destruct (includes s VILLAGE_QUESTION) eqn:Es; [left; reflexivity|].
        destruct (includes k VILLAGE_QUESTION) eqn:Ek; [right; left; reflexivity|].
        destruct (includes e VILLAGE_QUESTION) eqn:Ee; [right; right; reflexivity|].
        apply includes_true_iff in Hin.
        rewrite (handprint_without_question _ _ _ _ _ Hat Hdata Es Ek Ee) in Hin.
        lia.
      * apply handprint_question_from_data, Hdata.
Qed.

Lemma village_question_by_type_witness :
  let props : gmap string string :=
    <["sponsorName" := "홍길동"]> (<["childKoreanName" := "김민수"]>
    (<["childEnglishName" := "Minsu Kim"]> ∅)) in
  (∃ out,
     generatePersonalizedLetter constructor LETTER_TYPES.PORTRAIT
       AUTHOR_TYPES.ANONYMOUS_HELPER (Object props) = Return out
     ∧ includes out VILLAGE_QUESTION = true)
  ∧ (∃ out,
       generatePersonalizedLetter constructor LETTER_TYPES.HANDPRINT
         AUTHOR_TYPES.ANONYMOUS_HELPER (Object props) = Return out
       ∧ (includes out VILLAGE_QUESTION = true
          ↔ includes "홍길동" VILLAGE_QUESTION = true
            ∨ includes "김민수" VILLAGE_QUESTION = true
            ∨ includes "Minsu Kim" VILLAGE_QUESTION = true)).
Proof.
  intros props.
  apply (village_question_by_type AUTHOR_TYPES.ANONYMOUS_HELPER props
           "홍길동" "김민수" "Minsu Kim").
  - right; left; reflexivity.
  - repeat split; try (vm_compute; reflexivity); discriminate.
Defined.

End GeneratorClaims.

(** ** The retry controller *)

Module AutoRatingClaims.
Import AutoRating.

Lemma clickRating_absent dom attemptNumber w :
  dom (now w) (clicked w) = None →
  clickRating dom attemptNumber w
  = (false, {| now := now w; clicked := clicked w;
               trace := (trace w ++ [Attempt attemptNumber (now w)])%list |}).
Proof.
  intros H. unfold clickRating, bind, emit, safeQuerySelector. cbn.
  rewrite H. reflexivity.
Qed.

Lemma clickRating_present dom attemptNumber w style :
  dom (now w) (clicked w) = Some style →
  isVisible (Some style) = true →
  clickRating dom attemptNumber w
  = (match dom (now w + 500) (S (clicked w)) with
     | Some _ => true
     | None => false
     end,
     {| now := now w + 500; clicked := S (clicked w);
        trace := (trace w ++ [Attempt attemptNumber (now w); Click (now w);
                              Delay 500])%list |}).
Proof.
  intros H Hv.
  unfold clickRating, bind, emit, safeQuerySelector, click, delay,
    validateRatingClick, ret.
  cbn. rewrite H, Hv. cbn. rewrite <- !app_assoc. reflexivity.
Qed.

Lemma retryLoop_never_found this dom :
  (∀ time clicks, dom time clicks = None) →
  ∀ remaining attempt w,
    attempt + remaining = S (maxRetries this) →
    retryLoop this dom remaining attempt w
    = (false,
       {| now := now w + (remaining - 1) * retryDelay this;
          clicked := clicked w;
          trace := (trace w
                    ++ failedTrace (retryDelay this) remaining attempt (now w))%list |}).
Proof.
  intros Hdom. induction remaining as [|remaining IH]; intros attempt w Hsum.
  - cbn. rewrite Nat.add_0_r, app_nil_r. destruct w; reflexivity.
  - cbn [retryLoop]. unfold bind at 1.
    rewrite clickRating_absent by apply Hdom.
    destruct remaining as [|remaining].
    + assert ((attempt <? maxRetries this) = false) as -> by (apply Nat.ltb_ge; lia).
      cbn. rewrite Nat.add_0_r. reflexivity.
    + assert ((attempt <? maxRetries this) = true) as -> by (apply Nat.ltb_lt; lia).
      unfold bind, delay. cbn [now clicked trace].
      rewrite IH by lia. cbn [now clicked trace failedTrace].
      f_equal. f_equal; [lia|].
      rewrite <- !app_assoc. reflexivity.
Qed.

Lemma attempts_failedTrace d remaining attempt time :
  attempts (failedTrace d remaining attempt time)
  = map (fun k => Attempt (attempt + k) (time + k * d)) (seq 0 remaining).
Proof.
  revert attempt time.
  induction remaining as [|remaining IH]; intros attempt time; [reflexivity|].
  destruct remaining as [|remaining].
  - cbn. rewrite !Nat.add_0_r. reflexivity.
  - change (failedTrace d (S (S remaining)) attempt time)
      with (Attempt attempt time :: Delay d
              :: failedTrace d (S remaining) (S attempt) (time + d)).
    unfold attempts in *. cbn [List.filter]. rewrite IH.
    change (seq 0 (S (S remaining))) with (0 :: seq 1 (S remaining)).
    rewrite <- (seq_shift (S remaining) 0).
    rewrite map_cons, List.map_map, !Nat.add_0_r. f_equal.
    apply map_ext. intros k. f_equal; lia.
Qed.

Lemma retryDelays_failedTrace d remaining attempt time :
  retryDelays (failedTrace d remaining attempt time)
  = repeat (Delay d) (remaining - 1).
Proof.
  revert attempt time.
  induction remaining as [|remaining IH]; intros attempt time; [reflexivity|].
  destruct remaining as [|remaining]; [reflexivity|].
  change (failedTrace d (S (S remaining)) attempt time)
    with (Attempt attempt time :: Delay d
            :: failedTrace d (S remaining) (S attempt) (time + d)).
  unfold retryDelays in *. cbn [List.filter]. rewrite IH.
  cbn. rewrite Nat.sub_0_r. reflexivity.
Qed.

(** C4, as stated, fails in its second half: a control that is found and
    visible on the first attempt but gone when it is looked up again after
    the click makes that attempt fail, and the controller goes on to
    [maxRetries + 1] attempts and reports failure. *)
Lemma visible_then_removed_exhausts :
  let style := {| display := "inline"; visibility := "visible"; opacity := "1" |} in
  let dom : Dom := fun _ clicks => if clicks =? 0 then Some style else None in
  let start := {| now := 0; clicked := 0; trace := [] |} in
  isVisible (dom (now start) (clicked start)) = true
  ∧ fst (clickRatingWithRetry constructor dom start) = false
  ∧ trace (snd (clickRatingWithRetry constructor dom start))
    = [Attempt 0 0; Click 0; Delay 500; Delay 2000;
       Attempt 1 2500; Delay 2000; Attempt 2 4500]
  ∧ length (attempts (trace (snd (clickRatingWithRetry constructor dom start)))) = 3.
Proof. vm_compute. repeat split; reflexivity. Qed.

(** C4 (amended): if the rating control is never found, exactly
    [maxRetries + 1] attempts occur, attempt [k] at [k] retry delays after
    the first with one retry delay between consecutive attempts and none
    after the last, and the controller returns [false].  If the control is
    found and visible on the first attempt and still present when it is
    looked up again after the 500 ms settle delay, exactly one attempt
    occurs and the controller returns [true] with no retry delay. *)
Theorem retry_controller_attempts :
  ∀ (this : AutoRatingManager) (dom : Dom) (w : World),
    ((∀ time clicks, dom time clicks = None) →
     ∃ events,
       clickRatingWithRetry this dom w
       = (false,
          {| now := now w + maxRetries this * retryDelay this;
             clicked := clicked w;
             trace := (trace w ++ events)%list |})
       ∧ events = failedTrace (retryDelay this) (S (maxRetries this)) 0 (now w)
       ∧ attempts events
         = map (fun k => Attempt k (now w + k * retryDelay this))
               (seq 0 (S (maxRetries this)))
       ∧ length (attempts events) = maxRetries this + 1
       ∧ retryDelays events = repeat (Delay (retryDelay this)) (maxRetries this))
    ∧ (∀ style style',
         dom (now w) (clicked w) = Some style →
         isVisible (Some style) = true →
         dom (now w + 500) (S (clicked w)) = Some style' →
         ∃ events,
           clickRatingWithRetry this dom w
           = (true,
              {| now := now w + 500; clicked := S (clicked w);
                 trace := (trace w ++ events)%list |})
           ∧ events = [Attempt 0 (now w); Click (now w); Delay 500]
           ∧ length (attempts events) = 1
           ∧ retryDelays events = [Delay 500]).
Proof.
  intros this dom w. split.
  - intros Hdom. eexists. split; [|split; [reflexivity|]].
    + unfold clickRatingWithRetry.
      rewrite (retryLoop_never_found this dom Hdom) by lia.
      cbn [Nat.sub]. rewrite Nat.sub_0_r. reflexivity.
    + rewrite attempts_failedTrace, retryDelays_failedTrace.
      split; [reflexivity|]. split.
      * rewrite length_map, length_seq. lia.
      * cbn [Nat.sub]. rewrite Nat.sub_0_r. reflexivity.
  - intros style style' Hfound Hvisible Hstill. eexists.
    split; [|split; [reflexivity|split; reflexivity]].
    unfold clickRatingWithRetry. cbn [retryLoop]. unfold bind at 1.
    rewrite (clickRating_present dom 0 w style Hfound Hvisible), Hstill.
    reflexivity.
Qed.

Lemma retry_controller_attempts_witness :
  let style := {| display := "inline"; visibility := "visible"; opacity := "1" |} in
  let start := {| now := 1000; clicked := 0; trace := [] |} in
  (∃ events,
     clickRatingWithRetry constructor (fun _ _ => None) start
     = (false, {| now := 1000 + 2 * 2000; clicked := 0;
                  trace := ([] ++ events)%list |})
     ∧ events = failedTrace 2000 3 0 1000
     ∧ attempts events
       = map (fun k => Attempt k (1000 + k * 2000)) (seq 0 3)
     ∧ length (attempts events) = 2 + 1
     ∧ retryDelays events = repeat (Delay 2000) 2)
  ∧ (∃ events,
       clickRatingWithRetry constructor (fun _ _ => Some style) start
       = (true, {| now := 1000 + 500; clicked := 1;
                   trace := ([] ++ events)%list |})
       ∧ events = [Attempt 0 1000; Click 1000; Delay 500]
       ∧ length (attempts events) = 1
       ∧ retryDelays events = [Delay 500]).
Proof.
  intros style start. split.
  - apply (proj1 (retry_controller_attempts constructor (fun _ _ => None) start)).
    reflexivity.
  - apply (proj2 (retry_controller_attempts constructor
                    (fun _ _ => Some style) start) style style);
      reflexivity.
Defined.

End AutoRatingClaims.

(** ** The tab-close watcher *)

Module ContentClaims.
Import Js Content.

Lemma sentBy_app_one by_ p t m :
  List.filter
    (fun m => match fst m, by_ with
              | UrlTrigger, UrlTrigger
              | UnloadTrigger, UnloadTrigger
              | ObserverTrigger, ObserverTrigger
              | AlertTrigger, AlertTrigger => true
              | _, _ => false
              end)
    (outbox p ++ [(t, m)])
  = (sentBy by_ p
     ++ match t, by_ with
        | UrlTrigger, UrlTrigger
        | UnloadTrigger, UnloadTrigger
        | ObserverTrigger, ObserverTrigger
        | AlertTrigger, AlertTrigger => [(t, m)]
        | _, _ => []
        end)%list.
Proof.
  unfold sentBy. rewrite List.filter_app. cbn [List.filter fst].
  destruct t, by_; reflexivity.
Qed.

Lemma sentBy_sendCloseTab by_ t o p :
  sentBy by_ (sendCloseTab t o p)
  = (sentBy by_ p
     ++ match t, by_ with
        | UrlTrigger, UrlTrigger
        | UnloadTrigger, UnloadTrigger
        | ObserverTrigger, ObserverTrigger
        | AlertTrigger, AlertTrigger => [(t, closeTab o)]
        | _, _ => []
        end)%list.
Proof. apply sentBy_app_one. Qed.

Lemma checkUrl_observer p :
  sentBy ObserverTrigger (checkUrlAndCloseIfNeeded p) = sentBy ObserverTrigger p
  ∧ observing (checkUrlAndCloseIfNeeded p) = observing p.
Proof.
  unfold checkUrlAndCloseIfNeeded. destruct (String.eqb _ _); [|auto].
  rewrite sentBy_sendCloseTab, app_nil_r. auto.
Qed.

(** What a step does to the observer: it stays as it is, or it was
    connected, sends its one message and disconnects. *)
Lemma step_observer p e :
  (sentBy ObserverTrigger (step p e) = sentBy ObserverTrigger p
   ∧ observing (step p e) = observing p)
  ∨ (observing p = true ∧ observing (step p e) = false
     ∧ sentBy ObserverTrigger (step p e)
       = (sentBy ObserverTrigger p ++ [(ObserverTrigger, closeTab None)])%list).
Proof.
  destruct e as [url| | | | | |text| |message]; cbn [step].
  - left. split; reflexivity.
  - left. apply checkUrl_observer.
  - left. apply checkUrl_observer.
  - left. unfold pollTick. destruct (negb _); [|auto].
    destruct (checkUrl_observer
                {| href := href p; lastUrl := href p; opener := opener p;
                   bodyText := bodyText p; observing := observing p;
                   alertWrapped := alertWrapped p;
                   outbox := outbox p |}) as [-> ->].
    split; reflexivity.
  - left. apply checkUrl_observer.
  - left. rewrite sentBy_sendCloseTab, app_nil_r. split; reflexivity.
  - destruct (observing p) eqn:Eo; [|left; split; reflexivity].
    unfold observerCallback. cbn [bodyText].
    destruct text as [innerText|]; [|left; split; reflexivity].
    destruct (includes innerText SUCCESS_TEXT);
      [|left; split; reflexivity].
    right. split; [reflexivity|]. split; [reflexivity|].
    cbn [outbox sendCloseTab]. unfold sentBy at 1. cbn [outbox].
    rewrite List.filter_app. reflexivity.
  - left. split; reflexivity.
  - left. destruct (alertWrapped p); [|auto].
    destruct message as [| |b|text|props]; auto.
    destruct (includes text ALERT_TEXT); [|auto].
    rewrite sentBy_sendCloseTab, app_nil_r. split; reflexivity.
Qed.

Lemma step_observer_once p e : observer_once p → observer_once (step p e).
Proof.
  intros [Hc Hl]. unfold observer_once.
  destruct (step_observer p e) as [[-> ->]|(Ho & -> & ->)].
  - auto.
  - split; [discriminate|]. rewrite (Hc Ho). cbn. lia.
Qed.

Lemma run_observer_once events : ∀ p, observer_once p → observer_once (run p events).
Proof.
  unfold run. induction events as [|e events IH]; intros p Hp; [exact Hp|].
  cbn [fold_left]. apply IH, step_observer_once, Hp.
Qed.

Lemma run_disconnected events :
  ∀ p, observing p = false →
    observing (run p events) = false
    ∧ sentBy ObserverTrigger (run p events) = sentBy ObserverTrigger p.
Proof.
  unfold run. induction events as [|e events IH]; intros p Hp; [auto|].
  cbn [fold_left].
  destruct (step_observer p e) as [[Hs Ho]|(Ho & _)]; [|congruence].
  rewrite <- Hs. apply IH. congruence.
Qed.

(** C1, as stated, fails: the URL detector sends a close request at each
    event that finds the success URL, and the unload detector sends one
    after the observer has sent its own. *)
Lemma close_request_sent_twice :
  outbox (run (load "https://letter.worldvision.or.kr/mypage/letterlist/letterview.do"
                 None (Some ""))
            [Navigate TARGET_URL; Popstate; Hashchange])
  = [(UrlTrigger, closeTab None); (UrlTrigger, closeTab None)]
  ∧ outbox (run (load "https://letter.worldvision.or.kr/mypage/letterlist/letterview.do"
                   None (Some ""))
              [Mutation (Some SUCCESS_TEXT); BeforeUnload])
    = [(ObserverTrigger, closeTab None); (UnloadTrigger, closeTab None)].
Proof.
  split; vm_compute; reflexivity.
Qed.

(** C1 (amended): the DOM-mutation detector sends at most one close
    request per page load; once it has sent it the observer is
    disconnected and no later event makes it send again.  The URL detector
    and the unload detector are not suppressed: every navigation event on
    the success URL and every unload signal sends one more request. *)
Theorem observer_fires_at_most_once :
  ∀ (url : string) (op : option Opener) (body : option string)
    (events more : list Event),
    let p := run (load url op body) events in
    length (sentBy ObserverTrigger p) ≤ 1
    ∧ (sentBy ObserverTrigger p ≠ [] →
       observing p = false
       ∧ sentBy ObserverTrigger (run p more) = sentBy ObserverTrigger p)
    ∧ (href p = TARGET_URL →
       outbox (step p Popstate)
       = (outbox p ++ [(UrlTrigger, closeTab (openerTabIdOf (opener p)))])%list
       ∧ outbox (step p Hashchange)
         = (outbox p ++ [(UrlTrigger, closeTab (openerTabIdOf (opener p)))])%list)
    ∧ outbox (step p BeforeUnload)
      = (outbox p ++ [(UnloadTrigger, closeTab None)])%list.
Proof.
  intros url op body events more p.
  assert (Hinv : observer_once p).
  { apply run_observer_once. split; [reflexivity|cbn; lia]. }
  destruct Hinv as [Hc Hl].
  split; [exact Hl|]. split.
  - intros Hsent.
    assert (Ho : observing p = false).
    { destruct (observing p); [destruct (Hsent (Hc eq_refl))|reflexivity]. }
    split; [exact Ho|]. apply run_disconnected, Ho.
  - split; [|reflexivity].
    intros Hhref. cbn [step]. unfold checkUrlAndCloseIfNeeded.
    rewrite Hhref, String.eqb_refl. split; reflexivity.
Qed.

Lemma observer_fires_at_most_once_witness :
  let p :=
    run (load "https://letter.worldvision.or.kr/mypage/letterlist/letterview.do"
           None (Some ""))
      [Mutation (Some SUCCESS_TEXT); Navigate TARGET_URL] in
  length (sentBy ObserverTrigger p) ≤ 1
  ∧ (observing p = false
     ∧ sentBy ObserverTrigger (run p [Mutation (Some SUCCESS_TEXT); PollTick])
       = sentBy ObserverTrigger p)
  ∧ (outbox (step p Popstate)
     = (outbox p ++ [(UrlTrigger, closeTab (openerTabIdOf (opener p)))])%list
     ∧ outbox (step p Hashchange)
       = (outbox p ++ [(UrlTrigger, closeTab (openerTabIdOf (opener p)))])%list)
  ∧ outbox (step p BeforeUnload)
    = (outbox p ++ [(UnloadTrigger, closeTab None)])%list.
Proof.
  intros p.
  destruct (observer_fires_at_most_once
              "https://letter.worldvision.or.kr/mypage/letterlist/letterview.do"
              None (Some "")
              [Mutation (Some SUCCESS_TEXT); Navigate TARGET_URL]
              [Mutation (Some SUCCESS_TEXT); PollTick]) as (H1 & H2 & H3 & H4).
  split; [exact H1|]. split; [apply H2; discriminate|].
  split; [apply H3; reflexivity|exact H4].
Defined.

End ContentClaims.

(** ** The background handler *)

Module BackgroundClaims.
Import Js Background Spec.

(** What the check does guarantee: a URL without one of the two texts is
    refused and no tab is made. *)
Lemma handleOpenInNewTab_rejects_without_texts u b :
  includes u "letter.worldvision.or.kr" && includes u "letterview.do" = false →
  ∃ error, handleOpenInNewTab (Plain (Str u)) b = (b, Failed error).
Proof.
  intros H. unfold handleOpenInNewTab, openInNewTab, isTargetDomain.
  cbn [truthyJson truthy]. destruct (negb (String.eqb u "")); cbn [negb Js.bind].
  - rewrite H. cbn [negb]. eexists. reflexivity.
  - eexists. reflexivity.
Qed.

(** C3: the claim is not met by the code.  The check looks for the domain
    name anywhere in the URL, so a URL on another host that carries the
    two texts in its path and query passes: the tab is created on that
    host and a success response is sent. *)
Theorem open_in_new_tab_honours_foreign_host :
  let u := "https://evil.example/letterview.do?next=letter.worldvision.or.kr" in
  let b := {| tabs := []; nextTabId := 7; createRejects := fun _ => None |} in
  host_of u = Some "evil.example"
  ∧ ¬ on_allowed_domain u
  ∧ isTargetDomain (Plain (Str u)) = Return true
  ∧ handleOpenInNewTab (Plain (Str u)) b
    = ({| tabs := [{| id := 7; url := Plain (Str u); active := true |}];
          nextTabId := 8;
          createRejects := createRejects b |},
       Created 7 "Tab created successfully")
  ∧ success (snd (handleOpenInNewTab (Plain (Str u)) b)) = true.
Proof.
  intros u b.
  split; [vm_compute; reflexivity|].
  split; [unfold on_allowed_domain; vm_compute; discriminate|].
  split; [vm_compute; reflexivity|].
  split; vm_compute; reflexivity.
Qed.

End BackgroundClaims.

(** ** The retry controller on an arbitrary page *)

Module AutoRatingRuns.
Import AutoRating AutoRatingTrace.

Lemma clickRating_eq dom attempt w :
  clickRating dom attempt w
  = if isVisible (dom (now w) (clicked w))
    then (match dom (now w + 500) (S (clicked w)) with
          | Some _ => true
          | None => false
          end, settled attempt w)
    else (false, skipped attempt w).
Proof.
  destruct (dom (now w) (clicked w)) as [style|] eqn:E.
  - destruct (isVisible (Some style)) eqn:V.
    + apply (AutoRatingClaims.clickRating_present dom attempt w style E V).
    + unfold clickRating, bind, emit, safeQuerySelector. cbn.
      rewrite E, V. reflexivity.
  - apply (AutoRatingClaims.clickRating_absent dom attempt w E).
Qed.

Lemma retryLoop_S this dom remaining attempt w :
  retryLoop this dom (S remaining) attempt w
  = if isVisible (dom (now w) (clicked w))
    then match dom (now w + 500) (S (clicked w)) with
         | Some _ => (true, settled attempt w)
         | None =>
             retryLoop this dom remaining (S attempt)
               (paused this attempt (settled attempt w))
         end
    else retryLoop this dom remaining (S attempt)
           (paused this attempt (skipped attempt w)).
Proof.
  cbn [retryLoop]. unfold bind at 1. rewrite clickRating_eq.
  destruct (isVisible (dom (now w) (clicked w)));
    [destruct (dom (now w + 500) (S (clicked w)))|];
    try reflexivity;
    unfold paused; destruct (attempt <? maxRetries this); reflexivity.
Qed.

Lemma attemptNumbers_app a b :
  attemptNumbers (a ++ b) = (attemptNumbers a ++ attemptNumbers b)%list.
Proof. apply flat_map_app. Qed.

Lemma clickCount_app a b : clickCount (a ++ b) = clickCount a + clickCount b.
Proof. unfold clickCount. rewrite List.filter_app, length_app. reflexivity. Qed.

Lemma elapsed_app a b : elapsed (a ++ b) = elapsed a + elapsed b.
Proof.
  unfold elapsed. rewrite map_app. apply list_sum_app.
Qed.

Lemma clicksVisible_app dom c a b :
  clicksVisible dom c (a ++ b)
  = clicksVisible dom c a && clicksVisible dom (c + clickCount a) b.
Proof.
  revert c. induction a as [|e a IH]; intros c.
  - cbn. rewrite Nat.add_0_r. reflexivity.
  - destruct e as [k t|t|ms]; cbn [app clicksVisible]; rewrite IH.
    + reflexivity.
    + rewrite <- andb_assoc. f_equal. f_equal.
      unfold clickCount. cbn. f_equal. lia.
    + reflexivity.
Qed.

Lemma retryLoop_facts this dom :
  ∀ remaining attempt w,
    attempt + remaining = S (maxRetries this) →
    ∃ events n,
      LoopFacts this dom remaining attempt w
        (fst (retryLoop this dom remaining attempt w))
        (snd (retryLoop this dom remaining attempt w)) events n.
Proof.
  induction remaining as [|remaining IH]; intros attempt w Hsum.
  - exists [], 0. split; cbn; try rewrite app_nil_r; auto; try lia; discriminate.
  - rewrite retryLoop_S.
    destruct (isVisible (dom (now w) (clicked w))) eqn:V.
    + destruct (dom (now w + 500) (S (clicked w))) as [style|] eqn:P.
      * exists [Attempt attempt (now w); Click (now w); Delay 500], 1.
        split; cbn; try rewrite V; auto; try lia; try discriminate.
        intros _. rewrite P. discriminate.
      * destruct remaining as [|remaining].
        { exists [Attempt attempt (now w); Click (now w); Delay 500], 1.
          unfold paused.
          assert ((attempt <? maxRetries this) = false) as ->
              by (apply Nat.ltb_ge; lia).
          split; cbn; try rewrite V; auto; try lia; discriminate. }
        destruct (IH (S attempt) (paused this attempt (settled attempt w))
                    ltac:(lia)) as (events & n & F).
        unfold paused in *.
        assert ((attempt <? maxRetries this) = true) as E
            by (apply Nat.ltb_lt; lia).
        rewrite E in *. destruct F. cbn [now clicked trace settled] in *.
        exists ([Attempt attempt (now w); Click (now w); Delay 500;
                 Delay (retryDelay this)] ++ events)%list, (S n).
        split.
        -- rewrite facts_trace0, <- !app_assoc. reflexivity.
        -- rewrite attemptNumbers_app, facts_numbers0. reflexivity.
        -- lia.
        -- lia.
        -- intros H. rewrite (facts_exhausted0 H). reflexivity.
        -- rewrite clicksVisible_app. cbn. rewrite V.
           replace (S (clicked w + 0)) with (S (clicked w)) by lia.
           rewrite Nat.add_1_r. exact facts_visible0.
        -- rewrite clickCount_app, facts_clicked0. cbn. lia.
        -- rewrite clickCount_app. cbn.
           assert (0 < n) by (apply facts_lower0; lia). lia.
        -- rewrite elapsed_app, facts_now0. cbn. lia.
        -- rewrite elapsed_app. cbn.
           assert (0 < n) by (apply facts_lower0; lia).
           destruct n as [|n]; [lia|]. cbn [Nat.sub] in *.
           rewrite Nat.sub_0_r in *. nia.
        -- exact facts_present0.
    + destruct remaining as [|remaining].
      { exists [Attempt attempt (now w)], 1. unfold paused.
        assert ((attempt <? maxRetries this) = false) as ->
            by (apply Nat.ltb_ge; lia).
        split; cbn; auto; try lia; discriminate. }
      destruct (IH (S attempt) (paused this attempt (skipped attempt w))
                  ltac:(lia)) as (events & n & F).
      unfold paused in *.
      assert ((attempt <? maxRetries this) = true) as E
          by (apply Nat.ltb_lt; lia).
      rewrite E in *. destruct F. cbn [now clicked trace skipped] in *.
      exists ([Attempt attempt (now w); Delay (retryDelay this)] ++ events)%list,
        (S n).
      split.
      * rewrite facts_trace0, <- !app_assoc. reflexivity.
      * rewrite attemptNumbers_app, facts_numbers0. reflexivity.
      * lia.
      * lia.
      * intros H. rewrite (facts_exhausted0 H). reflexivity.
      * rewrite clicksVisible_app. cbn. rewrite Nat.add_0_r. exact facts_visible0.
      * rewrite clickCount_app, facts_clicked0. cbn. lia.
      * rewrite clickCount_app. cbn. lia.
      * rewrite elapsed_app, facts_now0. cbn. lia.
      * rewrite elapsed_app. cbn.
        assert (0 < n) by (apply facts_lower0; lia).
        destruct n as [|n]; [lia|]. cbn [Nat.sub] in *.
        rewrite Nat.sub_0_r in *. nia.
      * exact facts_present0.
Qed.

Lemma retryLoop_hidden this dom :
  (∀ time clicks, isVisible (dom time clicks) = false) →
  ∀ remaining attempt w,
    attempt + remaining = S (maxRetries this) →
    retryLoop this dom remaining attempt w
    = (false,
       {| now := now w + (remaining - 1) * retryDelay this;
          clicked := clicked w;
          trace := (trace w
                    ++ failedTrace (retryDelay this) remaining attempt (now w))%list |}).
Proof.
  intros Hdom. induction remaining as [|remaining IH]; intros attempt w Hsum.
  - cbn. rewrite Nat.add_0_r, app_nil_r. destruct w; reflexivity.
  - rewrite retryLoop_S, Hdom. unfold paused.
    destruct remaining as [|remaining].
    + assert ((attempt <? maxRetries this) = false) as ->
          by (apply Nat.ltb_ge; lia).
      cbn. rewrite Nat.add_0_r. reflexivity.
    + assert ((attempt <? maxRetries this) = true) as ->
          by (apply Nat.ltb_lt; lia).
      rewrite IH by lia. cbn [now clicked trace skipped failedTrace].
      f_equal. f_equal; [lia|]. rewrite <- !app_assoc. reflexivity.
Qed.

Lemma retryLoop_waiting this dom :
  ∀ k remaining attempt w,
    k < remaining →
    attempt + remaining = S (maxRetries this) →
    (∀ i, i < k →
       isVisible (dom (now w + i * retryDelay this) (clicked w)) = false) →
    retryLoop this dom remaining attempt w
    = retryLoop this dom (remaining - k) (attempt + k)
        {| now := now w + k * retryDelay this; clicked := clicked w;
           trace := (trace w
                     ++ waitingTrace (retryDelay this) k attempt (now w))%list |}.
Proof.
  induction k as [|k IH]; intros remaining attempt w Hk Hsum Hdom.
  - cbn. rewrite Nat.sub_0_r, !Nat.add_0_r, app_nil_r. destruct w; reflexivity.
  - destruct remaining as [|remaining]; [lia|].
    rewrite retryLoop_S.
    pose proof (Hdom 0 ltac:(lia)) as H0.
    rewrite Nat.mul_0_l, Nat.add_0_r in H0. rewrite H0. unfold paused.
    assert ((attempt <? maxRetries this) = true) as ->
        by (apply Nat.ltb_lt; lia).
    rewrite IH; [|lia|lia|].
    + cbn [now clicked trace skipped waitingTrace Nat.sub].
      f_equal; [lia|]. f_equal; [lia|].
      rewrite <- !app_assoc. reflexivity.
    + intros i Hi. cbn [now clicked skipped].
      rewrite <- Nat.add_assoc. apply (Hdom (S i)). lia.
Qed.

Lemma oneClickPerAttempt_allowed tr :
  oneClickPerAttempt false tr = true → oneClickPerAttempt true tr = true.
Proof.
  induction tr as [|[k t|t|ms] tr IH]; cbn [oneClickPerAttempt andb]; auto.
  discriminate.
Qed.

(** A click needs an attempt before it. *)
Lemma click_after_attempt allowed tr pre t post :
  oneClickPerAttempt allowed tr = true →
  tr = (pre ++ Click t :: post)%list →
  allowed = true ∨ attemptNumbers pre ≠ [].
Proof.
  revert allowed tr. induction pre as [|e pre IH]; intros allowed tr H ->.
  - cbn [app oneClickPerAttempt] in H. apply andb_true_iff in H as [H _]. auto.
  - destruct e as [k t'|t'|ms]; cbn [app oneClickPerAttempt] in H.
    + right. discriminate.
    + apply andb_true_iff in H as [H _]. auto.
    + destruct (IH allowed _ H eq_refl) as [Ha|Hp]; [auto|right; exact Hp].
Qed.

(** Two clicks have an attempt between them. *)
Lemma clicks_in_different_attempts allowed tr pre t1 mid t2 post :
  oneClickPerAttempt allowed tr = true →
  tr = (pre ++ Click t1 :: mid ++ Click t2 :: post)%list →
  attemptNumbers mid ≠ [].
Proof.
  revert allowed tr. induction pre as [|e pre IH]; intros allowed tr H ->.
  - cbn [app oneClickPerAttempt] in H. apply andb_true_iff in H as [_ H].
    destruct (click_after_attempt false _ mid t2 post H eq_refl) as [Ha|Hm];
      [discriminate|exact Hm].
  - destruct e as [k t'|t'|ms]; cbn [app oneClickPerAttempt] in H.
    + apply (IH true _ H eq_refl).
    + apply andb_true_iff in H as [_ H]. apply (IH false _ H eq_refl).
    + apply (IH allowed _ H eq_refl).
Qed.

Lemma retryLoop_once this dom :
  ∀ remaining attempt w,
    ∃ events,
      trace (snd (retryLoop this dom remaining attempt w))
      = (trace w ++ events)%list
      ∧ oneClickPerAttempt false events = true.
Proof.
  induction remaining as [|remaining IH]; intros attempt w.
  - exists []. cbn. rewrite app_nil_r. auto.
  - rewrite retryLoop_S.
    destruct (isVisible (dom (now w) (clicked w))).
    + destruct (dom (now w + 500) (S (clicked w))).
      * exists [Attempt attempt (now w); Click (now w); Delay 500].
        split; reflexivity.
      * destruct (IH (S attempt) (paused this attempt (settled attempt w)))
          as (events & Ht & Ho).
        unfold paused in *. destruct (attempt <? maxRetries this);
          eexists; (split; [rewrite Ht; cbn [trace settled];
                            rewrite <- ?app_assoc; reflexivity|]);
          cbn [app oneClickPerAttempt andb]; exact Ho.
    + destruct (IH (S attempt) (paused this attempt (skipped attempt w)))
        as (events & Ht & Ho).
      unfold paused in *. destruct (attempt <? maxRetries this);
        eexists; (split; [rewrite Ht; cbn [trace skipped];
                          rewrite <- ?app_assoc; reflexivity|]);
        cbn [app oneClickPerAttempt];
        apply oneClickPerAttempt_allowed, Ho.
Qed.

(** X1: whatever the page does, the controller makes at least one and at
    most [maxRetries + 1] attempts, numbered from 0 without gap; it returns
    [false] only after all [maxRetries + 1], and it clicks at most once per
    attempt: every click comes after the start of an attempt, and between
    two clicks a new attempt has started. *)
Theorem attempts_numbered_and_bounded :
  ∀ (this : AutoRatingManager) (dom : Dom) (w : World),
    ∃ events n,
      trace (snd (clickRatingWithRetry this dom w)) = (trace w ++ events)%list
      ∧ attemptNumbers events = seq 0 n
      ∧ 1 ≤ n ≤ maxRetries this + 1
      ∧ (fst (clickRatingWithRetry this dom w) = false → n = maxRetries this + 1)
      ∧ clickCount events ≤ n
      ∧ (∀ pre t post,
           events = (pre ++ Click t :: post)%list → attemptNumbers pre ≠ [])
      ∧ (∀ pre t1 mid t2 post,
           events = (pre ++ Click t1 :: mid ++ Click t2 :: post)%list →
           attemptNumbers mid ≠ []).
Proof.
  intros this dom w. unfold clickRatingWithRetry.
  destruct (retryLoop_facts this dom (S (maxRetries this)) 0 w eq_refl)
    as (events & n & F).
  destruct (retryLoop_once this dom (S (maxRetries this)) 0 w)
    as (events' & Ht & Honce).
  exists events, n. destruct F.
  assert (events' = events) as ->
    by (apply (app_inv_head (trace w)); congruence).
  split; [assumption|]. split; [assumption|].
  split; [split; [apply facts_lower0|]; lia|].
  split; [intros H; rewrite (facts_exhausted0 H); lia|].
  split; [assumption|]. split.
  - intros pre t post E.
    destruct (click_after_attempt false events pre t post Honce E);
      [discriminate|assumption].
  - intros pre t1 mid t2 post E.
    apply (clicks_in_different_attempts false events pre t1 mid t2 post Honce E).
Qed.

(** X2: the controller never clicks a control that is absent or hidden:
    every click of a run hits a control that the page shows (display not
    'none', visibility not 'hidden', opacity not '0') at the time of the
    click, and the page is clicked exactly as often as the trace says. *)
Theorem clicks_hit_visible_control :
  ∀ (this : AutoRatingManager) (dom : Dom) (w : World),
    ∃ events,
      trace (snd (clickRatingWithRetry this dom w)) = (trace w ++ events)%list
      ∧ clicksVisible dom (clicked w) events = true
      ∧ clicked (snd (clickRatingWithRetry this dom w))
        = clicked w + clickCount events.
Proof.
  intros this dom w. unfold clickRatingWithRetry.
  destruct (retryLoop_facts this dom (S (maxRetries this)) 0 w eq_refl)
    as (events & n & F).
  exists events. destruct F. auto.
Qed.

(** X3: [handleAutoRating] first waits the initial delay and does nothing
    else before; the whole run takes the initial delay plus at most
    [maxRetries + 1] settle delays of 500 ms and [maxRetries] retry delays;
    and when it returns [true] the control is present on the page at that
    moment. *)
Theorem handleAutoRating_duration :
  ∀ (this : AutoRatingManager) (dom : Dom) (w : World),
    ∃ events,
      trace (snd (handleAutoRating this dom w))
      = (trace w ++ Delay (initialDelay this) :: events)%list
      ∧ now (snd (handleAutoRating this dom w))
        = now w + initialDelay this + elapsed events
      ∧ elapsed events
        ≤ (maxRetries this + 1) * 500 + maxRetries this * retryDelay this
      ∧ (fst (handleAutoRating this dom w) = true →
         dom (now (snd (handleAutoRating this dom w)))
             (clicked (snd (handleAutoRating this dom w))) ≠ None).
Proof.
  intros this dom w. unfold handleAutoRating, bind, delay, clickRatingWithRetry.
  cbv iota.
  destruct (retryLoop_facts this dom (S (maxRetries this)) 0
              {| now := now w + initialDelay this; clicked := clicked w;
                 trace := (trace w ++ [Delay (initialDelay this)])%list |}
              eq_refl) as (events & n & F).
  exists events. destruct F. cbn [now clicked trace] in *.
  split; [rewrite facts_trace0, <- app_assoc; reflexivity|].
  split; [assumption|]. split; [|assumption].
  assert (0 < n) by (apply facts_lower0; lia).
  destruct n as [|n]; [lia|]. cbn [Nat.sub] in *. rewrite Nat.sub_0_r in *.
  nia.
Qed.

Lemma clickCount_failedTrace d n a t : clickCount (failedTrace d n a t) = 0.
Proof.
  revert a t. induction n as [|n IH]; intros a t; [reflexivity|].
  destruct n as [|n]; [reflexivity|].
  change (failedTrace d (S (S n)) a t)
    with (Attempt a t :: Delay d :: failedTrace d (S n) (S a) (t + d)).
  unfold clickCount in *. cbn [List.filter]. apply IH.
Qed.

(** X4: a control that is present but not visible is treated exactly like
    an absent one: if the page never shows the control, the controller makes
    [maxRetries + 1] attempts a retry delay apart, never clicks, and returns
    [false]. *)
Theorem hidden_control_exhausts_retries :
  ∀ (this : AutoRatingManager) (dom : Dom) (w : World),
    (∀ time clicks, isVisible (dom time clicks) = false) →
    clickRatingWithRetry this dom w
    = (false,
       {| now := now w + maxRetries this * retryDelay this;
          clicked := clicked w;
          trace := (trace w
                    ++ failedTrace (retryDelay this) (S (maxRetries this)) 0
                         (now w))%list |})
    ∧ clickCount (failedTrace (retryDelay this) (S (maxRetries this)) 0 (now w))
      = 0.
Proof.
  intros this dom w Hdom. split.
  - unfold clickRatingWithRetry. rewrite (retryLoop_hidden this dom Hdom) by lia.
    cbn [Nat.sub]. rewrite Nat.sub_0_r. reflexivity.
  - apply clickCount_failedTrace.
Qed.

Lemma hidden_control_exhausts_retries_witness :
  let hidden := {| display := "none"; visibility := "visible"; opacity := "1" |} in
  let start := {| now := 1000; clicked := 0; trace := [] |} in
  clickRatingWithRetry constructor (fun _ _ => Some hidden) start
  = (false,
     {| now := 1000 + 2 * 2000; clicked := 0;
        trace := ([] ++ failedTrace 2000 3 0 1000)%list |})
  ∧ clickCount (failedTrace 2000 3 0 1000) = 0.
Proof.
  intros hidden start.
  apply (hidden_control_exhausts_retries constructor (fun _ _ => Some hidden) start).
  reflexivity.
Defined.

(** X5: a control that shows up late is clicked once it shows: if the
    first [k] attempts ([k <= maxRetries]) find no visible control, and the
    attempt after them finds one that is still present after the settle
    delay, the controller makes [k + 1] attempts, a retry delay apart,
    clicks once and returns [true]. *)
Theorem control_appearing_later_is_clicked :
  ∀ (this : AutoRatingManager) (dom : Dom) (w : World) (k : nat),
    k ≤ maxRetries this →
    (∀ i, i < k →
       isVisible (dom (now w + i * retryDelay this) (clicked w)) = false) →
    isVisible (dom (now w + k * retryDelay this) (clicked w)) = true →
    dom (now w + k * retryDelay this + 500) (S (clicked w)) ≠ None →
    clickRatingWithRetry this dom w
    = (true,
       {| now := now w + k * retryDelay this + 500;
          clicked := S (clicked w);
          trace := (trace w
                    ++ waitingTrace (retryDelay this) k 0 (now w)
                    ++ [Attempt k (now w + k * retryDelay this);
                        Click (now w + k * retryDelay this);
                        Delay 500])%list |}).
Proof.
  intros this dom w k Hk Hwait Hshow Hstay. unfold clickRatingWithRetry.
  rewrite (retryLoop_waiting this dom k) by (lia || assumption).
  destruct (S (maxRetries this) - k) as [|remaining] eqn:E; [lia|].
  rewrite retryLoop_S. cbn [now clicked trace]. rewrite Hshow.
  destruct (dom (now w + k * retryDelay this + 500) (S (clicked w)));
    [|contradiction].
  unfold settled. cbn [now clicked trace]. rewrite <- !app_assoc. reflexivity.
Qed.

Lemma control_appearing_later_is_clicked_witness :
  let shown := {| display := "inline"; visibility := "visible"; opacity := "1" |} in
  let dom : Dom := fun time _ => if time <? 3000 then None else Some shown in
  let start := {| now := 1000; clicked := 0; trace := [] |} in
  clickRatingWithRetry constructor dom start
  = (true,
     {| now := 1000 + 1 * 2000 + 500; clicked := 1;
        trace := ([] ++ waitingTrace 2000 1 0 1000
                  ++ [Attempt 1 (1000 + 1 * 2000); Click (1000 + 1 * 2000);
                      Delay 500])%list |}).
Proof.
  intros shown dom start.
  apply (control_appearing_later_is_clicked constructor dom start 1).
  - cbn. lia.
  - intros i Hi. destruct i as [|i]; [reflexivity|lia].
  - reflexivity.
  - discriminate.
Defined.

End AutoRatingRuns.

(** ** The tab-close watcher: what it sends and when *)

Module ContentRuns.
Import Js Content.

Lemma outbox_checkUrl_other p :
  href p ≠ TARGET_URL → checkUrlAndCloseIfNeeded p = p.
Proof.
  intros H. unfold checkUrlAndCloseIfNeeded.
  apply String.eqb_neq in H. rewrite H. reflexivity.
Qed.

(** X6: the script is silent without a trigger: on a page load that never
    is at the success URL, sees no unload signal, no mutation that leaves
    the success text in the body and no call of [alert] with a text that
    holds "번역완료", no close request is sent by any of the four senders,
    whatever else happens. *)
Theorem watcher_silent_without_trigger :
  ∀ (url : string) (op : option Opener) (body : option string)
    (events : list Event),
    url ≠ TARGET_URL →
    Forall (fun e =>
              e ≠ BeforeUnload ∧ e ≠ Navigate TARGET_URL
              ∧ (∀ text, e = Mutation (Some text) →
                   includes text SUCCESS_TEXT = false)
              ∧ (∀ text, e = AlertCalled (Str text) →
                   includes text ALERT_TEXT = false)) events →
    outbox (run (load url op body) events) = [].
Proof.
  intros url op body events Hurl Hev.
  assert (Hgen : ∀ p, href p ≠ TARGET_URL → outbox p = [] →
                      outbox (run p events) = []).
  { clear url op body Hurl. unfold run.
    induction Hev as [|e events (Hu & Hn & Hm & Ha) _ IH]; intros p Hp Ho;
      [exact Ho|].
    cbn [fold_left].
    destruct e as [u| | | | | |text| |message]; cbn [step].
    - apply IH; [|exact Ho]. cbn. intros ->. apply Hn. reflexivity.
    - rewrite outbox_checkUrl_other by exact Hp. apply IH; assumption.
    - rewrite outbox_checkUrl_other by exact Hp. apply IH; assumption.
    - unfold pollTick. destruct (negb _); [|apply IH; assumption].
      rewrite outbox_checkUrl_other by exact Hp. apply IH; assumption.
    - rewrite outbox_checkUrl_other by exact Hp. apply IH; assumption.
    - destruct Hu. reflexivity.
    - assert (Hcb : observerCallback
                      {| href := href p; lastUrl := lastUrl p; opener := opener p;
                         bodyText := text; observing := observing p;
                         alertWrapped := alertWrapped p;
                         outbox := outbox p |}
                    = {| href := href p; lastUrl := lastUrl p; opener := opener p;
                         bodyText := text; observing := observing p;
                         alertWrapped := alertWrapped p;
                         outbox := outbox p |}).
      { unfold observerCallback. cbn [bodyText].
        destruct text as [t|]; [|reflexivity].
        rewrite (Hm t eq_refl). reflexivity. }
      destruct (observing p); [rewrite Hcb|]; apply IH; assumption.
    - apply IH; assumption.
    - assert (Hsame : (if alertWrapped p
                       then match message with
                            | Str text =>
                                if includes text ALERT_TEXT
                                then sendCloseTab AlertTrigger None p
                                else p
                            | _ => p
                            end
                       else p) = p).
      { destruct (alertWrapped p); [|reflexivity].
        destruct message as [| |b|text|props]; try reflexivity.
        rewrite (Ha text eq_refl). reflexivity. }
      rewrite Hsame. apply IH; assumption. }
  apply Hgen; [exact Hurl|reflexivity].
Qed.

Lemma watcher_silent_without_trigger_witness :
  outbox (run (load "https://letter.worldvision.or.kr/mypage/letterlist/letterview.do"
                 None (Some SUCCESS_TEXT))
            [PollTick; Navigate "https://letter.worldvision.or.kr/";
             PollTick; Popstate; Mutation (Some "번역완료"); SubmitTimer;
             InstallAlertWrapper; AlertCalled (Str "번역 저장");
             AlertCalled Null; Mutation None; Hashchange])
  = [].
Proof.
  apply watcher_silent_without_trigger.
  - discriminate.
  - repeat constructor; try discriminate;
      intros text [= <-]; vm_compute; reflexivity.
Defined.

(** X7: the poller reacts to a change of location only, and once: after a
    tick its remembered URL is the current one, a second tick without a
    navigation in between changes nothing, and a page that was loaded at
    the success URL is never reported by polling alone. *)
Theorem poller_reports_a_change_once :
  ∀ (p : Page) (url : string) (op : option Opener) (body : option string)
    (n : nat),
    lastUrl (step p PollTick) = href p
    ∧ step (step p PollTick) PollTick = step p PollTick
    ∧ outbox (run (load url op body) (repeat PollTick n)) = [].
Proof.
  intros p url op body n.
  assert (Hlast : lastUrl (step p PollTick) = href p
                  ∧ href (step p PollTick) = href p).
  { cbn [step]. unfold pollTick, checkUrlAndCloseIfNeeded.
    destruct (String.eqb_spec (href p) (lastUrl p)) as [E|E]; cbn [negb].
    - auto.
    - cbn [href]. destruct (String.eqb (href p) TARGET_URL); cbn; auto. }
  destruct Hlast as [Hl Hh].
  split; [exact Hl|]. split.
  - generalize dependent (step p PollTick). intros q Hl Hh.
    cbn [step]. unfold pollTick. rewrite Hl, Hh, String.eqb_refl. reflexivity.
  - assert (Hrun : ∀ q, href q = lastUrl q →
                     run q (repeat PollTick n) = q).
    { induction n as [|n IH]; intros q Hq; [reflexivity|].
      unfold run in *. cbn [repeat fold_left step]. unfold pollTick.
      rewrite Hq, String.eqb_refl. cbn [negb]. apply IH, Hq. }
    rewrite Hrun; reflexivity.
Qed.

Lemma openerTabIdOf_some op n :
  openerTabIdOf op = Some n →
  n ≠ 0 ∧ ∃ o, op = Some o ∧ hasChromeTabs o = true ∧ tabId o = Some n.
Proof.
  unfold openerTabIdOf. destruct op as [o|]; [|discriminate].
  destruct (hasChromeTabs o) eqn:E; [|discriminate].
  destruct (tabId o) as [[|k]|] eqn:T; try discriminate.
  intros [= <-]. split; [discriminate|]. exists o. auto.
Qed.

Lemma step_payload op p e :
  opener p = op →
  Forall (fun m => snd m = closeTab None
                   ∨ (fst m = UrlTrigger ∧ snd m = closeTab (openerTabIdOf op)))
         (outbox p) →
  opener (step p e) = op
  ∧ Forall (fun m => snd m = closeTab None
                     ∨ (fst m = UrlTrigger ∧ snd m = closeTab (openerTabIdOf op)))
           (outbox (step p e)).
Proof.
  intros Hop Hall.
  assert (Hcheck : ∀ q, opener q = op →
            Forall (fun m => snd m = closeTab None
                     ∨ (fst m = UrlTrigger ∧ snd m = closeTab (openerTabIdOf op)))
                   (outbox q) →
            opener (checkUrlAndCloseIfNeeded q) = op
            ∧ Forall (fun m => snd m = closeTab None
                     ∨ (fst m = UrlTrigger ∧ snd m = closeTab (openerTabIdOf op)))
                   (outbox (checkUrlAndCloseIfNeeded q))).
  { intros q Hq Hf. unfold checkUrlAndCloseIfNeeded.
    destruct (String.eqb _ _); [|auto].
    cbn [sendCloseTab opener outbox]. split; [exact Hq|].
    apply Forall_app. split; [exact Hf|].
    constructor; [|constructor]. right. rewrite Hq. auto. }
  destruct e as [u| | | | | |text| |message]; cbn [step].
  - cbn. auto.
  - apply Hcheck; assumption.
  - apply Hcheck; assumption.
  - unfold pollTick. destruct (negb _); [|auto]. apply Hcheck; assumption.
  - apply Hcheck; assumption.
  - cbn [sendCloseTab opener outbox]. split; [exact Hop|].
    apply Forall_app. split; [exact Hall|].
    constructor; [|constructor]. left. reflexivity.
  - destruct (observing p); [|cbn; auto].
    unfold observerCallback. cbn [bodyText].
    destruct text as [t|]; [|cbn; auto].
    destruct (includes t SUCCESS_TEXT); [|cbn; auto].
    cbn [sendCloseTab opener outbox]. split; [exact Hop|].
    apply Forall_app. split; [exact Hall|].
    constructor; [|constructor]. left. reflexivity.
  - cbn. auto.
  - destruct (alertWrapped p); [|auto].
    destruct message as [| |b|t|props]; auto.
    destruct (includes t ALERT_TEXT); [|auto].
    cbn [sendCloseTab opener outbox]. split; [exact Hop|].
    apply Forall_app. split; [exact Hall|].
    constructor; [|constructor]. left. reflexivity.
Qed.

(** X8: what a close request carries: the unload detector, the observer
    and the [alert] wrapper send no opener id, the URL detector sends the
    opener's tab id, and only when the page has an opener that exposes
    [chrome.tabs] and a tab id other than 0; every other case sends
    [null]. *)
Theorem close_request_payload :
  ∀ (url : string) (op : option Opener) (body : option string)
    (events : list Event),
    Forall (fun m =>
              match m with
              | (UrlTrigger, closeTab (Some n)) =>
                  n ≠ 0
                  ∧ ∃ o, op = Some o ∧ hasChromeTabs o = true ∧ tabId o = Some n
              | (_, closeTab (Some _)) => False
              | (_, closeTab None) => True
              end)
           (outbox (run (load url op body) events)).
Proof.
  intros url op body events.
  assert (Hgen : ∀ p, opener p = op →
            Forall (fun m => snd m = closeTab None
                     ∨ (fst m = UrlTrigger ∧ snd m = closeTab (openerTabIdOf op)))
                   (outbox p) →
            Forall (fun m => snd m = closeTab None
                     ∨ (fst m = UrlTrigger ∧ snd m = closeTab (openerTabIdOf op)))
                   (outbox (run p events))).
  { unfold run. induction events as [|e events IH]; intros p Hp Hf; [exact Hf|].
    cbn [fold_left]. destruct (step_payload op p e Hp Hf) as [Ho Hs].
    apply IH; assumption. }
  specialize (Hgen (load url op body) eq_refl (List.Forall_nil _)).
  eapply List.Forall_impl; [|exact Hgen].
  intros [t [id]] H. cbn [fst snd] in H. destruct H as [H|[Ht H]].
  - injection H as ->. destruct t; exact I.
  - subst t. injection H as ->.
    destruct (openerTabIdOf op) as [n|] eqn:E; [|exact I].
    apply openerTabIdOf_some, E.
Qed.

Lemma run_app p events more : run p (events ++ more) = run (run p events) more.
Proof. unfold run. apply fold_left_app. Qed.

(** Once installed, the wrapper stays. *)
Lemma alertWrapped_stays events :
  ∀ p, alertWrapped p = true → alertWrapped (run p events) = true.
Proof.
  unfold run. induction events as [|e events IH]; intros p Hp; [exact Hp|].
  cbn [fold_left]. apply IH.
  destruct e as [u| | | | | |text| |message]; cbn [step].
  - exact Hp.
  - unfold checkUrlAndCloseIfNeeded. destruct (String.eqb _ _); exact Hp.
  - unfold checkUrlAndCloseIfNeeded. destruct (String.eqb _ _); exact Hp.
  - unfold pollTick, checkUrlAndCloseIfNeeded. cbn [href].
    destruct (negb _); [destruct (String.eqb _ _)|]; exact Hp.
  - unfold checkUrlAndCloseIfNeeded. destruct (String.eqb _ _); exact Hp.
  - exact Hp.
  - unfold observerCallback. cbn [bodyText].
    destruct (observing p); [|exact Hp].
    destruct text as [t|]; [|exact Hp].
    destruct (includes t SUCCESS_TEXT); exact Hp.
  - reflexivity.
  - rewrite Hp. destruct message as [| |b|t|props]; try exact Hp.
    destruct (includes t ALERT_TEXT); exact Hp.
Qed.

(** Without the wrapper no close request comes from [alert]. *)
Lemma step_without_wrapper p e :
  e ≠ InstallAlertWrapper →
  alertWrapped p = false → sentBy AlertTrigger p = [] →
  alertWrapped (step p e) = false ∧ sentBy AlertTrigger (step p e) = [].
Proof.
  intros He Hw Hs.
  assert (Hcheck : ∀ q, alertWrapped q = false → sentBy AlertTrigger q = [] →
            alertWrapped (checkUrlAndCloseIfNeeded q) = false
            ∧ sentBy AlertTrigger (checkUrlAndCloseIfNeeded q) = []).
  { intros q Hq Hq'. unfold checkUrlAndCloseIfNeeded.
    destruct (String.eqb _ _); [|auto].
    rewrite ContentClaims.sentBy_sendCloseTab, app_nil_r. auto. }
  destruct e as [u| | | | | |text| |message]; cbn [step].
  - auto.
  - apply Hcheck; assumption.
  - apply Hcheck; assumption.
  - unfold pollTick. destruct (negb _); [|auto]. apply Hcheck; assumption.
  - apply Hcheck; assumption.
  - rewrite ContentClaims.sentBy_sendCloseTab, app_nil_r. auto.
  - destruct (observing p); [|auto].
    unfold observerCallback. cbn [bodyText].
    destruct text as [t|]; [|auto].
    destruct (includes t SUCCESS_TEXT); [|auto].
    split; [exact Hw|].
    unfold sentBy in *. cbn [outbox sendCloseTab].
    rewrite List.filter_app, Hs. reflexivity.
  - congruence.
  - rewrite Hw. auto.
Qed.

(** X23: the [alert] wrapper of [VMHelper.initialize] is a sender that is
    never suppressed: from the moment it is installed, every call of
    [alert] with a string that holds "번역완료" sends one more close request,
    without opener id, and a call with another text or with a value that
    is no string sends nothing; as long as it is not installed no close
    request comes from [alert]. *)
Theorem alert_wrapper_sends_each_time :
  ∀ (url : string) (op : option Opener) (body : option string)
    (before after events : list Event) (message : Value),
    let p := run (load url op body) (before ++ InstallAlertWrapper :: after) in
    outbox (step p (AlertCalled message))
    = (outbox p
       ++ match message with
          | Str text =>
              if includes text ALERT_TEXT
              then [(AlertTrigger, closeTab None)] else []
          | _ => []
          end)%list
    ∧ (Forall (fun e => e ≠ InstallAlertWrapper) events →
       sentBy AlertTrigger (run (load url op body) events) = []).
Proof.
  intros url op body before after events message p. split.
  - assert (Hw : alertWrapped p = true).
    { subst p. rewrite run_app. unfold run at 1. cbn [fold_left].
      apply alertWrapped_stays. reflexivity. }
    cbn [step]. rewrite Hw.
    destruct message as [| |b|text|props]; try (rewrite app_nil_r; reflexivity).
    destruct (includes text ALERT_TEXT); [reflexivity|].
    rewrite app_nil_r. reflexivity.
  - intros Hev.
    assert (Hgen : ∀ q, alertWrapped q = false → sentBy AlertTrigger q = [] →
                     sentBy AlertTrigger (run q events) = []).
    { unfold run. induction Hev as [|e events He _ IH]; intros q Hq Hs;
        [exact Hs|].
      cbn [fold_left].
      destruct (step_without_wrapper q e He Hq Hs) as [Hq' Hs'].
      apply IH; assumption. }
    apply Hgen; reflexivity.
Qed.

End ContentRuns.

(** ** The service worker: messages and the toolbar button *)

Module BackgroundRuns.
Import Js Background BackgroundManager.

(** When the check lets a value through. *)
Lemma isTargetDomain_true_iff v :
  isTargetDomain v = Return true
  ↔ (∃ u, v = Plain (Str u) ∧ u ≠ ""
          ∧ includes u "letter.worldvision.or.kr" = true
          ∧ includes u "letterview.do" = true)
    ∨ (∃ items, v = Array items
                ∧ arrayIncludes items "letter.worldvision.or.kr" = true
                ∧ arrayIncludes items "letterview.do" = true).
Proof.
  unfold isTargetDomain. destruct v as [[| |[]|u|props]|items];
    cbn [truthyJson truthy negb];
    try (split; [discriminate|intros [(? & [=] & _)|(? & [=] & _)]]).
  - destruct (String.eqb_spec u "") as [->|Hne]; cbn [negb].
    + split; [discriminate|].
      intros [(? & [= <-] & H & _)|(? & [=] & _)]. congruence.
    + split.
      * intros [= H]. apply andb_true_iff in H as [H1 H2]. left. eauto.
      * intros [(? & [= <-] & _ & H1 & H2)|(? & [=] & _)].
        rewrite H1, H2. reflexivity.
  - split.
    + intros [= H]. apply andb_true_iff in H as [H1 H2]. right. eauto.
    + intros [(? & [=] & _)|(? & [= <-] & H1 & H2)].
      rewrite H1, H2. reflexivity.
Qed.

Lemma handleOpenInNewTab_cases v b :
  (isTargetDomain v = Return true
   ∧ createRejects b v = None
   ∧ handleOpenInNewTab v b
     = ({| tabs := (tabs b ++ [{| id := nextTabId b; url := v;
                                   active := true |}])%list;
           nextTabId := S (nextTabId b);
           createRejects := createRejects b |},
        Created (nextTabId b) "Tab created successfully"))
  ∨ ((isTargetDomain v ≠ Return true ∨ createRejects b v ≠ None)
     ∧ ∃ error, handleOpenInNewTab v b = (b, Failed error)).
Proof.
  unfold handleOpenInNewTab, openInNewTab, tabs_create.
  destruct (truthyJson v) eqn:Et; cbn [negb].
  - destruct (isTargetDomain v) as [[]|m] eqn:Ei; cbn [Js.bind negb].
    + destruct (createRejects b v) as [m|] eqn:Ec.
      * right. split; [right; congruence|eexists; reflexivity].
      * left. auto.
    + right. split; [left; discriminate|eexists; reflexivity].
    + right. split; [left; discriminate|eexists; reflexivity].
  - right. split; [|eexists; reflexivity].
    left. unfold isTargetDomain. rewrite Et. discriminate.
Qed.

(** X9: when an open-in-new-tab request is honoured, and what it does: a
    tab is created exactly when the browser accepts the URL and the URL is
    a non-empty string that contains both "letter.worldvision.or.kr" and
    "letterview.do", or an array that holds both texts as elements; then
    one active tab for that URL is appended and its id is answered.  In
    every other case the browser is left as it was and a failure is
    answered. *)
Theorem open_in_new_tab_acceptance :
  ∀ (v : Json) (b : Browser),
    (success (snd (handleOpenInNewTab v b)) = true
     ↔ ((∃ u, v = Plain (Str u) ∧ u ≠ ""
              ∧ includes u "letter.worldvision.or.kr" = true
              ∧ includes u "letterview.do" = true)
        ∨ (∃ items, v = Array items
                    ∧ arrayIncludes items "letter.worldvision.or.kr" = true
                    ∧ arrayIncludes items "letterview.do" = true))
       ∧ createRejects b v = None)
    ∧ (success (snd (handleOpenInNewTab v b)) = false →
       fst (handleOpenInNewTab v b) = b)
    ∧ (success (snd (handleOpenInNewTab v b)) = true →
       handleOpenInNewTab v b
       = ({| tabs := (tabs b ++ [{| id := nextTabId b; url := v;
                                     active := true |}])%list;
             nextTabId := S (nextTabId b);
             createRejects := createRejects b |},
          Created (nextTabId b) "Tab created successfully")).
Proof.
  intros v b. rewrite <- isTargetDomain_true_iff.
  destruct (handleOpenInNewTab_cases v b)
    as [(Hi & Hc & ->)|(Hno & error & ->)]; cbn [fst snd success].
  - split; [split; auto|]. split; [discriminate|reflexivity].
  - split; [split; [discriminate|]|split; [reflexivity|discriminate]].
    intros [Hi Hc]. destruct Hno; contradiction.
Qed.

(** The check is met by an array that holds the two texts, as it is by a
    string that contains them. *)
Lemma array_with_both_texts_opens_a_tab :
  let v := Array [Plain (Str "letter.worldvision.or.kr");
                  Plain (Str "letterview.do")] in
  let b := {| tabs := []; nextTabId := 7; createRejects := fun _ => None |} in
  isTargetDomain v = Return true
  ∧ handleOpenInNewTab v b
    = ({| tabs := [{| id := 7; url := v; active := true |}];
          nextTabId := 8;
          createRejects := createRejects b |},
       Created 7 "Tab created successfully").
Proof.
  split; vm_compute; reflexivity.
Qed.

Lemma handleMessage_tabs m w :
  tabs (browser (fst (handleMessage m w))) = tabs (browser w)
  ∨ ∃ v, isTargetDomain v = Return true
         ∧ tabs (browser (fst (handleMessage m w)))
           = (tabs (browser w)
              ++ [{| id := nextTabId (browser w); url := v; active := true |}])%list.
Proof.
  unfold handleMessage.
  destruct (String.eqb (action m) "openInNewTab").
  - destruct (handleOpenInNewTab_cases (messageUrl m) (browser w))
      as [(Hi & _ & ->)|(_ & error & ->)]; cbn.
    + right. exists (messageUrl m). auto.
    + left. reflexivity.
  - destruct (String.eqb (action m) "log"); [|left; reflexivity].
    unfold handleLogMessage. destruct (consoleMethod w _); left; reflexivity.
Qed.

(** X10: the worker only ever adds tabs, and only tabs on URLs that passed
    the check: after any sequence of messages the tabs that were open are
    still there, unchanged and in order, followed by the created ones, each
    active and on a URL that contains both "letter.worldvision.or.kr" and
    "letterview.do" (as a string their texts, as an array their
    elements). *)
Theorem worker_only_adds_checked_tabs :
  ∀ (ms : list RuntimeMessage) (w : Worker),
    ∃ created,
      tabs (browser (handleMessages w ms)) = (tabs (browser w) ++ created)%list
      ∧ Forall (fun t =>
                  active t = true
                  ∧ ((∃ u, url t = Plain (Str u)
                           ∧ includes u "letter.worldvision.or.kr" = true
                           ∧ includes u "letterview.do" = true)
                     ∨ (∃ items,
                          url t = Array items
                          ∧ arrayIncludes items "letter.worldvision.or.kr" = true
                          ∧ arrayIncludes items "letterview.do" = true)))
               created
      ∧ length created ≤ length ms.
Proof.
  unfold handleMessages.
  induction ms as [|m ms IH]; intros w.
  - exists []. cbn. rewrite app_nil_r. auto.
  - cbn [fold_left]. destruct (IH (fst (handleMessage m w))) as (created & Ht & Hf & Hl).
    destruct (handleMessage_tabs m w) as [E|(v & Hv & E)]; rewrite E in Ht.
    + exists created. cbn [length]. auto.
    + exists ({| id := nextTabId (browser w); url := v; active := true |} :: created).
      split; [rewrite Ht, <- app_assoc; reflexivity|].
      split; [|cbn [length]; lia].
      constructor; [|exact Hf]. cbn [active url]. split; [reflexivity|].
      apply isTargetDomain_true_iff in Hv
        as [(u & -> & _ & H1 & H2)|(items & -> & H1 & H2)]; eauto.
Qed.

(** X11: the close requests of the watcher are not handled: the worker has
    no case for the action 'closeTab', so each request is answered with the
    failure "Unknown action" and, whatever a page load sends, the worker and
    its tabs are afterwards as they were. *)
Theorem close_requests_are_not_handled :
  ∀ (url : string) (op : option Content.Opener) (body : option string)
    (events : list Content.Event) (w : Worker),
    let sent :=
      map (fun m => closeTabMessage (snd m))
          (Content.outbox (Content.run (Content.load url op body) events)) in
    Forall (fun m => handleMessage m w = (w, Refused "Unknown action")) sent
    ∧ handleMessages w sent = w.
Proof.
  intros url op body events w sent.
  assert (Hone : ∀ m, handleMessage (closeTabMessage m) w
                      = (w, Refused "Unknown action")).
  { intros [id]. reflexivity. }
  subst sent.
  induction (Content.outbox (Content.run (Content.load url op body) events))
    as [|m l IH]; cbn [map].
  - split; [constructor|reflexivity].
  - destruct IH as [Hf Hw]. split; [constructor; [apply Hone|exact Hf]|].
    unfold handleMessages in *. cbn [fold_left]. rewrite Hone. exact Hw.
Qed.

(** X12: a click on the toolbar button scripts a tab only when it should:
    calls of [executeScript] are made only for a tab with an id other than
    0 whose URL is a string that contains both "letter.worldvision.or.kr"
    and "letterview.do"; they target that tab, start with the call that
    shows the helper, and the content-script files are injected only after
    that call was rejected. *)
Theorem action_click_scripts_target_pages_only :
  ∀ (rejects : ScriptCall → bool) (tab : option ClickedTab),
    handleActionClick rejects tab = []
    ∨ ∃ t n u,
        tab = Some t ∧ clickedId t = Some (S n) ∧ clickedUrl t = Str u
        ∧ includes u "letter.worldvision.or.kr" = true
        ∧ includes u "letterview.do" = true
        ∧ ((rejects (ShowHelper (S n)) = false
            ∧ handleActionClick rejects tab = [ShowHelper (S n)])
           ∨ (rejects (ShowHelper (S n)) = true
              ∧ handleActionClick rejects tab
                = [ShowHelper (S n); InjectFiles (S n) contentScriptFiles])).
Proof.
  intros rejects [t|]; [|left; reflexivity].
  unfold handleActionClick.
  destruct (clickedId t) as [[|n]|] eqn:Eid; try (left; reflexivity).
  unfold isTargetDomain.
  destruct (clickedUrl t) as [| |[]|u|props] eqn:Eu; cbn [truthyJson truthy negb];
    try (left; reflexivity).
  destruct (negb (String.eqb u "")); [|left; reflexivity].
  destruct (includes u "letter.worldvision.or.kr") eqn:E1; [|left; reflexivity].
  destruct (includes u "letterview.do") eqn:E2; [|left; reflexivity].
  right. exists t, n, u. cbn [andb]. unfold executeContentScript.
  repeat (split; [auto|]).
  destruct (rejects (ShowHelper (S n))); [right|left]; auto.
Qed.

End BackgroundRuns.


(** ** White space and trimming *)

Module TrimFacts.
Import Js JsFacts RegExp RegExpSem.

Lemma length_append a b :
  String.length (a +:+ b) = String.length a + String.length b.
Proof.
  induction a as [|x a IH]; [reflexivity|].
  rewrite append_cons. cbn [String.length]. rewrite IH. reflexivity.
Qed.

(** A white space character is a token of one to three bytes, and it is
    one whatever follows it. *)
Lemma whiteSpace_token s s' :
  whiteSpace s = Some s' →
  ∃ tok, tok ≠ "" ∧ s = tok +:+ s' ∧ ∀ x, whiteSpace (tok +:+ x) = Some x.
Proof.
  unfold whiteSpace. destruct s as [|a s1]; [discriminate|].
  destruct (_ || _) eqn:E1.
  { intros [= <-]. exists (String a ""). split; [discriminate|].
    split; [reflexivity|]. intros x. rewrite append_cons, append_nil_l.
    rewrite E1. reflexivity. }
  destruct s1 as [|b s2]; [discriminate|].
  destruct ((nat_of_ascii a =? 194) && (nat_of_ascii b =? 160)) eqn:E2.
  { intros [= <-]. exists (String a (String b "")). split; [discriminate|].
    split; [reflexivity|]. intros x. rewrite !append_cons, append_nil_l.
    rewrite E1, E2. reflexivity. }
  destruct s2 as [|c s3]; [discriminate|].
  match goal with |- (if ?c then _ else _) = _ → _ => destruct c eqn:E3 end;
    [|discriminate].
  intros [= <-]. exists (String a (String b (String c ""))).
  split; [discriminate|]. split; [reflexivity|].
  intros x. rewrite !append_cons, append_nil_l. rewrite E1, E2, E3. reflexivity.
Qed.

Lemma whiteSpace_shorter s s' :
  whiteSpace s = Some s' → String.length s' < String.length s.
Proof.
  intros H. destruct (whiteSpace_token s s' H) as (tok & Hne & -> & _).
  rewrite length_append. destruct tok; [congruence|]. cbn. lia.
Qed.

(** Text that does not start with white space has no head that does. *)
Lemma whiteSpace_none_head p q :
  whiteSpace (p +:+ q) = None → p ≠ "" → whiteSpace p = None.
Proof.
  intros H Hp. destruct (whiteSpace p) as [p'|] eqn:E; [|reflexivity].
  destruct (whiteSpace_token p p' E) as (tok & _ & -> & Htok).
  rewrite append_assoc, Htok in H. discriminate.
Qed.

Lemma blankLoop_enough fuel1 : ∀ fuel2 s,
  String.length s ≤ fuel1 → String.length s ≤ fuel2 →
  blankLoop fuel1 s = blankLoop fuel2 s.
Proof.
  induction fuel1 as [|fuel1 IH]; intros fuel2 s H1 H2.
  - destruct s; [|cbn in H1; lia]. destruct fuel2; reflexivity.
  - destruct s as [|a s]; [destruct fuel2; reflexivity|].
    destruct fuel2 as [|fuel2]; [cbn in H2; lia|].
    cbn [blankLoop].
    destruct (whiteSpace (String a s)) as [s'|] eqn:E; [|reflexivity].
    pose proof (whiteSpace_shorter _ _ E) as Hs. cbn [String.length] in *.
    apply IH; lia.
Qed.

Lemma blank_unfold s :
  blank s = match s with
            | EmptyString => true
            | String _ _ =>
                match whiteSpace s with
                | Some s' => blank s'
                | None => false
                end
            end.
Proof.
  unfold blank. destruct s as [|a s]; [reflexivity|].
  cbn [String.length blankLoop].
  destruct (whiteSpace (String a s)) as [s'|] eqn:E; [|reflexivity].
  pose proof (whiteSpace_shorter _ _ E) as Hs. cbn [String.length] in Hs.
  apply blankLoop_enough; lia.
Qed.

Lemma blank_token tok x :
  tok ≠ "" → (∀ y, whiteSpace (tok +:+ y) = Some y) →
  blank (tok +:+ x) = blank x.
Proof.
  intros Hne Htok. rewrite blank_unfold, Htok.
  destruct tok as [|a tok]; [congruence|]. reflexivity.
Qed.

Lemma blank_app_aux n : ∀ a b,
  String.length a ≤ n → blank a = true → blank (a +:+ b) = blank b.
Proof.
  induction n as [|n IH]; intros a b Hlen Ha.
  - destruct a; [reflexivity|cbn in Hlen; lia].
  - destruct a as [|x a]; [reflexivity|].
    rewrite blank_unfold in Ha.
    destruct (whiteSpace (String x a)) as [a'|] eqn:E; [|discriminate].
    destruct (whiteSpace_token _ _ E) as (tok & Hne & Heq & Htok).
    pose proof (whiteSpace_shorter _ _ E) as Hs. cbn [String.length] in *.
    rewrite Heq, append_assoc, (blank_token tok _ Hne Htok).
    apply IH; [lia|exact Ha].
Qed.

(** After blank text, the text is blank when what follows is. *)
Lemma blank_app a b : blank a = true → blank (a +:+ b) = blank b.
Proof. apply (blank_app_aux (String.length a)). lia. Qed.

Lemma trimStartLoop_spec fuel : ∀ s,
  String.length s ≤ fuel →
  ∃ w, s = w +:+ trimStartLoop fuel s ∧ blank w = true
       ∧ whiteSpace (trimStartLoop fuel s) = None.
Proof.
  induction fuel as [|fuel IH]; intros s Hlen.
  - destruct s; [|cbn in Hlen; lia]. exists "". auto.
  - cbn [trimStartLoop].
    destruct (whiteSpace s) as [s'|] eqn:E.
    + pose proof (whiteSpace_shorter _ _ E) as Hs.
      destruct (IH s' ltac:(lia)) as (w & Hw & Hb & Hn).
      destruct (whiteSpace_token _ _ E) as (tok & Hne & Heq & Htok).
      exists (tok +:+ w). split; [|split; [|exact Hn]].
      * rewrite append_assoc, <- Hw. exact Heq.
      * rewrite (blank_token tok w Hne Htok). exact Hb.
    + exists "". auto.
Qed.

(** [trimStart] drops a blank head and leaves text that does not start
    with white space. *)
Lemma trimStart_spec s :
  ∃ w, s = w +:+ trimStart s ∧ blank w = true ∧ whiteSpace (trimStart s) = None.
Proof. apply trimStartLoop_spec. reflexivity. Qed.

Lemma trimStart_id s : whiteSpace s = None → trimStart s = s.
Proof.
  intros H. unfold trimStart. destruct (String.length s); cbn; [reflexivity|].
  rewrite H. reflexivity.
Qed.

Lemma trimEnd_unfold s :
  trimEnd s = if blank s then ""
              else match s with
                   | EmptyString => ""
                   | String a s' => String a (trimEnd s')
                   end.
Proof. destruct s; reflexivity. Qed.

(** [trimEnd] drops a blank end. *)
Lemma trimEnd_spec s : ∃ w, s = trimEnd s +:+ w ∧ blank w = true.
Proof.
  induction s as [|a s IH].
  - exists "". auto.
  - rewrite trimEnd_unfold. destruct (blank (String a s)) eqn:E.
    + exists (String a s). auto.
    + destruct IH as (w & Hw & Hb). exists w. split; [|exact Hb].
      rewrite append_cons, <- Hw. reflexivity.
Qed.

Lemma trimEnd_empty_iff s : trimEnd s = "" ↔ blank s = true.
Proof.
  rewrite trimEnd_unfold. destruct (blank s) eqn:E; [tauto|].
  destruct s; [discriminate E|]. split; discriminate.
Qed.

Lemma trimEnd_idempotent s : trimEnd (trimEnd s) = trimEnd s.
Proof.
  induction s as [|a s IH]; [reflexivity|].
  rewrite (trimEnd_unfold (String a s)).
  destruct (blank (String a s)) eqn:E; [reflexivity|].
  rewrite trimEnd_unfold, IH.
  destruct (blank (String a (trimEnd s))) eqn:E'; [|reflexivity].
  destruct (trimEnd_spec s) as (w & Hw & Hb).
  rewrite Hw, <- append_cons, (blank_app _ _ E'), Hb in E. discriminate.
Qed.

Lemma trimEnd_keeps_head s : whiteSpace s = None → whiteSpace (trimEnd s) = None.
Proof.
  intros H. destruct (trimEnd_spec s) as (w & Hw & _).
  destruct (trimEnd s) as [|a t] eqn:E; [reflexivity|].
  apply (whiteSpace_none_head _ w); [rewrite <- Hw; exact H|discriminate].
Qed.

(** Trimming a trimmed text changes nothing. *)
Lemma trim_idempotent s : trim (trim s) = trim s.
Proof.
  unfold trim. destruct (trimStart_spec s) as (w & _ & _ & Hn).
  rewrite (trimStart_id (trimEnd (trimStart s))) by (apply trimEnd_keeps_head, Hn).
  apply trimEnd_idempotent.
Qed.

(** A text trims to nothing exactly when it is blank. *)
Lemma trim_empty_iff s : trim s = "" ↔ blank s = true.
Proof.
  unfold trim. rewrite trimEnd_empty_iff.
  destruct (trimStart_spec s) as (w & Hw & Hb & _).
  rewrite Hw at 2. rewrite (blank_app _ _ Hb). reflexivity.
Qed.

Lemma trim_spec s :
  ∃ w1 w2, s = w1 +:+ trim s +:+ w2 ∧ blank w1 = true ∧ blank w2 = true.
Proof.
  unfold trim. destruct (trimStart_spec s) as (w1 & Hw1 & Hb1 & _).
  destruct (trimEnd_spec (trimStart s)) as (w2 & Hw2 & Hb2).
  exists w1, w2. rewrite <- Hw2. auto.
Qed.

Lemma allChars_app f a b : allChars f (a +:+ b) = allChars f a && allChars f b.
Proof.
  induction a as [|x a IH]; [reflexivity|].
  rewrite append_cons. cbn [allChars]. rewrite IH, andb_assoc. reflexivity.
Qed.

Lemma allChars_trim f s : allChars f s = true → allChars f (trim s) = true.
Proof.
  destruct (trim_spec s) as (w1 & w2 & Hs & _). intros H.
  rewrite Hs, !allChars_app in H.
  apply andb_true_iff in H as [_ H]. apply andb_true_iff in H as [H _]. exact H.
Qed.

Lemma trim_blank_free s : blank s = false → trim s ≠ "".
Proof. intros H E. apply trim_empty_iff in E. congruence. Qed.

End TrimFacts.

(** ** The matcher *)

Module RegExpFacts.
Import Js JsFacts RegExp RegExpSem TrimFacts.

Lemma matches_empty_inv s caps s' caps' :
  Matches Empty s caps s' caps' → s' = s ∧ caps' = caps.
Proof. inversion 1; subst; auto. Qed.

Lemma matches_atom_inv strip s caps s' caps' :
  Matches (Atom strip) s caps s' caps' → strip s = Some s' ∧ caps' = caps.
Proof. inversion 1; subst; auto. Qed.

Lemma matches_seq_inv r1 r2 s caps s2 caps2 :
  Matches (Seq r1 r2) s caps s2 caps2 →
  ∃ s1 caps1, Matches r1 s caps s1 caps1 ∧ Matches r2 s1 caps1 s2 caps2.
Proof. inversion 1; subst; eauto. Qed.

Lemma matches_alt_inv r1 r2 s caps s' caps' :
  Matches (Alt r1 r2) s caps s' caps' →
  Matches r1 s caps s' caps' ∨ Matches r2 s caps s' caps'.
Proof. inversion 1; subst; auto. Qed.

Lemma matches_group_inv i r s caps s' caps'' :
  Matches (Group i r) s caps s' caps'' →
  ∃ caps', Matches r s caps s' caps' ∧ caps'' = (i, consumed s s') :: caps'.
Proof. inversion 1; subst; eauto. Qed.

Lemma matches_end_inv s caps s' caps' :
  Matches End s caps s' caps' → s = "" ∧ s' = "" ∧ caps' = caps.
Proof. inversion 1; subst; auto. Qed.


Lemma starLoop_sound r (body : string → Captures → Cont → option Captures) :
  (∀ s caps k result,
     body s caps k = Some result →
     ∃ s' caps', Matches r s caps s' caps' ∧ k s' caps' = Some result) →
  ∀ fuel s caps k result,
    starLoop body k fuel s caps = Some result →
    ∃ s' caps', Matches (Star r) s caps s' caps' ∧ k s' caps' = Some result.
Proof.
  intros Hbody. induction fuel as [|fuel IH]; intros s caps k result H.
  - exists s, caps. split; [constructor|exact H].
  - cbn [starLoop] in H.
    destruct (body s caps _) as [result'|] eqn:E.
    + injection H as ->.
      apply Hbody in E as (s1 & caps1 & Hm & Hk).
      destruct (String.length s1 <? String.length s) eqn:L; [|discriminate].
      apply Nat.ltb_lt in L.
      apply IH in Hk as (s2 & caps2 & Hm2 & Hk2).
      exists s2, caps2. split; [|exact Hk2].
      eapply Matches_StarCons; eassumption.
    + exists s, caps. split; [constructor|exact H].
Qed.

(** The matcher only finds what the pattern matches. *)
Lemma exec_sound r :
  ∀ s caps k result,
    exec r s caps k = Some result →
    ∃ s' caps', Matches r s caps s' caps' ∧ k s' caps' = Some result.
Proof.
  induction r as [|strip|r1 IH1 r2 IH2|r1 IH1 r2 IH2|r IH|i r IH|];
    intros s caps k result H; cbn [exec] in H.
  - exists s, caps. split; [constructor|exact H].
  - destruct (strip s) as [s'|] eqn:E; [|discriminate].
    exists s', caps. split; [constructor; exact E|exact H].
  - apply IH1 in H as (s1 & caps1 & Hm1 & H).
    apply IH2 in H as (s2 & caps2 & Hm2 & H).
    exists s2, caps2. split; [econstructor; eassumption|exact H].
  - destruct (exec r1 s caps k) as [result'|] eqn:E.
    + injection H as ->. apply IH1 in E as (s' & caps' & Hm & Hk).
      exists s', caps'. split; [apply Matches_AltL; exact Hm|exact Hk].
    + apply IH2 in H as (s' & caps' & Hm & Hk).
      exists s', caps'. split; [apply Matches_AltR; exact Hm|exact Hk].
  - eapply starLoop_sound; [exact IH|exact H].
  - apply IH in H as (s' & caps' & Hm & Hk).
    exists s', ((i, consumed s s') :: caps'). split; [constructor; exact Hm|exact Hk].
  - destruct s; [|discriminate]. exists "", caps. split; [constructor|exact H].
Qed.

(** A search finds a match at some place of the text. *)
Lemma search_sound r s caps :
  search r s = Some caps →
  ∃ pre rest s', s = pre +:+ rest ∧ Matches r rest [] s' caps.
Proof.
  induction s as [|a s IH]; cbn [search].
  - destruct (exec r "" [] _) as [caps'|] eqn:E; [|discriminate].
    intros [= ->]. apply exec_sound in E as (s' & caps' & Hm & [= ->]).
    exists "", "", s'. auto.
  - destruct (exec r (String a s) [] _) as [caps'|] eqn:E.
    + intros [= ->]. apply exec_sound in E as (s' & caps' & Hm & [= ->]).
      exists "", (String a s), s'. auto.
    + intros H. destruct (IH H) as (pre & rest & s' & -> & Hm).
      exists (String a pre), rest, s'. auto.
Qed.

Lemma matches_star_atom strip s caps s' caps' :
  Matches (Star (Atom strip)) s caps s' caps' →
  caps' = caps ∧ Repeats strip s s'.
Proof.
  intros H. remember (Star (Atom strip)) as r eqn:Er.
  induction H; try discriminate.
  - split; [reflexivity|constructor].
  - injection Er as ->. apply matches_atom_inv in H as [Hs ->].
    destruct (IHMatches2 eq_refl) as [-> Hr].
    split; [reflexivity|]. econstructor; eassumption.
Qed.

Lemma repeats_class f s s' :
  Repeats (one f) s s' → ∃ g, s = g +:+ s' ∧ allChars f g = true.
Proof.
  induction 1 as [rest|s s1 rest Hs _ _ (g & -> & Hg)].
  - exists "". auto.
  - unfold one in Hs. destruct s as [|a s]; [discriminate|].
    destruct (f a) eqn:E; [|discriminate]. injection Hs as ->.
    exists (String a g). split; [reflexivity|]. cbn. rewrite E. exact Hg.
Qed.

Lemma repeats_space s s' :
  Repeats whiteSpace s s' → ∃ w, s = w +:+ s' ∧ blank w = true.
Proof.
  induction 1 as [rest|s s1 rest Hs _ _ (w & -> & Hw)].
  - exists "". auto.
  - destruct (whiteSpace_token _ _ Hs) as (tok & Hne & -> & Htok).
    exists (tok +:+ w). split; [apply eq_sym, append_assoc|].
    rewrite (blank_token tok w Hne Htok). exact Hw.
Qed.

Lemma class_repeats f g rest :
  allChars f g = true → Repeats (one f) (g +:+ rest) rest.
Proof.
  induction g as [|a g IH]; intros H; [constructor|].
  cbn [allChars] in H. apply andb_true_iff in H as [Ha Hg].
  rewrite append_cons. apply (Repeats_step _ _ (g +:+ rest)).
  - cbn. rewrite Ha. reflexivity.
  - cbn. lia.
  - apply IH, Hg.
Qed.

Lemma space_repeats_aux n : ∀ w rest,
  String.length w ≤ n → blank w = true → Repeats whiteSpace (w +:+ rest) rest.
Proof.
  induction n as [|n IH]; intros w rest Hlen Hw.
  - destruct w; [constructor|cbn in Hlen; lia].
  - destruct w as [|a w]; [constructor|].
    rewrite blank_unfold in Hw.
    destruct (whiteSpace (String a w)) as [w'|] eqn:E; [|discriminate].
    destruct (whiteSpace_token _ _ E) as (tok & Hne & Heq & Htok).
    pose proof (whiteSpace_shorter _ _ E) as Hs. cbn [String.length] in *.
    rewrite Heq, append_assoc.
    apply (Repeats_step _ _ (w' +:+ rest)).
    + apply Htok.
    + rewrite !length_append. destruct tok; [congruence|]. cbn. lia.
    + apply IH; [lia|exact Hw].
Qed.

Lemma space_repeats w rest :
  blank w = true → Repeats whiteSpace (w +:+ rest) rest.
Proof. apply (space_repeats_aux (String.length w)). lia. Qed.

Lemma matches_literal l :
  ∀ s caps s' caps',
    Matches (Literal l) s caps s' caps' → caps' = caps ∧ s = l +:+ s'.
Proof.
  induction l as [|c l IH]; intros s caps s' caps' H; cbn [Literal] in H.
  - apply matches_empty_inv in H as [-> ->]. auto.
  - apply matches_seq_inv in H as (s1 & caps1 & H1 & H2).
    apply matches_atom_inv in H1 as [H1 ->]. apply IH in H2 as [-> ->].
    unfold one in H1. destruct s as [|a s]; [discriminate|].
    destruct (Ascii.eqb_spec c a) as [->|]; [|discriminate].
    injection H1 as ->. auto.
Qed.

Lemma substring_app g rest :
  substring 0 (String.length g) (g +:+ rest) = g.
Proof.
  induction g as [|a g IH]; [destruct rest; reflexivity|].
  rewrite append_cons. cbn [String.length substring]. rewrite IH. reflexivity.
Qed.

Lemma consumed_app g rest : consumed (g +:+ rest) rest = g.
Proof.
  unfold consumed. rewrite length_append.
  replace (String.length g + String.length rest - String.length rest)
    with (String.length g) by lia.
  apply substring_app.
Qed.

(** A repetition of atoms that runs as far as it can goes on from there,
    when what follows succeeds from there. *)
Lemma starLoop_greedy strip s rest caps k result :
  Repeats strip s rest →
  strip rest = None →
  k rest caps = Some result →
  ∀ fuel, String.length s ≤ fuel →
    starLoop (exec (Atom strip)) k fuel s caps = Some result.
Proof.
  intros Hrep Hstop Hk.
  induction Hrep as [rest|s s1 rest Hs Hlen _ IH]; intros fuel Hfuel.
  - destruct fuel as [|fuel]; cbn [starLoop exec]; [exact Hk|].
    rewrite Hstop. exact Hk.
  - destruct fuel as [|fuel]; [lia|].
    cbn [starLoop exec]. rewrite Hs.
    apply Nat.ltb_lt in Hlen as Hlt. rewrite Hlt.
    rewrite (IH Hstop Hk) by lia. reflexivity.
Qed.

Lemma exec_star_greedy strip s rest caps k result :
  Repeats strip s rest →
  strip rest = None →
  k rest caps = Some result →
  exec (Star (Atom strip)) s caps k = Some result.
Proof.
  intros. cbn [exec]. eapply starLoop_greedy; eauto.
Qed.

Lemma exec_literal l : ∀ s caps k,
  exec (Literal l) (l +:+ s) caps k = k s caps.
Proof.
  induction l as [|c l IH]; intros s caps k; [reflexivity|].
  rewrite append_cons. cbn [Literal exec Char one].
  rewrite Ascii.eqb_refl. apply IH.
Qed.

(** Text without the first character of the pattern is passed over. *)
Lemma search_skip c r pre s :
  count_char c pre = 0 →
  search (Seq (Char c) r) (pre +:+ s) = search (Seq (Char c) r) s.
Proof.
  induction pre as [|a pre IH]; intros H; [reflexivity|].
  cbn [count_char] in H. rewrite append_cons. cbn [search exec Char one].
  rewrite (Ascii.eqb_sym c a).
  destruct (Ascii.eqb a c); [discriminate|]. apply IH. exact H.
Qed.

Lemma search_none c r s :
  count_char c s = 0 → search (Seq (Char c) r) s = None.
Proof.
  induction s as [|a s IH]; intros H; [reflexivity|].
  cbn [count_char] in H. cbn [search exec Char one].
  rewrite (Ascii.eqb_sym c a).
  destruct (Ascii.eqb a c); [discriminate|]. apply IH. exact H.
Qed.

Lemma search_here r s caps :
  exec r s [] (fun _ caps => Some caps) = Some caps → search r s = Some caps.
Proof. intros H. destruct s; cbn [search]; rewrite H; reflexivity. Qed.

End RegExpFacts.

(** ** utils.js: extracting a name *)

Module StringUtilsFacts.
Import Js JsFacts RegExp RegExpSem TrimFacts RegExpFacts StringUtils.

Lemma includes_within s m p :
  includes s m = true → includes m p = true → includes s p = true.
Proof.
  rewrite !includes_iff. intros (a & b & ->) (c & d & ->).
  exists (a +:+ c), (d +:+ b). rewrite !append_assoc. reflexivity.
Qed.

Lemma includes_trim s : includes s (trim s) = true.
Proof.
  destruct (trim_spec s) as (w1 & w2 & Hs & _).
  apply includes_iff. exists w1, w2. exact Hs.
Qed.

(** The optional bracket at the end of the pattern captures nothing. *)
Lemma matches_bracket s caps s' caps' :
  Matches (Opt (Seq (Star Space)
               (Seq (Char "(")
               (Seq (Star (Class notClosing)) (Char ")")))))
          s caps s' caps' →
  caps' = caps.
Proof.
  intros H. apply matches_alt_inv in H as [H|H].
  - apply matches_seq_inv in H as (s1 & c1 & H1 & H).
    apply matches_star_atom in H1 as [-> _].
    apply matches_seq_inv in H as (s2 & c2 & H2 & H).
    apply matches_atom_inv in H2 as [_ ->].
    apply matches_seq_inv in H as (s3 & c3 & H3 & H).
    apply matches_star_atom in H3 as [-> _].
    apply matches_atom_inv in H as [_ ->]. reflexivity.
  - apply matches_empty_inv in H as [_ ->]. reflexivity.
Qed.

(** What a match of the name pattern looks like. *)
Lemma matches_nameRegex rest s' caps :
  Matches nameRegex rest [] s' caps →
  ∃ w g tail,
    rest = "," +:+ w +:+ g +:+ tail
    ∧ blank w = true ∧ g ≠ "" ∧ allChars notParenthesis g = true
    ∧ caps = [(1, g)].
Proof.
  unfold nameRegex. intros H.
  apply matches_seq_inv in H as (s1 & c1 & H1 & H).
  apply matches_atom_inv in H1 as [H1 ->].
  unfold one in H1. destruct rest as [|a rest]; [discriminate|].
  destruct (Ascii.eqb_spec "," a) as [<-|]; [|discriminate]. injection H1 as ->.
  apply matches_seq_inv in H as (s2 & c2 & H2 & H).
  apply matches_star_atom in H2 as [-> H2].
  apply repeats_space in H2 as (w & -> & Hw).
  apply matches_seq_inv in H as (s3 & c3 & H3 & H).
  apply matches_group_inv in H3 as (c3' & H3 & ->).
  unfold Plus in H3.
  apply matches_seq_inv in H3 as (s2' & c2' & Ha & H3).
  apply matches_atom_inv in Ha as [Ha ->].
  apply matches_star_atom in H3 as [-> H3].
  apply repeats_class in H3 as (g & -> & Hg).
  unfold one in Ha. destruct s2 as [|b s2]; [discriminate|].
  destruct (notParenthesis b) eqn:Hb; [|discriminate]. injection Ha as ->.
  apply matches_seq_inv in H as (s4 & c4 & H4 & H).
  apply matches_bracket in H4 as ->.
  apply matches_end_inv in H as (_ & _ & ->).
  exists w, (String b g), s3.
  change (String b (g +:+ s3)) with (String b g +:+ s3).
  rewrite consumed_app.
  repeat split; try assumption; try discriminate.
  cbn [allChars]. rewrite Hb. exact Hg.
Qed.

(** A name that [extractName] returns comes from a text, after a comma in
    it, as the trimmed run of characters that are no brackets. *)
Lemma extractName_some v n :
  extractName v = Some n →
  ∃ t pre rest,
    v = Str t ∧ t = pre +:+ "," +:+ rest
    ∧ includes rest n = true
    ∧ allChars notParenthesis n = true
    ∧ trim n = n.
Proof.
  intros H. unfold extractName in H.
  destruct v as [| |[]|t|props]; try discriminate.
  destruct (negb (truthy (Str t)) || _); [discriminate|].
  destruct (search nameRegex t) as [caps|] eqn:E; [|discriminate].
  injection H as <-.
  apply search_sound in E as (pre & rest & s' & -> & Hm).
  apply matches_nameRegex in Hm as (w & g & tail & -> & Hw & Hg & Hall & ->).
  exists (pre +:+ "," +:+ w +:+ g +:+ tail), pre, (w +:+ g +:+ tail).
  cbn [group Nat.eqb].
  split; [reflexivity|]. split; [reflexivity|].
  split; [|split; [apply allChars_trim, Hall|apply trim_idempotent]].
  apply (includes_within _ g); [|apply includes_trim].
  apply includes_app_r, includes_app_l, includes_self.
Qed.

(** X13: what [extractName] returns: nothing for a value that is not a
    string, for the empty string and for a text without a comma; otherwise,
    if anything, a text that is trimmed, holds no bracket, and stands in the
    given text after a comma. *)
Theorem extractName_result :
  ∀ (v : Value),
    ((∀ t, v ≠ Str t) → extractName v = None)
    ∧ (v = Str "" → extractName v = None)
    ∧ (∀ t, v = Str t → count_char "," t = 0 → extractName v = None)
    ∧ (∀ n, extractName v = Some n →
       ∃ t pre rest,
         v = Str t ∧ t = pre +:+ "," +:+ rest
         ∧ includes rest n = true
         ∧ allChars notParenthesis n = true
         ∧ trim n = n).
Proof.
  intros v. split; [|split; [|split]].
  - intros H. destruct v as [| |[]|t|props]; try reflexivity.
    destruct (H t eq_refl).
  - intros ->. reflexivity.
  - intros t -> Hc. unfold extractName.
    destruct (negb (truthy (Str t)) || _); [reflexivity|].
    unfold nameRegex. rewrite (search_none "," _ t Hc). reflexivity.
  - apply extractName_some.
Qed.

Lemma exec_char c s caps k : exec (Char c) (String c s) caps k = k s caps.
Proof. cbn [exec Char one]. rewrite Ascii.eqb_refl. reflexivity. Qed.

Lemma exec_class f a s caps k :
  f a = true → exec (Class f) (String a s) caps k = k s caps.
Proof. intros H. cbn [exec Class one]. rewrite H. reflexivity. Qed.

Lemma exec_seq r1 r2 s caps k :
  exec (Seq r1 r2) s caps k
  = exec r1 s caps (fun s' caps' => exec r2 s' caps' k).
Proof. reflexivity. Qed.

Lemma exec_group i r s caps k :
  exec (Group i r) s caps k
  = exec r s caps (fun s' caps' => k s' ((i, consumed s s') :: caps')).
Proof. reflexivity. Qed.

Lemma exec_alt_left r1 r2 s caps k result :
  exec r1 s caps k = Some result → exec (Alt r1 r2) s caps k = Some result.
Proof. intros H. cbn [exec]. rewrite H. reflexivity. Qed.

Lemma whiteSpace_bracket x : whiteSpace (String "(" x) = None.
Proof. destruct x as [|b [|c x]]; reflexivity. Qed.

(** A text before a bracket starts with white space only if it does so on
    its own. *)
Lemma whiteSpace_before_bracket s x :
  whiteSpace s = None → s ≠ "" → whiteSpace (s +:+ String "(" x) = None.
Proof.
  intros H Hne. destruct s as [|a [|b [|c s]]]; [congruence|..];
    rewrite ?append_cons, ?append_nil_l; unfold whiteSpace in *;
    cbv zeta in *; change (nat_of_ascii "(") with 40.
  - destruct (_ || _); [discriminate|].
    cbn [Nat.eqb Nat.leb]. destruct x as [|c x];
      repeat match goal with
        | |- context [Nat.eqb (nat_of_ascii ?a) ?n] =>
            destruct (Nat.eqb (nat_of_ascii a) n)
        | |- context [Nat.leb (nat_of_ascii ?a) ?n] =>
            destruct (Nat.leb (nat_of_ascii a) n)
        | |- context [Nat.leb ?n (nat_of_ascii ?a)] =>
            destruct (Nat.leb n (nat_of_ascii a))
        end; reflexivity.
  - destruct (_ || _); [discriminate|].
    destruct (_ && _); [discriminate|].
    cbn [Nat.eqb Nat.leb].
    repeat match goal with
      | |- context [Nat.eqb (nat_of_ascii ?a) ?n] =>
          destruct (Nat.eqb (nat_of_ascii a) n)
      end; reflexivity.
  - destruct (_ || _); [discriminate|].
    destruct (_ && _); [discriminate|].
    match goal with |- (if ?c then _ else _) = _ => destruct c end;
      [discriminate|reflexivity].
Qed.

(** X14: the usual cell text gives the name: from a text with no comma
    before ", ", then a name without brackets that does not start with
    white space, then nothing or one bracketed remark up to the end,
    [extractName] returns the name without the white space at its end. *)
Theorem extractName_of_labelled_name :
  ∀ (pre w name tail : string),
    count_char "," pre = 0 →
    blank w = true →
    name ≠ "" →
    allChars notParenthesis name = true →
    whiteSpace name = None →
    (tail = ""
     ∨ ∃ inner, tail = "(" +:+ inner +:+ ")" ∧ allChars notClosing inner = true) →
    extractName (Str (pre +:+ "," +:+ w +:+ name +:+ tail)) = Some (trimEnd name).
Proof.
  intros pre w name tail Hpre Hw Hne Hall Hhead Htail.
  assert (Hstop : one notParenthesis tail = None).
  { destruct Htail as [->|(inner & -> & _)]; reflexivity. }
  assert (Hafter : whiteSpace (name +:+ tail) = None).
  { destruct Htail as [->|(inner & -> & _)].
    - rewrite append_nil_r. exact Hhead.
    - apply whiteSpace_before_bracket; assumption. }
  unfold extractName.
  assert (Htruthy : negb (truthy (Str (pre +:+ "," +:+ w +:+ name +:+ tail)))
                    || negb (String.eqb (typeof (Str (pre +:+ "," +:+ w +:+ name +:+ tail)))
                                        "string") = false).
  { cbn [truthy typeof]. rewrite orb_false_r, negb_involutive.
    apply String.eqb_neq. destruct pre; discriminate. }
  rewrite Htruthy. unfold nameRegex at 1.
  rewrite (search_skip "," _ pre _ Hpre).
  fold nameRegex.
  assert (Hfound : search nameRegex ("," +:+ w +:+ name +:+ tail)
                   = Some [(1, name)]).
  { apply search_here. unfold nameRegex.
    change ("," +:+ w +:+ name +:+ tail) with (String "," (w +:+ name +:+ tail)).
    rewrite exec_seq, exec_char, exec_seq. unfold Space.
    eapply exec_star_greedy; [apply space_repeats, Hw|exact Hafter|].
    cbv beta. rewrite exec_seq, exec_group. unfold Plus. rewrite exec_seq.
    destruct name as [|a name]; [congruence|].
    cbn [allChars] in Hall. apply andb_true_iff in Hall as [Ha Hall].
    rewrite append_cons, (exec_class _ _ _ _ _ Ha). unfold Class.
    eapply exec_star_greedy; [apply class_repeats, Hall|exact Hstop|].
    cbv beta.
    change (String a (name +:+ tail)) with (String a name +:+ tail).
    rewrite consumed_app.
    destruct Htail as [->|(inner & -> & Hinner)].
    - reflexivity.
    - rewrite exec_seq. unfold Opt. apply exec_alt_left.
      rewrite exec_seq. unfold Space.
      eapply exec_star_greedy; [apply Repeats_done|apply whiteSpace_bracket|].
      cbv beta.
      change ("(" +:+ inner +:+ ")") with (String "(" (inner +:+ ")")).
      rewrite exec_seq, exec_char, exec_seq. unfold Class.
      eapply exec_star_greedy; [apply class_repeats, Hinner|reflexivity|].
      reflexivity. }
  rewrite Hfound. cbn [group Nat.eqb]. unfold trim.
  rewrite (trimStart_id name Hhead). reflexivity.
Qed.

Lemma extractName_of_labelled_name_witness :
  extractName (Str ("한글이름" +:+ "," +:+ " " +:+ "김민수 " +:+ "(남)"))
  = Some (trimEnd "김민수 ").
Proof.
  apply extractName_of_labelled_name; try reflexivity; try discriminate.
  right. exists "남". split; reflexivity.
Defined.

End StringUtilsFacts.

(** ** ui-components.js: from the page to the textarea *)

Module UIFacts.
Import Js VM_CONFIG LetterTemplates Spec JsFacts LetterFacts GeneratorFacts.
Import RegExp RegExpSem TrimFacts StringUtils StringUtilsFacts UIManager.

Lemma includes_empty n : includes "" n = true → n = "".
Proof.
  rewrite includes_iff. intros (a & b & H).
  destruct a; [|discriminate]. destruct n; [reflexivity|discriminate].
Qed.

(** A non-empty extracted name stands in the cell it was read from. *)
Lemma extractName_cell cell n :
  extractName (Str (getTextContent cell)) = Some n →
  trim n = n ∧ allChars notParenthesis n = true
  ∧ ∃ c, cell = Some c ∧ includes c n = true.
Proof.
  intros H. apply extractName_some in H
    as (t & pre & rest & [= <-] & Ht & Hin & Hall & Htrim).
  split; [exact Htrim|]. split; [exact Hall|].
  assert (Hi : includes (getTextContent cell) n = true).
  { rewrite Ht. apply includes_app_r, includes_app_r.
    exact Hin. }
  destruct cell as [c|]; cbn [getTextContent] in *.
  - exists c. split; [reflexivity|].
    apply (includes_within _ (trim c)); [apply includes_trim|exact Hi].
  - destruct pre; discriminate.
Qed.

Lemma letterDataOf_data s k e :
  letterDataOf s k e !! "sponsorName" = Some s
  ∧ letterDataOf s k e !! "childKoreanName" = Some k
  ∧ letterDataOf s k e !! "childEnglishName" = Some e.
Proof.
  unfold letterDataOf. split; [|split]; reflexivity.
Qed.

(** The two outcomes of [extractLetterData]: both names were found and are
    not empty, or it throws and names the ones that are missing. *)
Lemma extractLetterData_cases page :
  (∃ k e,
      extractName (Str (getTextContent (koreanNameCell page))) = Some k
      ∧ extractName (Str (getTextContent (englishNameCell page))) = Some e
      ∧ k ≠ "" ∧ e ≠ ""
      ∧ extractLetterData page
        = Return (Object (letterDataOf (getTextContent (sponsorNameCell page))
                            k e)))
  ∨ (∃ labels,
      (labels = ["한글 이름"] ∨ labels = ["영문 이름"]
       ∨ labels = ["한글 이름"; "영문 이름"])
      ∧ (In "한글 이름" labels ↔
         ¬ ∃ k, extractName (Str (getTextContent (koreanNameCell page))) = Some k
                ∧ k ≠ "")
      ∧ (In "영문 이름" labels ↔
         ¬ ∃ e, extractName (Str (getTextContent (englishNameCell page))) = Some e
                ∧ e ≠ "")
      ∧ extractLetterData page
        = Throw ("필수 정보를 찾을 수 없습니다: " +:+ join ", " labels
                 +:+ LF +:+ "(페이지 선택자를 확인해주세요)")).
Proof.
  unfold extractLetterData.
  destruct (extractName (Str (getTextContent (koreanNameCell page))))
    as [k|] eqn:Ek;
  destruct (extractName (Str (getTextContent (englishNameCell page))))
    as [e|] eqn:Ee;
  try (apply extractName_cell in Ek as [Hk _];
       destruct (String.eqb k "") eqn:Hk';
       [apply String.eqb_eq in Hk' as ->|]);
  try (apply extractName_cell in Ee as [He _];
       destruct (String.eqb e "") eqn:He';
       [apply String.eqb_eq in He' as ->|]);
  unfold validateRequiredFields; cbn [flat_map fst snd truthy];
  rewrite ?Hk, ?He, ?Hk', ?He';
  try apply String.eqb_neq in Hk'; try apply String.eqb_neq in He';
  change (String.eqb "" "") with true;
  cbn [negb orb app length Nat.eqb fieldsValid missing setField];
  first
    [ left; exists k, e; repeat split; assumption
    | right;
      refine (ex_intro _ _ (conj _ (conj _ (conj _ eq_refl))));
      [ first [ left; reflexivity | right; left; reflexivity
              | right; right; reflexivity ]
      | split;
        [ intros HIn (n & Hn & Hn');
          first [ discriminate Hn
                | injection Hn as <-; congruence
                | cbn [In] in HIn; intuition discriminate ]
        | intros Hno;
          first [ cbn [In]; solve [auto] | destruct Hno; eauto ] ] .. ] ].
Qed.

(** X15: [extractLetterData] either returns the sponsor cell's trimmed text
    with two child names that are not empty, are trimmed, hold no bracket and
    stand in their cells, or throws the message that lists, in order, the
    names that were not found. *)
Theorem extractLetterData_result :
  ∀ (page : HostPage),
    (∃ k e,
        extractLetterData page
        = Return (Object (letterDataOf (getTextContent (sponsorNameCell page))
                            k e))
        ∧ k ≠ "" ∧ e ≠ "" ∧ trim k = k ∧ trim e = e
        ∧ allChars notParenthesis k = true ∧ allChars notParenthesis e = true
        ∧ (∃ c, koreanNameCell page = Some c ∧ includes c k = true)
        ∧ (∃ c, englishNameCell page = Some c ∧ includes c e = true))
    ∨ (∃ labels,
        extractLetterData page
        = Throw ("필수 정보를 찾을 수 없습니다: " +:+ join ", " labels
                 +:+ LF +:+ "(페이지 선택자를 확인해주세요)")
        ∧ (labels = ["한글 이름"] ∨ labels = ["영문 이름"]
           ∨ labels = ["한글 이름"; "영문 이름"])
        ∧ (In "한글 이름" labels ↔
           ¬ ∃ k, extractName (Str (getTextContent (koreanNameCell page)))
                  = Some k ∧ k ≠ "")
        ∧ (In "영문 이름" labels ↔
           ¬ ∃ e, extractName (Str (getTextContent (englishNameCell page)))
                  = Some e ∧ e ≠ "")).
Proof.
  intros page.
  destruct (extractLetterData_cases page)
    as [(k & e & Ek & Ee & Hk & He & H)|(labels & Hl & Hk & He & H)].
  - left. exists k, e.
    apply extractName_cell in Ek as (Hk1 & Hk2 & Hk3).
    apply extractName_cell in Ee as (He1 & He2 & He3).
    repeat split; assumption.
  - right. exists labels. repeat split; try assumption; apply Hk || apply He.
Qed.

Lemma required_fields_of_extracted s k e :
  k ≠ "" → e ≠ "" →
  (∀ field, In field requiredFields →
     ¬ empty_field (Object (letterDataOf s k e)) field)
  ↔ s ≠ "".
Proof.
  intros Hk He.
  destruct (letterDataOf_data s k e) as (Ds & Dk & De).
  split.
  - intros H ->. apply (H "sponsorName"); [left; reflexivity|].
    right. exact Ds.
  - intros Hs field [<-|[<-|[<-|[]]]] [H|H]; congruence.
Qed.

(** What the generator does with extracted data. *)
Lemma generate_extracted letterType authorType s k e :
  k ≠ "" → e ≠ "" →
  (known_letter_type letterType ∧ known_author_type authorType
   ∧ (letterType ≠ LETTER_TYPES.OTHER → s ≠ "")
   ∧ generatePersonalizedLetter constructor letterType authorType
       (Object (letterDataOf s k e))
     = Return (join LF (letter_lines letterType authorType (letterDataOf s k e))))
  ∨ (¬ (known_letter_type letterType ∧ known_author_type authorType
        ∧ (letterType ≠ LETTER_TYPES.OTHER → s ≠ ""))
     ∧ generatePersonalizedLetter constructor letterType authorType
         (Object (letterDataOf s k e))
       = Throw ("Template generation failed: "
                +:+ join ", " (complaints_of letterType authorType
                                 (Object (letterDataOf s k e))))).
Proof.
  intros Hk He.
  destruct (complaints_of letterType authorType (Object (letterDataOf s k e)))
    as [|c l] eqn:E.
  - left. pose proof E as Hc.
    apply complaints_nil_iff in E as (Hlt & Hat & _ & Hreq).
    repeat split; try assumption.
    + intros Hne. apply (required_fields_of_extracted s k e Hk He), Hreq, Hne.
    + apply generate_valid; assumption.
  - right. split.
    + intros (Hlt & Hat & Hs).
      assert (Hnil : complaints_of letterType authorType
                       (Object (letterDataOf s k e)) = []).
      { apply complaints_nil_iff. repeat split; try assumption.
        - eexists. reflexivity.
        - intros Hne. apply required_fields_of_extracted; auto. }
      congruence.
    + rewrite <- E. apply generate_invalid. rewrite E. discriminate.
Qed.

(** X16: pressing the button gives one call of [alert] and nothing else,
    or the textarea is written, the toast shown and the panel hidden; the textarea
    is written exactly when both options are checked with known types, the
    textarea exists, both child names are found and, unless the type is
    OTHER, the sponsor cell is not blank; what is written is the letter of
    the extracted data. *)
Theorem template_written_exactly_when :
  ∀ (panel : Panel) (page : HostPage),
    ((∃ m, handleTemplateGeneration panel page = [Alert m])
     ∨ (∃ v, handleTemplateGeneration panel page
             = [SetTextarea v; Toast "✨ 템플릿이 성공적으로 생성되었습니다!"; Hide]))
    ∧ ∀ v,
        In (SetTextarea v) (handleTemplateGeneration panel page)
        ↔ ∃ letterType authorType k e,
            letterTypeChecked panel = Some letterType
            ∧ authorTypeChecked panel = Some authorType
            ∧ known_letter_type letterType ∧ known_author_type authorType
            ∧ textarea page ≠ None
            ∧ extractName (Str (getTextContent (koreanNameCell page))) = Some k
            ∧ extractName (Str (getTextContent (englishNameCell page))) = Some e
            ∧ k ≠ "" ∧ e ≠ ""
            ∧ (letterType ≠ LETTER_TYPES.OTHER →
               getTextContent (sponsorNameCell page) ≠ "")
            ∧ v = join LF (letter_lines letterType authorType
                             (letterDataOf (getTextContent (sponsorNameCell page))
                                k e)).
Proof.
  intros panel page. unfold handleTemplateGeneration, showUserError.
  destruct (letterTypeChecked panel) as [letterType|] eqn:Elt;
    [destruct (authorTypeChecked panel) as [authorType|] eqn:Eat|].
  2,3: split; [left; eexists; reflexivity|];
       intros v; split;
       [intros [[=]|[]]|intros (? & ? & ? & ? & H1 & H2 & _); discriminate].
  destruct (extractLetterData_cases page)
    as [(k & e & Ek & Ee & Hk & He & H)|(labels & Hl & Hno & Hno' & H)]; rewrite H;
    cbn [Js.bind].
  2: { split; [left; eexists; reflexivity|].
       intros v; split; [intros [[=]|[]]|].
       intros (? & ? & k & e & _ & _ & _ & _ & _ & Ek & Ee & Hk & He & _).
       exfalso.
       assert (Hin : In "한글 이름" labels ∨ In "영문 이름" labels)
         by (destruct Hl as [->|[->| ->]]; cbn [In]; auto).
       destruct Hin as [Hin|Hin];
         [apply Hno in Hin|apply Hno' in Hin]; apply Hin; eauto. }
  destruct (generate_extracted letterType authorType
              (getTextContent (sponsorNameCell page)) k e Hk He)
    as [(Hlt & Hat & Hs & Hg)|(Hbad & Hg)]; rewrite Hg.
  2: { split; [left; eexists; reflexivity|].
       intros v; split; [intros [[=]|[]]|].
       intros (? & ? & k' & e' & [= <-] & [= <-] & Hlt & Hat & _ & _ & _ & _
               & _ & Hs & _).
       destruct Hbad. auto. }
  unfold insertTemplate, showUserError.
  destruct (textarea page) as [old|] eqn:Et; cbn [app].
  - split; [right; eexists; reflexivity|].
    intros v; split.
    + intros [[= <-]|[[=]|[[=]|[]]]].
      exists letterType, authorType, k, e. repeat split; auto.
    + intros (? & ? & k' & e' & [= <-] & [= <-] & _ & _ & _ & Ek' & Ee' & _
              & _ & _ & ->).
      left. congruence.
  - split; [left; eexists; reflexivity|].
    intros v; split; [intros [[=]|[]]|].
    intros (? & ? & ? & ? & _ & _ & _ & _ & Hta & _). congruence.
Qed.

Lemma missingFields_blank_sponsor k e :
  k ≠ "" → e ≠ "" →
  missingFields (Object (letterDataOf "" k e)) = ["sponsorName"].
Proof.
  intros Hk He. destruct (letterDataOf_data "" k e) as (Ds & Dk & De).
  unfold missingFields, requiredFields. cbn [List.filter property].
  rewrite Ds, Dk, De. cbn [truthy].
  apply String.eqb_neq in Hk, He. rewrite Hk, He. reflexivity.
Qed.

Lemma getTextContent_blank cell :
  (∀ c, cell = Some c → blank c = true) → getTextContent cell = "".
Proof.
  intros H. destruct cell as [c|]; [|reflexivity].
  cbn [getTextContent]. apply trim_empty_iff, H. reflexivity.
Qed.

(** X17: with both child names found and a sponsor cell that is missing or
    blank, the long letter types end in the call of [alert] that tells that
    [sponsorName] is missing, and write nothing, while OTHER writes the
    short letter with an empty sponsor name. *)
Theorem blank_sponsor_cell :
  ∀ (panel : Panel) (page : HostPage) (authorType k e : string),
    authorTypeChecked panel = Some authorType →
    known_author_type authorType →
    extractName (Str (getTextContent (koreanNameCell page))) = Some k →
    extractName (Str (getTextContent (englishNameCell page))) = Some e →
    k ≠ "" → e ≠ "" →
    textarea page ≠ None →
    (∀ c, sponsorNameCell page = Some c → blank c = true) →
    ((letterTypeChecked panel = Some LETTER_TYPES.HANDPRINT
      ∨ letterTypeChecked panel = Some LETTER_TYPES.PORTRAIT) →
     handleTemplateGeneration panel page
     = [Alert ("템플릿 생성 중 오류가 발생했습니다: "
               +:+ "Template generation failed: "
               +:+ "Missing required fields: sponsorName"
               +:+ LF +:+ LF +:+ "문제가 지속되면 개발자에게 문의해주세요.")])
    ∧ (letterTypeChecked panel = Some LETTER_TYPES.OTHER →
       handleTemplateGeneration panel page
       = [SetTextarea
            (join LF (simple_lines (helperStatements constructor !! authorType)
                        "" k e));
          Toast "✨ 템플릿이 성공적으로 생성되었습니다!"; Hide]).
Proof.
  intros panel page authorType k e Eat Hat Ek Ee Hk He Hta Hblank.
  apply getTextContent_blank in Hblank.
  assert (Hdata : extractLetterData page = Return (Object (letterDataOf "" k e))).
  { destruct (extractLetterData_cases page)
      as [(k' & e' & Ek' & Ee' & _ & _ & H)|(labels & Hl & Hno & Hno' & _)].
    - rewrite H, Hblank. congruence.
    - exfalso.
      assert (Hin : In "한글 이름" labels ∨ In "영문 이름" labels)
        by (destruct Hl as [->|[->| ->]]; cbn [In]; auto).
      destruct Hin as [Hin|Hin];
        [apply Hno in Hin|apply Hno' in Hin]; apply Hin; eauto. }
  apply known_author_type_iff in Hat.
  unfold handleTemplateGeneration. rewrite Eat, Hdata.
  split.
  - intros Hlt.
    assert (Hthrow :
      generatePersonalizedLetter constructor
        (match letterTypeChecked panel with Some t => t | None => "" end)
        authorType (Object (letterDataOf "" k e))
      = Throw ("Template generation failed: "
               +:+ "Missing required fields: sponsorName")).
    { destruct Hlt as [-> | ->];
        (rewrite generate_invalid;
         unfold complaints_of; rewrite Hat, (missingFields_blank_sponsor k e Hk He);
         [reflexivity|discriminate]). }
    destruct Hlt as [Hlt|Hlt]; rewrite Hlt in *; cbn [Js.bind];
      rewrite Hthrow; reflexivity.
  - intros ->. cbn [Js.bind].
    rewrite generate_valid.
    + unfold letter_lines. destruct (letterDataOf_data "" k e) as (Ds & Dk & De).
      unfold field_text. rewrite Ds, Dk, De.
      change (String.eqb LETTER_TYPES.OTHER LETTER_TYPES.OTHER) with true.
      cbv iota. unfold insertTemplate.
      destruct (textarea page); [reflexivity|congruence].
    + right. right. reflexivity.
    + unfold complaints_of. rewrite Hat. reflexivity.
Qed.

Lemma blank_sponsor_cell_witness :
  handleTemplateGeneration
    {| letterTypeChecked := Some LETTER_TYPES.PORTRAIT;
       authorTypeChecked := Some AUTHOR_TYPES.CHILD |}
    {| koreanNameCell := Some "한글이름, 김민수 (남)";
       englishNameCell := Some "Name, Minsu Kim";
       sponsorNameCell := Some "  ";
       textarea := Some "" |}
  = [Alert ("템플릿 생성 중 오류가 발생했습니다: "
            +:+ "Template generation failed: "
            +:+ "Missing required fields: sponsorName"
            +:+ LF +:+ LF +:+ "문제가 지속되면 개발자에게 문의해주세요.")].
Proof.
  apply (blank_sponsor_cell
           {| letterTypeChecked := Some LETTER_TYPES.PORTRAIT;
              authorTypeChecked := Some AUTHOR_TYPES.CHILD |}
           {| koreanNameCell := Some "한글이름, 김민수 (남)";
              englishNameCell := Some "Name, Minsu Kim";
              sponsorNameCell := Some "  ";
              textarea := Some "" |}
           AUTHOR_TYPES.CHILD "김민수" "Minsu Kim").
  - reflexivity.
  - left. reflexivity.
  - vm_compute. reflexivity.
  - vm_compute. reflexivity.
  - discriminate.
  - discriminate.
  - discriminate.
  - intros c [= <-]. vm_compute. reflexivity.
  - right. reflexivity.
Defined.

End UIFacts.

(** ** popup-to-tab.js: from the link to the letter page *)

Module PopupFacts.
Import Js JsFacts RegExp RegExpSem TrimFacts RegExpFacts StringUtilsFacts.
Import PopupToTab.

(** A captured run of one or more characters of a class. *)
Lemma matches_group_plus i f s caps s' caps' :
  Matches (Group i (Plus (Class f))) s caps s' caps' →
  ∃ g, s = g +:+ s' ∧ g ≠ "" ∧ allChars f g = true ∧ caps' = (i, g) :: caps.
Proof.
  intros H. apply matches_group_inv in H as (c & H & ->). unfold Plus in H.
  apply matches_seq_inv in H as (s1 & c1 & Ha & H).
  apply matches_atom_inv in Ha as [Ha ->].
  apply matches_star_atom in H as [-> H].
  apply repeats_class in H as (g & -> & Hg).
  unfold one in Ha. destruct s as [|b s]; [discriminate|].
  destruct (f b) eqn:Hb; [|discriminate]. injection Ha as ->.
  exists (String b g).
  change (String b (g +:+ s')) with (String b g +:+ s').
  rewrite consumed_app. repeat split; try discriminate.
  cbn [allChars]. rewrite Hb. exact Hg.
Qed.

Lemma exec_group_plus i f g rest caps k result :
  g ≠ "" → allChars f g = true → one f rest = None →
  k rest ((i, g) :: caps) = Some result →
  exec (Group i (Plus (Class f))) (g +:+ rest) caps k = Some result.
Proof.
  intros Hg Hall Hstop Hk. destruct g as [|a g]; [congruence|].
  cbn [allChars] in Hall. apply andb_true_iff in Hall as [Ha Hall].
  rewrite exec_group. unfold Plus. rewrite exec_seq.
  rewrite append_cons, (exec_class _ _ _ _ _ Ha). unfold Class.
  eapply exec_star_greedy; [apply class_repeats, Hall|exact Hstop|].
  cbv beta. change (String a (g +:+ rest)) with (String a g +:+ rest).
  rewrite consumed_app. exact Hk.
Qed.

Lemma matches_char c s caps s' caps' :
  Matches (Char c) s caps s' caps' → caps' = caps ∧ s = String c s'.
Proof.
  intros H. apply matches_atom_inv in H as [H ->]. split; [reflexivity|].
  unfold one in H. destruct s as [|a s]; [discriminate|].
  destruct (Ascii.eqb_spec c a) as [->|]; [|discriminate].
  injection H as ->. reflexivity.
Qed.

(** The call text the pattern looks for. *)
Lemma matches_openRegex rest s' caps :
  Matches openRegex rest [] s' caps →
  ∃ seq w mseq,
    rest = "goWindowOpen('" +:+ seq +:+ "'," +:+ w +:+ "'" +:+ mseq +:+ "')"
           +:+ s'
    ∧ seq ≠ "" ∧ allChars isDigit seq = true
    ∧ mseq ≠ "" ∧ allChars isDigit mseq = true
    ∧ blank w = true
    ∧ caps = [(2, mseq); (1, seq)].
Proof.
  unfold openRegex. intros H.
  apply matches_seq_inv in H as (s1 & c1 & H1 & H).
  apply matches_literal in H1 as [-> ->].
  apply matches_seq_inv in H as (s2 & c2 & H2 & H).
  apply matches_group_plus in H2 as (seq & -> & Hseq & Dseq & ->).
  apply matches_seq_inv in H as (s3 & c3 & H3 & H).
  apply matches_literal in H3 as [-> ->].
  apply matches_seq_inv in H as (s4 & c4 & H4 & H).
  apply matches_star_atom in H4 as [-> H4].
  apply repeats_space in H4 as (w & -> & Hw).
  apply matches_seq_inv in H as (s5 & c5 & H5 & H).
  apply matches_char in H5 as [-> ->].
  apply matches_seq_inv in H as (s6 & c6 & H6 & H).
  apply matches_group_plus in H6 as (mseq & -> & Hmseq & Dmseq & ->).
  apply matches_literal in H as [-> ->].
  exists seq, w, mseq. rewrite ?append_assoc.
  repeat split; assumption.
Qed.

Lemma processLink_expired page href :
  timesValue page = Some "0" → processLink page href = [AlertExpired].
Proof. intros H. unfold processLink. rewrite H. reflexivity. Qed.

Lemma processLink_valid page href :
  timesValue page ≠ Some "0" →
  processLink page href
  = match search openRegex href with
    | None => []
    | Some caps =>
        let url := letterViewUrl (origin page) (group 1 caps) (group 2 caps) in
        if canMessage page && negb (sendThrows page)
        then [SendOpenInNewTab url]
        else fallbackOpenTab page url
    end.
Proof.
  intros H. unfold processLink.
  assert (Hrest : ∀ A (x y : A),
            match timesValue page with
            | Some "0" => x
            | _ => y
            end = y).
  { intros A x y. destruct (timesValue page) as [t|]; [|reflexivity].
    destruct t as [|[[] [] [] [] [] [] [] []] [|b t]];
      try reflexivity. destruct H. reflexivity. }
  rewrite Hrest. destruct (search openRegex href); [|reflexivity].
  destruct (canMessage page), (sendThrows page); reflexivity.
Qed.

(** X18: a click is taken over exactly when the link's [href] holds
    [goWindowOpen]; then nothing is done, or [alert] is called with the
    expiry text (when [times] is "0"), or the [href] holds a call
    [goWindowOpen('seq', 'mseq')] with two numbers and the letter page of
    these numbers on the page's origin is requested from the extension, or
    opened by the fallback when messaging is not possible. *)
Theorem link_click_effects :
  ∀ (page : ListPage) (link : option (option string)),
    (fst (handleLinkClick page link) = true
     ↔ ∃ href, link = Some (Some href) ∧ includes href "goWindowOpen" = true)
    ∧ (snd (handleLinkClick page link) = []
       ∨ (timesValue page = Some "0"
          ∧ snd (handleLinkClick page link) = [AlertExpired])
       ∨ (timesValue page ≠ Some "0"
          ∧ ∃ pre seq w mseq post,
              link = Some (Some (pre +:+ "goWindowOpen('" +:+ seq +:+ "',"
                                   +:+ w +:+ "'" +:+ mseq +:+ "')" +:+ post))
              ∧ seq ≠ "" ∧ allChars isDigit seq = true
              ∧ mseq ≠ "" ∧ allChars isDigit mseq = true
              ∧ blank w = true
              ∧ snd (handleLinkClick page link)
                = if canMessage page && negb (sendThrows page)
                  then [SendOpenInNewTab (letterViewUrl (origin page) seq mseq)]
                  else fallbackOpenTab page
                         (letterViewUrl (origin page) seq mseq))).
Proof.
  intros page link. unfold handleLinkClick.
  destruct link as [[href|]|];
    [|split; [split; [discriminate|intros (? & [=] & _)]|left; reflexivity]..].
  destruct (String.eqb_spec href "") as [->|Hne]; cbn [negb andb].
  { split; [|left; reflexivity].
    split; [discriminate|]. intros (? & [= <-] & H). discriminate H. }
  destruct (includes href "goWindowOpen") eqn:Hinc; cbn [fst snd].
  2: { split; [|left; reflexivity].
       split; [discriminate|]. intros (? & [= <-] & H). congruence. }
  split; [split; eauto|].
  destruct (option_eq_dec (timesValue page) (Some "0")) as [Ht|Ht].
  { right. left. split; [exact Ht|]. apply processLink_expired, Ht. }
  rewrite (processLink_valid _ _ Ht).
  destruct (search openRegex href) as [caps|] eqn:E; [|left; reflexivity].
  right. right. split; [exact Ht|].
  apply search_sound in E as (pre & rest & post & -> & Hm).
  apply matches_openRegex in Hm
    as (seq & w & mseq & -> & Hseq & Dseq & Hmseq & Dmseq & Hw & ->).
  exists pre, seq, w, mseq, post. cbn [group Nat.eqb].
  rewrite ?append_assoc. repeat split; assumption.
Qed.

(** A pattern that starts with a literal character is not found before the
    first such character. *)
Lemma search_skip_literal c l r pre s :
  count_char c pre = 0 →
  search (Seq (Literal (String c l)) r) (pre +:+ s)
  = search (Seq (Literal (String c l)) r) s.
Proof.
  induction pre as [|a pre IH]; intros H; [reflexivity|].
  cbn [count_char] in H. rewrite append_cons.
  cbn [search exec Literal Char one].
  rewrite (Ascii.eqb_sym c a).
  destruct (Ascii.eqb a c); [discriminate|]. apply IH. exact H.
Qed.

Lemma whiteSpace_quote x : whiteSpace (String "'" x) = None.
Proof. destruct x as [|b [|c x]]; reflexivity. Qed.

Lemma search_openRegex pre seq w mseq post :
  count_char "g" pre = 0 →
  seq ≠ "" → allChars isDigit seq = true →
  mseq ≠ "" → allChars isDigit mseq = true →
  blank w = true →
  search openRegex (pre +:+ "goWindowOpen('" +:+ seq +:+ "'," +:+ w +:+ "'"
                      +:+ mseq +:+ "')" +:+ post)
  = Some [(2, mseq); (1, seq)].
Proof.
  intros Hpre Hseq Dseq Hmseq Dmseq Hw. unfold openRegex.
  rewrite (search_skip_literal "g" _ _ pre _ Hpre).
  apply search_here.
  rewrite exec_seq, exec_literal.
  rewrite exec_seq. apply exec_group_plus; [assumption..|reflexivity|].
  rewrite exec_seq, exec_literal, exec_seq. unfold Space.
  eapply exec_star_greedy; [apply space_repeats, Hw|apply whiteSpace_quote|].
  cbv beta.
  change ("'" +:+ mseq +:+ "')" +:+ post) with (String "'" (mseq +:+ "')" +:+ post)).
  rewrite exec_seq, exec_char, exec_seq.
  apply exec_group_plus; [assumption..|reflexivity|].
  rewrite exec_literal. reflexivity.
Qed.

Lemma includes_call pre rest :
  includes (pre +:+ "goWindowOpen('" +:+ rest) "goWindowOpen" = true.
Proof.
  apply includes_iff. exists pre, ("('" +:+ rest). reflexivity.
Qed.

(** X19: a link whose [href] holds, after a text without "g", the call
    [goWindowOpen('seq', 'mseq')] with two numbers is taken over, whatever
    [times] holds; when [times] is "0" [alert] is called with the expiry
    text and nothing is opened, otherwise the letter page of the two numbers
    is requested from the extension, or opened by the fallback when
    messaging is not possible. *)
Theorem numbered_link_opens_letter :
  ∀ (page : ListPage) (pre seq w mseq post : string),
    count_char "g" pre = 0 →
    seq ≠ "" → allChars isDigit seq = true →
    mseq ≠ "" → allChars isDigit mseq = true →
    blank w = true →
    let link :=
      Some (Some (pre +:+ "goWindowOpen('" +:+ seq +:+ "'," +:+ w +:+ "'"
                    +:+ mseq +:+ "')" +:+ post)) in
    fst (handleLinkClick page link) = true
    ∧ (timesValue page = Some "0" →
       snd (handleLinkClick page link) = [AlertExpired])
    ∧ (timesValue page ≠ Some "0" →
       snd (handleLinkClick page link)
       = if canMessage page && negb (sendThrows page)
         then [SendOpenInNewTab (letterViewUrl (origin page) seq mseq)]
         else fallbackOpenTab page (letterViewUrl (origin page) seq mseq)).
Proof.
  intros page pre seq w mseq post Hpre Hseq Dseq Hmseq Dmseq Hw link.
  subst link. unfold handleLinkClick. rewrite includes_call.
  assert (Hne : String.eqb (pre +:+ "goWindowOpen('" +:+ seq +:+ "'," +:+ w
                              +:+ "'" +:+ mseq +:+ "')" +:+ post) "" = false)
    by (apply String.eqb_neq; destruct pre; discriminate).
  rewrite Hne. cbn [negb andb fst snd].
  split; [reflexivity|]. split.
  - apply processLink_expired.
  - intros Ht.
    rewrite (processLink_valid _ _ Ht), search_openRegex by assumption.
    reflexivity.
Qed.

Lemma numbered_link_opens_letter_witness :
  let page :=
    {| origin := "https://letter.worldvision.or.kr"; timesValue := Some "1";
       canMessage := true; sendThrows := false; windowOpen := NewWindow;
       confirmAnswer := false |} in
  let expired :=
    {| origin := "https://letter.worldvision.or.kr"; timesValue := Some "0";
       canMessage := true; sendThrows := false; windowOpen := NewWindow;
       confirmAnswer := false |} in
  let link :=
    Some (Some ("javascript:" +:+ "goWindowOpen('" +:+ "123" +:+ "'," +:+ " "
                  +:+ "'" +:+ "45" +:+ "')" +:+ ";")) in
  handleLinkClick page link
  = (true,
     [SendOpenInNewTab
        (letterViewUrl "https://letter.worldvision.or.kr" "123" "45")])
  ∧ handleLinkClick expired link = (true, [AlertExpired]).
Proof.
  intros page expired link.
  destruct (numbered_link_opens_letter page "javascript:" "123" " " "45" ";")
    as (Htaken & _ & Hopen); try reflexivity; try discriminate.
  destruct (numbered_link_opens_letter expired "javascript:" "123" " " "45" ";")
    as (Htaken' & Halert & _); try reflexivity; try discriminate.
  fold link in Htaken, Hopen, Htaken', Halert.
  split.
  - rewrite (surjective_pairing (handleLinkClick page link)), Htaken, Hopen
      by discriminate.
    reflexivity.
  - rewrite (surjective_pairing (handleLinkClick expired link)), Htaken', Halert
      by reflexivity.
    reflexivity.
Defined.

End PopupFacts.

(** ** auto-rating.js: the query parameter, and the way of a letter link *)

Module UrlFacts.
Import Js JsFacts RegExp RegExpSem UrlSearch.

Lemma split_cons c s : ∃ h t, split c s = h :: t.
Proof.
  destruct s as [|a s]; cbn [split]; [eauto|].
  destruct (Ascii.eqb a c); [eauto|]. destruct (split c s); eauto.
Qed.

Lemma split_app c q r :
  split c (q +:+ String c r) = (split c q ++ split c r)%list.
Proof.
  induction q as [|a q IH].
  - rewrite append_nil_l. cbn [split]. rewrite Ascii.eqb_refl. reflexivity.
  - rewrite append_cons. cbn [split]. rewrite IH.
    destruct (Ascii.eqb a c); [reflexivity|].
    destruct (split_cons c q) as (h & t & ->). reflexivity.
Qed.

Lemma split_one c s : count_char c s = 0 → split c s = [s].
Proof.
  induction s as [|a s IH]; intros H; [reflexivity|].
  cbn [count_char] in H. cbn [split].
  destruct (Ascii.eqb a c); [discriminate|]. rewrite IH by exact H.
  reflexivity.
Qed.

(** A sequence between separators is one of the parts. *)
Lemma in_split c before sequence rest :
  count_char c sequence = 0 →
  (before = "" ∨ ∃ b, before = b +:+ String c "") →
  (rest = "" ∨ ∃ r, rest = String c r) →
  In sequence (split c (before +:+ sequence +:+ rest)).
Proof.
  intros Hs Hb Hr.
  assert (Hin : In sequence (split c (sequence +:+ rest))).
  { destruct Hr as [->|(r & ->)].
    - rewrite append_nil_r, split_one by exact Hs. left. reflexivity.
    - rewrite split_app, split_one by exact Hs. left. reflexivity. }
  destruct Hb as [->|(b & ->)]; [exact Hin|].
  rewrite append_assoc, append_cons, append_nil_l, split_app.
  apply in_or_app. right. exact Hin.
Qed.

Lemma parameterName_auto_helper tail :
  (tail = "" ∨ ∃ v, tail = String "=" v) →
  parameterName ("auto_helper" +:+ tail) = "auto_helper".
Proof. intros [->|(v & ->)]; reflexivity. Qed.

Lemma has_auto_helper before tail rest :
  (before = "" ∨ ∃ b, before = b +:+ "&") →
  (tail = "" ∨ ∃ v, tail = String "=" v) →
  count_char "&" tail = 0 →
  (rest = "" ∨ ∃ r, rest = String "&" r) →
  has ("?" +:+ before +:+ "auto_helper" +:+ tail +:+ rest) "auto_helper" = true.
Proof.
  intros Hb Ht Hc Hr. unfold has.
  change ("?" +:+ before +:+ "auto_helper" +:+ tail +:+ rest)
    with (String "?" (before +:+ "auto_helper" +:+ tail +:+ rest)).
  cbv iota. change (Ascii.eqb "?" "?") with true. cbv iota.
  apply existsb_exists. exists ("auto_helper" +:+ tail). split.
  - rewrite <- (append_assoc "auto_helper" tail rest).
    apply in_split; [|exact Hb|exact Hr].
    rewrite count_char_app, Hc. reflexivity.
  - rewrite (parameterName_auto_helper tail Ht). reflexivity.
Qed.

(** X20: the automatic rating is switched on by the name of the parameter
    alone: with [auto_helper] as a parameter of the query, with any value or
    none, at any place, [shouldPerformAutoRating] answers yes. *)
Theorem auto_helper_value_is_ignored :
  ∀ (before tail rest : string),
    (before = "" ∨ ∃ b, before = b +:+ "&") →
    (tail = "" ∨ ∃ v, tail = String "=" v) →
    count_char "&" tail = 0 →
    (rest = "" ∨ ∃ r, rest = String "&" r) →
    shouldPerformAutoRating ("?" +:+ before +:+ "auto_helper" +:+ tail +:+ rest)
    = true.
Proof. intros before tail rest. apply has_auto_helper. Qed.

Lemma auto_helper_value_is_ignored_witness :
  shouldPerformAutoRating ("?" +:+ "letter_seq=1&" +:+ "auto_helper" +:+ "=0"
                             +:+ "&x=1")
  = true.
Proof.
  apply (auto_helper_value_is_ignored "letter_seq=1&" "=0" "&x=1").
  - right. exists "letter_seq=1". reflexivity.
  - right. exists "0". reflexivity.
  - reflexivity.
  - right. exists "x=1". reflexivity.
Defined.

End UrlFacts.

(** ** From the list page to the letter page *)

Module LetterPageFlow.
Import Js JsFacts RegExp RegExpSem UrlSearch UrlFacts.
Import Background BackgroundManager PopupToTab.

Lemma digits_count c s :
  isDigit c = false → allChars isDigit s = true → count_char c s = 0.
Proof.
  intros Hc. induction s as [|a s IH]; [reflexivity|].
  cbn [allChars count_char]. intros H. apply andb_true_iff in H as [Ha Hs].
  destruct (Ascii.eqb_spec a c) as [->|_]; [congruence|]. apply IH, Hs.
Qed.

Lemma beforeHash_id s : count_char "#" s = 0 → beforeHash s = s.
Proof.
  induction s as [|a s IH]; [reflexivity|]. cbn [count_char beforeHash].
  destruct (Ascii.eqb a "#"); [discriminate|]. intros H. rewrite IH by exact H.
  reflexivity.
Qed.

Lemma fromQuestionMark_app s t :
  count_char "?" s = 0 →
  fromQuestionMark (s +:+ String "?" t) = String "?" t.
Proof.
  induction s as [|a s IH]; [reflexivity|]. cbn [count_char].
  rewrite append_cons. cbn [fromQuestionMark].
  destruct (Ascii.eqb a "?"); [discriminate|]. exact IH.
Qed.

Lemma append_nested a x b y c d :
  (a +:+ x +:+ b +:+ y +:+ c) +:+ d = a +:+ x +:+ b +:+ y +:+ c +:+ d.
Proof. rewrite !append_assoc. reflexivity. Qed.

Lemma letterViewUrl_search seq mseq :
  allChars isDigit seq = true → allChars isDigit mseq = true →
  locationSearch (letterViewUrl VM_CONFIG.URLS.TARGET_DOMAIN seq mseq)
  = "?letter_seq=" +:+ seq +:+ "&letter_mseq=" +:+ mseq
      +:+ "&isfinished=0&auto_helper=1".
Proof.
  intros Hseq Hmseq. unfold locationSearch, letterViewUrl.
  rewrite beforeHash_id.
  - change (VM_CONFIG.URLS.TARGET_DOMAIN
            +:+ "/mypage/letterlist/letterview.do?letter_seq=" +:+ seq
            +:+ "&letter_mseq=" +:+ mseq +:+ "&isfinished=0&auto_helper=1")
      with ("https://letter.worldvision.or.kr/mypage/letterlist/letterview.do"
            +:+ String "?" ("letter_seq=" +:+ seq +:+ "&letter_mseq=" +:+ mseq
                              +:+ "&isfinished=0&auto_helper=1")).
    rewrite fromQuestionMark_app by reflexivity. reflexivity.
  - rewrite !count_char_app.
    rewrite (digits_count "#" seq eq_refl Hseq),
      (digits_count "#" mseq eq_refl Hmseq).
    reflexivity.
Qed.

(** X21: the address a letter link asks for, on the configured domain and
    with two numbers: the service worker opens it in a new active tab when
    the browser accepts it; when the browser rejects it, the failure is
    answered, no tab is added and the list page opens nothing either; and
    on the opened page the automatic rating is switched on. *)
Theorem letter_page_request_flow :
  ∀ (w : Worker) (seq mseq : string),
    allChars isDigit seq = true →
    allChars isDigit mseq = true →
    let address := letterViewUrl VM_CONFIG.URLS.TARGET_DOMAIN seq mseq in
    let request := {| action := "openInNewTab";
                      messageUrl := Plain (Str address);
                      level := Undefined; text := Undefined |} in
    (createRejects (browser w) (Plain (Str address)) = None →
     handleMessage request w
     = ({| browser :=
             {| tabs := (tabs (browser w)
                         ++ [{| id := nextTabId (browser w);
                                url := Plain (Str address);
                                active := true |}])%list;
                nextTabId := S (nextTabId (browser w));
                createRejects := createRejects (browser w) |};
           consoleLines := consoleLines w;
           consoleMethod := consoleMethod w |},
        Opened (Created (nextTabId (browser w)) "Tab created successfully")))
    ∧ (∀ error page,
         createRejects (browser w) (Plain (Str address)) = Some error →
         snd (handleMessage request w) = Opened (Failed error)
         ∧ browser (fst (handleMessage request w)) = browser w
         ∧ onResponse page address false = [])
    ∧ shouldPerformAutoRating (locationSearch address) = true.
Proof.
  intros w seq mseq Hseq Hmseq address request.
  assert (Hdomain : includes address "letter.worldvision.or.kr" = true).
  { apply includes_iff.
    exists "https://",
      ("/mypage/letterlist/letterview.do?letter_seq=" +:+ seq
       +:+ "&letter_mseq=" +:+ mseq +:+ "&isfinished=0&auto_helper=1").
    reflexivity. }
  assert (Hpath : includes address "letterview.do" = true).
  { apply includes_iff.
    exists "https://letter.worldvision.or.kr/mypage/letterlist/",
      ("?letter_seq=" +:+ seq
       +:+ "&letter_mseq=" +:+ mseq +:+ "&isfinished=0&auto_helper=1").
    reflexivity. }
  assert (Hopen : openInNewTab (Plain (Str address)) (browser w)
                  = tabs_create (browser w) (Plain (Str address))).
  { unfold openInNewTab, isTargetDomain. cbn [truthyJson truthy].
    change (String.eqb address "") with false.
    cbn [negb Js.bind]. rewrite Hdomain, Hpath. reflexivity. }
  split; [|split].
  - intros Hok. unfold handleMessage, handleOpenInNewTab.
    cbn [action messageUrl request String.eqb Ascii.eqb Bool.eqb].
    rewrite Hopen. unfold tabs_create. rewrite Hok. reflexivity.
  - intros error page Hno. unfold handleMessage, handleOpenInNewTab.
    cbn [action messageUrl request String.eqb Ascii.eqb Bool.eqb].
    rewrite Hopen. unfold tabs_create. rewrite Hno. auto.
  - unfold address. rewrite (letterViewUrl_search seq mseq Hseq Hmseq).
    replace ("?letter_seq=" +:+ seq +:+ "&letter_mseq=" +:+ mseq
             +:+ "&isfinished=0&auto_helper=1")
      with ("?" +:+ ("letter_seq=" +:+ seq +:+ "&letter_mseq=" +:+ mseq
                     +:+ "&isfinished=0" +:+ "&")
            +:+ "auto_helper" +:+ "=1" +:+ "")
      by (rewrite (append_nested "letter_seq=" seq "&letter_mseq=" mseq);
          reflexivity).
    apply has_auto_helper.
    + right. exists ("letter_seq=" +:+ seq +:+ "&letter_mseq=" +:+ mseq
                     +:+ "&isfinished=0").
      symmetry. apply append_nested.
    + right. eexists. reflexivity.
    + reflexivity.
    + left. reflexivity.
Qed.

Lemma letter_page_request_flow_witness :
  shouldPerformAutoRating
    (locationSearch (letterViewUrl VM_CONFIG.URLS.TARGET_DOMAIN "123" "45"))
  = true.
Proof.
  apply (letter_page_request_flow
           {| browser := {| tabs := []; nextTabId := 1;
                            createRejects := fun _ => None |};
              consoleLines := []; consoleMethod := fun _ => true |}
           "123" "45"); reflexivity.
Defined.

End LetterPageFlow.

(** ** utils.js: required fields *)

Module ValidationFacts.
Import Js JsFacts RegExp TrimFacts StringUtils.

Lemma missing_test value :
  negb (truthy (Str value)) || String.eqb (trim value) "" = blank value.
Proof.
  cbn [truthy]. rewrite negb_involutive.
  destruct (String.eqb_spec value "") as [->|_]; [reflexivity|].
  cbn [orb]. destruct (String.eqb_spec (trim value) "") as [H|H].
  - symmetry. apply trim_empty_iff, H.
  - destruct (blank value) eqn:E; [|reflexivity].
    apply trim_empty_iff in E. contradiction.
Qed.

Lemma missing_cons name value fields :
  missing (validateRequiredFields ((name, value) :: fields))
  = ((if match value with Some v => blank v | None => true end
      then [name] else [])
     ++ missing (validateRequiredFields fields))%list.
Proof.
  unfold validateRequiredFields. cbn [missing flat_map fst snd].
  destruct value as [v|]; [|reflexivity]. rewrite missing_test. reflexivity.
Qed.

(** X22: [validateRequiredFields] reports, in the order of the entries, the
    names whose value is null or consists of white space only (the empty
    string included), and it is valid exactly when every value is a string
    with a character that is not white space. *)
Theorem validateRequiredFields_reports_blank :
  ∀ (fields : list (string * option string)),
    missing (validateRequiredFields fields)
    = map fst
        (List.filter
           (fun entry =>
              match snd entry with Some v => blank v | None => true end)
           fields)
    ∧ (fieldsValid (validateRequiredFields fields) = true
       ↔ ∀ name value, In (name, value) fields →
           ∃ v, value = Some v ∧ blank v = false).
Proof.
  intros fields.
  assert (Hmissing :
    missing (validateRequiredFields fields)
    = map fst
        (List.filter
           (fun entry =>
              match snd entry with Some v => blank v | None => true end)
           fields)).
  { induction fields as [|[name value] fields IH]; [reflexivity|].
    rewrite missing_cons, IH. cbn [List.filter snd].
    destruct (match value with Some v => blank v | None => true end);
      reflexivity. }
  split; [exact Hmissing|].
  assert (Hvalid : fieldsValid (validateRequiredFields fields) = true
                   ↔ missing (validateRequiredFields fields) = []).
  { unfold validateRequiredFields. cbn [fieldsValid missing].
    rewrite Nat.eqb_eq. apply length_zero_iff_nil. }
  rewrite Hvalid. clear Hvalid Hmissing.
  induction fields as [|[name value] fields IH].
  - split; [intros _ ? ? []|reflexivity].
  - rewrite missing_cons. split.
    + intros H. apply app_eq_nil in H as [Hhead Htail].
      intros name' value' [[= <- <-]|Hin].
      * destruct value as [v|]; [|discriminate].
        exists v. destruct (blank v); [discriminate|auto].
      * apply (proj1 IH Htail name' value' Hin).
    + intros H.
      destruct (H name value (or_introl eq_refl)) as (v & -> & Hv).
      rewrite Hv. apply IH. intros name' value' Hin.
      apply (H name' value'). right. exact Hin.
Qed.

End ValidationFacts.
